(** * InvoiceGuard: validation, payment tracking and batch extraction

    A shallow embedding of the reconciliation core of the repository:
    - [utils/validation.py]: the invoice / purchase-order join and the
      discrepancy classifier ([validate_invoices]);
    - [utils/invoice_helpers.py], [utils/payment_engine.py],
      [genAI/justification.py]: the payment state tracker;
    - [main.py]: the processing pass that persists the payment log
      ([process_payments_and_past_due]) and the batch extraction loop
      ([analyze_invoices]);
    - [utils/gemini_client.py], [genAI/parser.py]: the retrying client.

    Conventions.  Numeric cells are binary64 floats, as in a pandas float64
    column, and the missing value of such a column is NaN.  Text cells are
    strings.  Python exceptions are values of [Exn]; code that talks to the
    outside world (the payment endpoint, the language model) is a tree of
    calls, [Prog], run against a handler. *)

From Stdlib Require Import ZArith List String Ascii Bool Arith Lia.
From Stdlib Require Import Floats.PrimFloat Floats.FloatOps Floats.SpecFloat.
From Stdlib Require Import DecimalString.
Import ListNotations.
Open Scope string_scope.
Open Scope list_scope.

Set Implicit Arguments.

(* ================================================================== *)
(** * Exceptions and results *)
(* ================================================================== *)

Inductive Exn : Type :=
| ValueError (msg : string)
| KeyError (key : string)
| MergeError (msg : string)
| RuntimeError (msg : string)
| OverflowError (msg : string)
| TypeError (msg : string).

Inductive Result (A : Type) : Type :=
| Ok (a : A)
| Raised (e : Exn).

Arguments Ok {A} a.
Arguments Raised {A} e.

Definition result_bind {A B} (r : Result A) (f : A -> Result B) : Result B :=
  match r with
  | Ok a => f a
  | Raised e => Raised e
  end.

(** [[f(x) for x in xs]] where [f] may raise: the first exception wins. *)
Fixpoint result_map {A B} (f : A -> Result B) (xs : list A) : Result (list B) :=
  match xs with
  | [] => Ok []
  | x :: xs' =>
      result_bind (f x) (fun y =>
      result_bind (result_map f xs') (fun ys => Ok (y :: ys)))
  end.

(* ================================================================== *)
(** * Cells *)
(* ================================================================== *)

(** [pd.isna] on a float cell. *)
Definition isna (x : float) : bool := negb (PrimFloat.eqb x x).

(** Python's [a != b], [a > b], [a < b] on floats. *)
Definition float_ne (a b : float) : bool := negb (PrimFloat.eqb a b).
Definition float_gt (a b : float) : bool := PrimFloat.ltb b a.
Definition float_lt (a b : float) : bool := PrimFloat.ltb a b.

(** A cell of an [invoice_number] column before [astype(int)]: an integer,
    a text, or the missing value. *)
Inductive Cell : Type :=
| CInt (z : Z)
| CStr (s : string)
| CNaN.

Definition cell_eqb (a b : Cell) : bool :=
  match a, b with
  | CInt x, CInt y => Z.eqb x y
  | CStr s, CStr t => String.eqb s t
  | CNaN, CNaN => true
  | _, _ => false
  end.

(** [str.isspace] on an ASCII character. *)
Definition is_space (c : ascii) : bool :=
  let n := nat_of_ascii c in
  ((9 <=? n) && (n <=? 13))%nat || ((28 <=? n) && (n <=? 32))%nat.

Fixpoint lstrip (s : string) : string :=
  match s with
  | String c s' => if is_space c then lstrip s' else s
  | EmptyString => EmptyString
  end.

Fixpoint rstrip (s : string) : string :=
  match s with
  | EmptyString => EmptyString
  | String c s' =>
      match rstrip s' with
      | EmptyString => if is_space c then EmptyString else String c EmptyString
      | t => String c t
      end
  end.

(** [str.strip()] for ASCII white space. *)
Definition strip (s : string) : string := rstrip (lstrip s).

Definition digit_of (c : ascii) : option Z :=
  let n := nat_of_ascii c in
  if ((48 <=? n) && (n <=? 57))%nat then Some (Z.of_nat (n - 48)) else None.

(** Digits of a decimal literal, single underscores allowed between digits.
    [acc] is the value read so far, [after_digit] tells whether the previous
    character was a digit. *)
Fixpoint read_digits (s : string) (acc : Z) (after_digit : bool) : option Z :=
  match s with
  | EmptyString => if after_digit then Some acc else None
  | String c s' =>
      match digit_of c with
      | Some d => read_digits s' (10 * acc + d)%Z true
      | None =>
          if (Ascii.eqb c "_"%char && after_digit)%bool
          then read_digits s' acc false
          else None
      end
  end.

(** The white space [int(text)] skips at both ends of an ASCII text:
    characters 9 to 13 and the space.  Unlike [str.strip], it does not
    skip the separators 28 to 31. *)
Definition is_int_space (c : ascii) : bool :=
  let n := nat_of_ascii c in
  ((9 <=? n) && (n <=? 13))%nat || (n =? 32)%nat.

Fixpoint int_lstrip (s : string) : string :=
  match s with
  | String c s' => if is_int_space c then int_lstrip s' else s
  | EmptyString => EmptyString
  end.

Fixpoint int_rstrip (s : string) : string :=
  match s with
  | EmptyString => EmptyString
  | String c s' =>
      match int_rstrip s' with
      | EmptyString => if is_int_space c then EmptyString else String c EmptyString
      | t => String c t
      end
  end.

(** Python's [int(text)] on ASCII text. *)
Definition int_of_string (s : string) : option Z :=
  match int_rstrip (int_lstrip s) with
  | String "-"%char t => option_map Z.opp (read_digits t 0%Z false)
  | String "+"%char t => read_digits t 0%Z false
  | t => read_digits t 0%Z false
  end.

(** The integers of [int64], which is what [int] means to [astype], and
    those of [uint64]. *)
Definition in_int64 (z : Z) : bool := ((- 2 ^ 63 <=? z) && (z <? 2 ^ 63))%Z.
Definition in_uint64 (z : Z) : bool := ((0 <=? z) && (z <? 2 ^ 64))%Z.

(** The cast of an integer to [int64]: it wraps modulo [2 ^ 64], so it
    keeps the integers of [int64] and sends those from [2 ^ 63] up to the
    negative ones. *)
Definition to_int64 (z : Z) : Z := ((z + 2 ^ 63) mod 2 ^ 64 - 2 ^ 63)%Z.

(** One cell of [Series.astype(int)] in a column that converts: a text
    is read by [int] and must fit [int64]; an integer of an [int64] or
    [uint64] column is cast, which wraps the integers only [uint64]
    holds; an integer that neither holds, a text that is not a numeral
    and the missing value raise. *)
Definition astype_int (c : Cell) : Result Cell :=
  match c with
  | CInt z =>
      if in_int64 z || in_uint64 z then Ok (CInt (to_int64 z))
      else Raised (OverflowError "Python int too large to convert to C long")
  | CStr s =>
      match int_of_string s with
      | Some z =>
          if in_int64 z then Ok (CInt z)
          else Raised (OverflowError "Python int too large to convert to C long")
      | None => Raised (ValueError "invalid literal for int() with base 10")
      end
  | CNaN => Raised (ValueError "cannot convert float NaN to integer")
  end.

(** The same for an element of an object column, which [int] reads one
    by one: there an integer is a Python integer and must fit [int64]
    too. *)
Definition int64_of_object (c : Cell) : Result Cell :=
  match c with
  | CInt z =>
      if in_int64 z then Ok (CInt z)
      else Raised (OverflowError "Python int too large to convert to C long")
  | _ => astype_int c
  end.

(** The dtypes a column of invoice numbers can have. *)
Inductive Dtype : Type :=
| Int64
| UInt64
| Float64
| Object.

Definition is_text (c : Cell) : bool :=
  match c with
  | CStr _ => true
  | _ => false
  end.

Definition is_missing (c : Cell) : bool :=
  match c with
  | CNaN => true
  | _ => false
  end.

Definition holds (range : Z -> bool) (c : Cell) : bool :=
  match c with
  | CInt z => range z
  | _ => false
  end.

(** The dtype pandas infers for a column from its cells: [object] as soon
    as one cell is a text; [float64] when a value is missing among
    integers; [int64] when every cell is an integer [int64] holds;
    [uint64] when every cell is an integer [uint64] holds; [object], with
    Python integers, for the integers no single integer dtype holds. *)
Definition dtype_of (cells : list Cell) : Dtype :=
  if existsb is_text cells then Object
  else if existsb is_missing cells then Float64
  else if forallb (holds in_int64) cells then Int64
  else if forallb (holds in_uint64) cells then UInt64
  else Object.

(* ================================================================== *)
(** * Data model *)
(* ================================================================== *)

(** A DataFrame with rows of a fixed shape: the column labels, in order,
    and the rows.  A field of a row is the cell under the label of its
    name; renaming a column changes a label and no cell, so after
    [rename] the field [invoice_number] of an invoice row is the cell
    under [invoice_number_inv].  A frame whose labels lack the name of a
    field is a frame without that column: asking for it is a [KeyError],
    and the cell the row record still has there is never read.  The
    labels of a frame are distinct, and each is the name of a field. *)
Record DataFrame (R : Type) : Type := mkDataFrame {
  columns : list string;
  rows : list R
}.

Module Inv.
(** One row of [output/invoices.csv]: an invoice line item. *)
Record row : Type := mk {
  file_name : string;
  invoice_number : Cell;
  order_id : string;
  customer_name : string;
  due_date : string;
  ship_to : string;
  ship_mode : string;
  subtotal : float;
  discount : float;
  shipping_cost : float;
  total : float;
  item_name : string;
  quantity : float;
  rate : float;
  amount : float
}.

Definition labels : list string :=
  ["invoice_number"; "order_id"; "customer_name"; "due_date"; "ship_to";
   "ship_mode"; "subtotal"; "discount"; "shipping_cost"; "total";
   "file_name"; "item_name"; "quantity"; "rate"; "amount"].

Definition set_invoice_number (c : Cell) (r : row) : row :=
  mk (file_name r) c (order_id r) (customer_name r) (due_date r) (ship_to r)
     (ship_mode r) (subtotal r) (discount r) (shipping_cost r) (total r)
     (item_name r) (quantity r) (rate r) (amount r).
End Inv.

Module PO.
(** One row of [data/purchase_orders.csv]. *)
Record row : Type := mk {
  invoice_number : Cell;
  order_id : string;
  customer_name : string;
  quantity : float;
  rate : float;
  expected_amount : float
}.

Definition labels : list string :=
  ["invoice_number"; "order_id"; "customer_name"; "quantity"; "rate";
   "expected_amount"].

Definition set_invoice_number (c : Cell) (r : row) : row :=
  mk c (order_id r) (customer_name r) (quantity r) (rate r) (expected_amount r).
End PO.

Module Report.
(** One row of the validation report ([report_columns]). *)
Record row : Type := mk {
  file_name : string;
  invoice_number_inv : Cell;
  order_id : string;
  customer_name : string;
  due_date : string;
  ship_to : string;
  discount : float;
  shipping_cost : float;
  total : float;
  quantity_inv : float;
  quantity_po : float;
  rate_inv : float;
  rate_po : float;
  amount : float;
  expected_amount : float;
  validation_result : string;
  validation_status : string
}.
End Report.

Module Joined.
(** One row of the [pd.merge] output: the invoice row and the
    purchase-order side, NaN where no purchase order matched. *)
Record row : Type := mk {
  inv : Inv.row;
  invoice_number : Cell;
  quantity_po : float;
  rate_po : float;
  expected_amount : float
}.
End Joined.

Module Merged.
(** One row of [merged_df] once the two result columns are added. *)
Record row : Type := mk {
  joined : Joined.row;
  validation_result : string;
  validation_status : string
}.

Definition quantity_inv (r : row) : float := Inv.quantity (Joined.inv (joined r)).
Definition quantity_po (r : row) : float := Joined.quantity_po (joined r).
Definition rate_inv (r : row) : float := Inv.rate (Joined.inv (joined r)).
Definition rate_po (r : row) : float := Joined.rate_po (joined r).
Definition amount (r : row) : float := Inv.amount (Joined.inv (joined r)).
Definition expected_amount (r : row) : float := Joined.expected_amount (joined r).

Definition set_validation_result (v : string) (r : row) : row :=
  mk (joined r) v (validation_status r).
Definition set_validation_status (v : string) (r : row) : row :=
  mk (joined r) (validation_result r) v.
End Merged.

(* ================================================================== *)
(** * utils/validation.py *)
(* ================================================================== *)

(** [df[label] = df[label].astype(int)]: every cell of the column is
    converted, by the rule of the column's dtype; the first cell that
    cannot be raises and nothing is stored.  A [float64] column is here a
    column with a missing value, which is refused before any cell is
    cast. *)
Definition astype_int_column {R} (get : R -> Cell) (set : Cell -> R -> R)
    (rs : list R) : Result (list R) :=
  match dtype_of (map get rs) with
  | Float64 =>
      Raised (ValueError "Cannot convert non-finite values (NA or inf) to integer")
  | Object =>
      result_map (fun r => result_bind (int64_of_object (get r)) (fun c => Ok (set c r))) rs
  | Int64 | UInt64 =>
      result_map (fun r => result_bind (astype_int (get r)) (fun c => Ok (set c r))) rs
  end.

(** [df.rename(columns={old: new}, inplace=True)] on the labels. *)
Definition rename_columns (old new : string) (cols : list string) : list string :=
  map (fun c => if String.eqb c old then new else c) cols.

Definition has_column (label : string) (cols : list string) : bool :=
  existsb (String.eqb label) cols.

(** The join key [(invoice_number, order_id, customer_name)]. *)
Definition Key : Type := (Cell * string * string)%type.

Definition key_eqb (a b : Key) : bool :=
  let '(n1, o1, c1) := a in
  let '(n2, o2, c2) := b in
  cell_eqb n1 n2 && String.eqb o1 o2 && String.eqb c1 c2.

Definition left_key (r : Inv.row) : Key :=
  (Inv.invoice_number r, Inv.order_id r, Inv.customer_name r).

Definition right_key (p : PO.row) : Key :=
  (PO.invoice_number p, PO.order_id p, PO.customer_name p).

(** [MultiIndex.is_unique] on the key columns. *)
Fixpoint is_unique (ks : list Key) : bool :=
  match ks with
  | [] => true
  | k :: ks' => negb (existsb (key_eqb k) ks') && is_unique ks'
  end.

Definition matched (l : Inv.row) (p : PO.row) : Joined.row :=
  Joined.mk l (PO.invoice_number p) (PO.quantity p) (PO.rate p) (PO.expected_amount p).

Definition unmatched (l : Inv.row) : Joined.row :=
  Joined.mk l CNaN nan nan nan.

Definition matches (l : Inv.row) (right : list PO.row) : list PO.row :=
  filter (fun p => key_eqb (left_key l) (right_key p)) right.

(** [how='left']: the left rows in their order, each with every right row
    of the same key, or once with a missing right side. *)
Definition left_join (left : list Inv.row) (right : list PO.row) : list Joined.row :=
  flat_map (fun l =>
    match matches l right with
    | [] => [unmatched l]
    | ms => map (matched l) ms
    end) left.

(** [pd.merge(..., how='left', validate='one_to_one')]. *)
Definition pd_merge (left : list Inv.row) (right : list PO.row) : Result (list Joined.row) :=
  let left_unique := is_unique (map left_key left) in
  let right_unique := is_unique (map right_key right) in
  if negb left_unique && negb right_unique then
    Raised (MergeError "Merge keys are not unique in either left or right dataset; not a one-to-one merge")
  else if negb left_unique then
    Raised (MergeError "Merge keys are not unique in left dataset; not a one-to-one merge")
  else if negb right_unique then
    Raised (MergeError "Merge keys are not unique in right dataset; not a one-to-one merge")
  else Ok (left_join left right).

Definition _check_missing_po (row : Merged.row) : bool :=
  isna (Merged.quantity_po row) || isna (Merged.rate_po row)
  || isna (Merged.expected_amount row).

Definition _get_validation_reasons (row : Merged.row) : list string :=
  let reasons := [] in
  let reasons :=
    if float_ne (Merged.quantity_inv row) (Merged.quantity_po row)
    then reasons ++ ["Quantity Mismatch"] else reasons in
  let reasons :=
    if float_ne (Merged.rate_inv row) (Merged.rate_po row)
    then reasons ++ ["Rate Mismatch"] else reasons in
  let reasons :=
    if float_gt (Merged.amount row) (Merged.expected_amount row)
    then reasons ++ ["Overbilling"]
    else if float_lt (Merged.amount row) (Merged.expected_amount row)
    then reasons ++ ["Amount Mismatch"] else reasons in
  reasons.

(** [df.at[index, column] = value], written as an update of row [index].
    The loop below only writes at labels [iterrows] gave it; a label
    outside the frame, where [.at] would append a row, does not occur and
    leaves the list as it is. *)
Fixpoint at_set {A} (df : list A) (index : nat) (f : A -> A) : list A :=
  match df, index with
  | [], _ => []
  | r :: df', O => f r :: df'
  | r :: df', S i => r :: at_set df' i f
  end.

(** [df.iterrows()]: the index labels with the rows, read when the loop
    starts. *)
Definition iterrows {A} (df : list A) : list (nat * A) :=
  combine (seq 0 (List.length df)) df.

(** The reasons the loop body computes for one row. *)
Definition reasons_of (row : Merged.row) : list string :=
  let reasons := [] in
  if _check_missing_po row then reasons ++ ["Missing PO"]
  else _get_validation_reasons row.

(** Body of the [for index, row in merged_df.iterrows()] loop. *)
Definition validate_step (merged_df : list Merged.row) (ir : nat * Merged.row)
    : list Merged.row :=
  let '(index, row) := ir in
  let reasons := reasons_of row in
  match reasons with
  | _ :: _ =>
      let merged_df :=
        at_set merged_df index (Merged.set_validation_result (String.concat ", " reasons)) in
      at_set merged_df index (Merged.set_validation_status "INVALID")
  | [] =>
      at_set merged_df index (Merged.set_validation_result "Match")
  end.

Definition validation_loop (merged_df : list Merged.row) : list Merged.row :=
  fold_left validate_step (iterrows merged_df) merged_df.

(** [merged_df[report_columns]]. *)
Definition report_row (m : Merged.row) : Report.row :=
  let j := Merged.joined m in
  let i := Joined.inv j in
  Report.mk (Inv.file_name i) (Inv.invoice_number i) (Inv.order_id i)
    (Inv.customer_name i) (Inv.due_date i) (Inv.ship_to i) (Inv.discount i)
    (Inv.shipping_cost i) (Inv.total i) (Inv.quantity i) (Joined.quantity_po j)
    (Inv.rate i) (Joined.rate_po j) (Inv.amount i) (Joined.expected_amount j)
    (Merged.validation_result m) (Merged.validation_status m).

(** The keys of the merge, [left_on] and [right_on]. *)
Definition left_on : list string := ["invoice_number_inv"; "order_id"; "customer_name"].
Definition right_on : list string := ["invoice_number"; "order_id"; "customer_name"].

(** [pd.merge] looks its keys up pair by pair, in each pair the right
    one first; the first label that is missing is the [KeyError].  This
    comes before the one-to-one check. *)
Fixpoint merge_key_error (left right : list string) (on : list (string * string))
    : option string :=
  match on with
  | [] => None
  | (left_key, right_key) :: on' =>
      if negb (has_column right_key right) then Some right_key
      else if negb (has_column left_key left) then Some left_key
      else merge_key_error left right on'
  end.

(** The labels of the frame [pd.merge] returns: the left labels, then the
    right ones but for the keys of the same name on both sides, which
    come once; a label the two sides share otherwise gets the suffix of
    its side. *)
Definition shared_keys : list string := ["order_id"; "customer_name"].

Definition merge_columns (left right : list string) : list string :=
  map (fun l => if has_column l right && negb (has_column l shared_keys)
                then String.append l "_inv" else l) left
  ++ map (fun l => if has_column l left then String.append l "_po" else l)
         (filter (fun l => negb (has_column l shared_keys)) right).

Definition report_columns : list string :=
  ["file_name"; "invoice_number_inv"; "order_id"; "customer_name"; "due_date";
   "ship_to"; "discount"; "shipping_cost"; "total"; "quantity_inv"; "quantity_po";
   "rate_inv"; "rate_po"; "amount"; "expected_amount"; "validation_result";
   "validation_status"].

(** The label one iteration of the loop misses, if any: [row[label]]
    raises [KeyError(label)].  The labels are asked for in the order of
    [_check_missing_po], whose [or] stops at the first missing value, and
    then of [_get_validation_reasons]. *)
Definition row_key_error (labels : list string) (row : Merged.row) : option string :=
  if negb (has_column "quantity_po" labels) then Some "quantity_po"
  else if isna (Merged.quantity_po row) then None
  else if negb (has_column "rate_po" labels) then Some "rate_po"
  else if isna (Merged.rate_po row) then None
  else if negb (has_column "expected_amount" labels) then Some "expected_amount"
  else if isna (Merged.expected_amount row) then None
  else find (fun l => negb (has_column l labels)) ["quantity_inv"; "rate_inv"; "amount"].

Fixpoint loop_key_error (labels : list string) (merged_df : list Merged.row)
    : option string :=
  match merged_df with
  | [] => None
  | row :: merged_df' =>
      match row_key_error labels row with
      | Some key => Some key
      | None => loop_key_error labels merged_df'
      end
  end.

(** The text of the [KeyError] of [df[labels]] when some of the labels,
    not all, are missing. *)
Definition not_in_index (missing : list string) : string :=
  String.append "["
    (String.append
       (String.concat ", "
          (map (fun l => String.append "'" (String.append l "'")) missing))
       "] not in index").

(** What a call of [validate_invoices] leaves behind: the two argument
    frames as they are when the call ends (they are mutated in place), and
    the value returned or the exception raised. *)
Record Outcome : Type := mkOutcome {
  invoices_after : DataFrame Inv.row;
  po_after : DataFrame PO.row;
  returned : Result (list Report.row)
}.

Definition validate_invoices (invoices_df : DataFrame Inv.row)
    (po_df : DataFrame PO.row) : Outcome :=
  if negb (has_column "invoice_number" (columns invoices_df)) then
    mkOutcome invoices_df po_df (Raised (KeyError "invoice_number"))
  else
  match astype_int_column Inv.invoice_number Inv.set_invoice_number (rows invoices_df) with
  | Raised e => mkOutcome invoices_df po_df (Raised e)
  | Ok inv_rows =>
      let invoices_df := mkDataFrame (columns invoices_df) inv_rows in
      if negb (has_column "invoice_number" (columns po_df)) then
        mkOutcome invoices_df po_df (Raised (KeyError "invoice_number"))
      else
      match astype_int_column PO.invoice_number PO.set_invoice_number (rows po_df) with
      | Raised e => mkOutcome invoices_df po_df (Raised e)
      | Ok po_rows =>
          let po_df := mkDataFrame (columns po_df) po_rows in
          let invoices_df :=
            mkDataFrame
              (rename_columns "invoice_number" "invoice_number_inv" (columns invoices_df))
              (rows invoices_df) in
          match merge_key_error (columns invoices_df) (columns po_df)
                                (combine left_on right_on) with
          | Some key => mkOutcome invoices_df po_df (Raised (KeyError key))
          | None =>
          match pd_merge (rows invoices_df) (rows po_df) with
          | Raised e => mkOutcome invoices_df po_df (Raised e)
          | Ok joined =>
              let merged_columns :=
                merge_columns (columns invoices_df) (columns po_df)
                ++ ["validation_result"; "validation_status"] in
              let merged_df := map (fun j => Merged.mk j "" "VALID") joined in
              match loop_key_error merged_columns merged_df with
              | Some key => mkOutcome invoices_df po_df (Raised (KeyError key))
              | None =>
                  let merged_df := validation_loop merged_df in
                  match filter (fun l => negb (has_column l merged_columns))
                               report_columns with
                  | [] => mkOutcome invoices_df po_df (Ok (map report_row merged_df))
                  | missing =>
                      mkOutcome invoices_df po_df (Raised (KeyError (not_in_index missing)))
                  end
              end
          end
          end
      end
  end.

(* ================================================================== *)
(** * The outside world *)
(* ================================================================== *)

(** The JSON body of [requests.post(url, json=payload)]. *)
Record PaymentRequest : Type := mkPaymentRequest {
  payload_order_id : string;
  payload_customer_name : string;
  payload_amount : float;
  payload_due_date : string
}.

(** A JSON object with text values, as [response.json()] returns it. *)
Definition Json : Type := list (string * string).

(** [d.get(key, default)]. *)
Fixpoint get (d : Json) (key default : string) : string :=
  match d with
  | [] => default
  | (k, v) :: d' => if String.eqb k key then v else get d' key default
  end.

(** What [requests.post] does: it raises a [RequestException] of its own,
    or it returns a response with a status code and a body ([None] when the
    body is not JSON). *)
Inductive HttpReply : Type :=
| ConnectionError
| Response (status_code : Z) (body : option Json).

(** The prompts sent to the language model: the text of an invoice to
    extract, or the four fields of an invoice row to justify. *)
Inductive Prompt : Type :=
| ExtractionPrompt (text : string)
| JustificationPrompt (order_id customer_name : string) (amount : float)
                      (due_date : string).

(** Code that calls the outside world.  [Post] is [requests.post] in
    [trigger_payment]; [GenerateContent] is [model.generate_content] of the
    shared client, which answers [None] once its retries are used up. *)
Inductive Prog (A : Type) : Type :=
| Ret (a : A)
| Raise (e : Exn)
| Post (payload : PaymentRequest) (k : HttpReply -> Prog A)
| GenerateContent (prompt : Prompt) (k : option string -> Prog A).

Arguments Ret {A} a.
Arguments Raise {A} e.
Arguments Post {A} payload k.
Arguments GenerateContent {A} prompt k.

Fixpoint bind {A B} (p : Prog A) (f : A -> Prog B) : Prog B :=
  match p with
  | Ret a => f a
  | Raise e => Raise e
  | Post payload k => Post payload (fun reply => bind (k reply) f)
  | GenerateContent prompt k => GenerateContent prompt (fun reply => bind (k reply) f)
  end.

Notation "x <- p ;; q" := (bind p (fun x => q))
  (at level 61, p at next level, right associativity).

Definition lift {A} (r : Result A) : Prog A :=
  match r with
  | Ok a => Ret a
  | Raised e => Raise e
  end.

(** A [for] loop that threads the loop state [s] through the body. *)
Fixpoint for_each {A S} (xs : list A) (s : S) (body : S -> A -> Prog S) : Prog S :=
  match xs with
  | [] => Ret s
  | x :: xs' => s' <- body s x ;; for_each xs' s' body
  end.

(** One call observed during a run, with the answer it got. *)
Inductive Event : Type :=
| EvPost (payload : PaymentRequest) (reply : HttpReply)
| EvGenerateContent (prompt : Prompt) (reply : option string).

(** The outside world: how each call is answered from a state [W] that the
    call may change. *)
Record Handler (W : Type) : Type := mkHandler {
  on_post : PaymentRequest -> W -> HttpReply * W;
  on_generate_content : Prompt -> W -> option string * W
}.

(** Run a program against the world: its result, the final state of the
    world and the calls made, in order. *)
Fixpoint run {W A} (h : Handler W) (p : Prog A) (w : W) : Result A * W * list Event :=
  match p with
  | Ret a => (Ok a, w, [])
  | Raise e => (Raised e, w, [])
  | Post payload k =>
      let '(reply, w1) := on_post h payload w in
      let '(r, w2, calls) := run h (k reply) w1 in
      (r, w2, EvPost payload reply :: calls)
  | GenerateContent prompt k =>
      let '(reply, w1) := on_generate_content h prompt w in
      let '(r, w2, calls) := run h (k reply) w1 in
      (r, w2, EvGenerateContent prompt reply :: calls)
  end.

(* ================================================================== *)
(** * Dates *)
(* ================================================================== *)

Record Date : Type := mkDate {
  year : nat;
  month : nat;
  day : nat
}.

(** A cell of a datetime column: a date (the time of day plays no role
    here) or [NaT]. *)
Inductive Datetime : Type :=
| Timestamp (d : Date)
| NaT.

Definition digit (n : nat) : ascii := ascii_of_nat (48 + n mod 10).

Definition zfill2 (n : nat) : string :=
  String (digit (n / 10)) (String (digit n) EmptyString).

Definition zfill4 (n : nat) : string :=
  String (digit (n / 1000)) (String (digit (n / 100)) (zfill2 n)).

(** [strftime('%Y-%m-%d')]; pandas timestamps have four-digit years. *)
Definition strftime (d : Date) : string :=
  String.append (zfill4 (year d))
    (String "-" (String.append (zfill2 (month d)) (String "-" (zfill2 (day d))))).

(** [.dt.strftime('%Y-%m-%d')] on one cell: [NaT] gives a missing value. *)
Definition dt_strftime (d : Datetime) : option string :=
  match d with
  | Timestamp d => Some (strftime d)
  | NaT => None
  end.

(** Comparison of a formatted cell with a text: a missing value compares
    false. *)
Definition str_lt (cell : option string) (s : string) : bool :=
  match cell with
  | Some c => String.ltb c s
  | None => false
  end.

Definition str_eq (cell : option string) (s : string) : bool :=
  match cell with
  | Some c => String.eqb c s
  | None => false
  end.

(** A reading of [pd.Timestamp.now()]: its date and its [isoformat()]. *)
Record Now : Type := mkNow {
  now_date : Date;
  now_isoformat : string
}.

(** [df[mask]]. *)
Fixpoint select {A} (df : list A) (mask : list bool) : list A :=
  match df, mask with
  | r :: df', b :: mask' => if b then r :: select df' mask' else select df' mask'
  | _, _ => []
  end.

(** Element-wise [&] of two boolean columns. *)
Fixpoint mask_and (a b : list bool) : list bool :=
  match a, b with
  | x :: a', y :: b' => (x && y) :: mask_and a' b'
  | _, _ => []
  end.

Definition empty {A} (df : list A) : bool :=
  match df with
  | [] => true
  | _ :: _ => false
  end.

(* ================================================================== *)
(** * utils/payment_engine.py, genAI/justification.py *)
(* ================================================================== *)

Module Log.
(** One row of [output/payment_log.csv]. *)
Record entry : Type := mk {
  order_id : string;
  customer_name : string;
  due_date : string;
  amount : float;
  transaction_id : string;
  status : string;
  timestamp : string;
  message : string;
  justification : string;
  payment_mode : string
}.
End Log.

(** [response.raise_for_status()] raises for 4xx and 5xx. *)
Definition is_error_status (status_code : Z) : bool :=
  ((400 <=? status_code) && (status_code <? 600))%Z.

Definition trigger_payment (order_id customer_name : string) (amount : float)
    (due_date : string) : Prog Json :=
  let payload := mkPaymentRequest order_id customer_name amount due_date in
  Post payload (fun reply =>
    match reply with
    | ConnectionError => Raise (RuntimeError "Payment initiation failed")
    | Response status_code body =>
        if is_error_status status_code
        then Raise (RuntimeError "Payment initiation failed")
        else match body with
             | Some json => Ret json
             | None => Raise (RuntimeError "Payment initiation failed")
             end
    end).

Definition generate_payment_justification (order_id customer_name : string)
    (amount : float) (due_date : string) : Prog string :=
  GenerateContent (JustificationPrompt order_id customer_name amount due_date)
    (fun response =>
       match response with
       | None =>
           Raise (RuntimeError
             "Failed to generate payment justification after multiple attempts.")
       | Some justification => Ret (strip justification)
       end).

(* ================================================================== *)
(** * utils/invoice_helpers.py and the processing pass of main.py *)
(* ================================================================== *)

Section Tracker.

(** [pd.to_datetime(text, format='%b %d %Y')] on one cell: a date, [NaT]
    for a missing cell, or a [ValueError] for a text that is not in the
    format.  It is pandas' own; nothing here depends on which texts it
    accepts. *)
Variable to_datetime : string -> Result Datetime.

(** [pd.to_datetime(df['due_date'], format=DATE_FORMAT).dt.strftime('%Y-%m-%d')]:
    the whole column is parsed, one bad cell raises. *)
Definition due_dates (df : list Report.row) : Result (list (option string)) :=
  result_map (fun r =>
    result_bind (to_datetime (Report.due_date r)) (fun d => Ok (dt_strftime d))) df.

Definition create_payment_log_entry (now : Now) (row : Report.row)
    (transaction_type : string) : Prog Log.entry :=
  if String.eqb transaction_type "previous" then
    Ret (Log.mk (Report.order_id row) (Report.customer_name row)
                (Report.due_date row) (Report.total row)
                "PREVIOUSLY_PAID" "SUCCESS" (now_isoformat now)
                "Auto-paid earlier" "Previously paid for past due invoice"
                "PreviouslyPaid")
  else
    payment_response <-
      trigger_payment (Report.order_id row) (Report.customer_name row)
                      (Report.total row) (Report.due_date row) ;;
    justification <-
      generate_payment_justification (Report.order_id row)
        (Report.customer_name row) (Report.total row) (Report.due_date row) ;;
    Ret (Log.mk (Report.order_id row) (Report.customer_name row)
                (Report.due_date row) (Report.total row)
                (get payment_response "transaction_id" "")
                (get payment_response "status" "")
                (get payment_response "timestamp" "")
                (get payment_response "message" "")
                justification "Auto").

(** [not existing_log_df[(order_id == ...) & (customer_name == ...)].empty] *)
Definition already_paid (existing_log_df : list Log.entry) (row : Report.row) : bool :=
  negb (empty (filter (fun e =>
    String.eqb (Log.order_id e) (Report.order_id row)
    && String.eqb (Log.customer_name e) (Report.customer_name row))
    existing_log_df)).

Definition process_past_due_invoices (now : Now)
    (validation_report_df : list Report.row) (existing_log_df : list Log.entry)
    : Prog (list Log.entry) :=
  let payment_log_entries := [] in
  dates <- lift (due_dates validation_report_df) ;;
  let today := strftime (now_date now) in
  let past_due_invoices :=
    select validation_report_df
      (mask_and (map (fun d => str_lt d today) dates)
                (map (fun r => String.eqb (Report.validation_status r) "VALID")
                     validation_report_df)) in
  for_each past_due_invoices payment_log_entries (fun payment_log_entries row =>
    if negb (already_paid existing_log_df row) then
      entry <- create_payment_log_entry now row "previous" ;;
      Ret (payment_log_entries ++ [entry])
    else Ret payment_log_entries).

Definition process_todays_invoices (now : Now)
    (validation_report_df : list Report.row) (existing_log_df : list Log.entry)
    : Prog (list Log.entry) :=
  let payment_log_entries := [] in
  dates <- lift (due_dates validation_report_df) ;;
  let today := strftime (now_date now) in
  let today_invoices :=
    select validation_report_df (map (fun d => str_eq d today) dates) in
  for_each today_invoices payment_log_entries (fun payment_log_entries row =>
    if String.eqb (Report.validation_status row) "VALID" then
      if negb (already_paid existing_log_df row) then
        entry <- create_payment_log_entry now row "auto" ;;
        Ret (payment_log_entries ++ [entry])
      else Ret payment_log_entries
    else Ret payment_log_entries).

(** [load_existing_payment_log].  [payment_log_csv] is the frame
    [pd.read_csv] makes of [output/payment_log.csv], [None] when the file
    does not exist; the result is that frame, or an empty one.  It is the
    frame as read, not the frame a pass wrote: [read_csv] types each
    column anew from its text. *)
Definition load_existing_payment_log (payment_log_csv : option (list Log.entry))
    : list Log.entry :=
  match payment_log_csv with
  | Some entries => entries
  | None => []
  end.

(** The entries a pass emits: the two calls of
    [process_payments_and_past_due] and their concatenation.  Each call
    reads [pd.Timestamp.now()] for itself: [now_past] is the reading of
    [process_past_due_invoices], [now_today] the later one of
    [process_todays_invoices]. *)
Definition tracker_entries_at (now_past now_today : Now)
    (validation_report_df : list Report.row)
    (existing_log_df : list Log.entry) : Prog (list Log.entry) :=
  past_due_entries <-
    process_past_due_invoices now_past validation_report_df existing_log_df ;;
  todays_entries <-
    process_todays_invoices now_today validation_report_df existing_log_df ;;
  Ret (past_due_entries ++ todays_entries).

(** The entries of a pass during which the clock reads [now] at both
    calls. *)
Definition tracker_entries (now : Now) (validation_report_df : list Report.row)
    (existing_log_df : list Log.entry) : Prog (list Log.entry) :=
  tracker_entries_at now now validation_report_df existing_log_df.

(** [pd.concat([a, b], ignore_index=True)]. *)
Definition concat (a b : list Log.entry) : list Log.entry := a ++ b.

(** [process_payments_and_past_due], with the two readings of the clock:
    the value returned is the frame handed to [to_csv], which writes it to
    [output/payment_log.csv]; when the program raises, nothing is
    written. *)
Definition process_payments_and_past_due_at (now_past now_today : Now)
    (validation_report_df : list Report.row)
    (payment_log_csv : option (list Log.entry)) : Prog (list Log.entry) :=
  let existing_log_df := load_existing_payment_log payment_log_csv in
  all_entries <-
    tracker_entries_at now_past now_today validation_report_df existing_log_df ;;
  let existing_log_df :=
    match all_entries with
    | _ :: _ =>
        let payment_log_df := all_entries in
        if empty existing_log_df then payment_log_df
        else concat existing_log_df payment_log_df
    | [] => existing_log_df
    end in
  Ret existing_log_df.

(** [process_payments_and_past_due] when the clock reads [now] at both
    calls. *)
Definition process_payments_and_past_due (now : Now)
    (validation_report_df : list Report.row)
    (payment_log_csv : option (list Log.entry)) : Prog (list Log.entry) :=
  process_payments_and_past_due_at now now validation_report_df payment_log_csv.

(** One pass against the world: the payment log afterwards (the frame
    written, or the file as it was when the pass raised), the exception
    if the pass raised, the world and the calls made. *)
Definition run_pass {W} (h : Handler W) (now : Now)
    (validation_report_df : list Report.row)
    (payment_log_csv : option (list Log.entry)) (w : W)
    : option (list Log.entry) * option Exn * W * list Event :=
  match run h (process_payments_and_past_due now validation_report_df payment_log_csv) w with
  | (Ok written, w', calls) => (Some written, None, w', calls)
  | (Raised e, w', calls) => (payment_log_csv, Some e, w', calls)
  end.

End Tracker.

(* ================================================================== *)
(** * utils/gemini_client.py *)
(* ================================================================== *)

Record GeminiMultiKeyClient : Type := mkClient {
  api_keys : list string;
  current_key_index : nat
}.

Definition rotate_key (self : GeminiMultiKeyClient) : GeminiMultiKeyClient :=
  mkClient (api_keys self) ((current_key_index self + 1) mod List.length (api_keys self)).

Section Client.

(** The vendor SDK: [S] is the state of the remote service,
    [sdk_generate_content key prompt] is one call of
    [models[i].generate_content(prompt)] under API key [key]; it answers
    [None] when the SDK raises. *)
Variable S : Type.
Variable sdk_generate_content : string -> Prompt -> S -> option string * S.

(** [GeminiMultiKeyClient.generate_content]: up to [max_retries] calls,
    rotating the key after each failure; [None] when all of them fail. *)
Fixpoint generate_content (max_retries : nat) (self : GeminiMultiKeyClient)
    (prompt : Prompt) (s : S) : option string * GeminiMultiKeyClient * S :=
  match max_retries with
  | O => (None, self, s)
  | Datatypes.S n =>
      let key := nth (current_key_index self) (api_keys self) "" in
      match sdk_generate_content key prompt s with
      | (Some text, s1) => (Some text, self, s1)
      | (None, s1) => generate_content n (rotate_key self) prompt s1
      end
  end.

(** The world as the programs see it when the shared client (three
    retries, the default) answers [model.generate_content] and [post]
    answers the payment endpoint. *)
Definition shared_model_handler {P} (post : PaymentRequest -> P -> HttpReply * P)
    : Handler (GeminiMultiKeyClient * S * P) :=
  mkHandler
    (fun payload '(self, s, p) =>
       let '(reply, p') := post payload p in (reply, (self, s, p')))
    (fun prompt '(self, s, p) =>
       let '(reply, self', s') := generate_content 3 self prompt s in
       (reply, (self', s', p))).

End Client.

(* ================================================================== *)
(** * genAI/parser.py and analyze_invoices of main.py *)
(* ================================================================== *)

(** [s.replace(old, new)] for a non-empty [old]; [skip] counts the
    characters of a match still to be dropped. *)
Fixpoint replace_from (old new : string) (skip : nat) (s : string) : string :=
  match s with
  | EmptyString => EmptyString
  | String c s' =>
      match skip with
      | Datatypes.S n => replace_from old new n s'
      | O =>
          if String.prefix old s
          then String.append new (replace_from old new (String.length old - 1) s')
          else String c (replace_from old new 0 s')
      end
  end.

Definition replace (old new s : string) : string := replace_from old new 0 s.

Definition startswith (s pre : string) : bool := String.prefix pre s.

Definition endswith (s suffix : string) : bool :=
  (String.length suffix <=? String.length s)%nat
  && String.eqb
       (String.substring (String.length s - String.length suffix)
                         (String.length suffix) s)
       suffix.

Module Parsed.
(** One element of [item_details]; a key may be absent. *)
Record item : Type := mkItem {
  item_name : option string;
  quantity : option float;
  rate : option float;
  amount : option float
}.

(** The object the model is asked to return for one invoice. *)
Record invoice : Type := mk {
  invoice_number : Cell;
  order_id : string;
  customer_name : string;
  due_date : string;
  ship_to : string;
  ship_mode : string;
  subtotal : float;
  discount : float;
  shipping_cost : float;
  total : float;
  item_details : option (list item)
}.
End Parsed.

Definition get_default {A} (v : option A) (default : A) : A :=
  match v with
  | Some a => a
  | None => default
  end.

(** What [json.loads] gives for a text it accepts: an object, read here
    as an invoice; [null], which is Python's [None]; or a value of
    another type. *)
Inductive JsonValue : Type :=
| JObject (invoice_data : Parsed.invoice)
| JNull
| JArray
| JString
| JInt
| JFloat
| JBool.

(** The text of the [TypeError] of [value['file_name'] = ...] on a value
    that is not an object. *)
Definition item_assignment_error (value : JsonValue) : string :=
  match value with
  | JArray => "list indices must be integers or slices, not str"
  | JString => "'str' object does not support item assignment"
  | JInt => "'int' object does not support item assignment"
  | JFloat => "'float' object does not support item assignment"
  | JBool => "'bool' object does not support item assignment"
  | JObject _ | JNull => ""
  end.

Section Extraction.

(** [json.loads]; [None] stands for [json.JSONDecodeError]. *)
Variable json_loads : string -> option JsonValue.

(** [parse_invoice_with_genai] returns what [json.loads] gave, whatever
    its type, and [None], here [JNull], when the client is exhausted. *)
Definition parse_invoice_with_genai (text : string) : Prog JsonValue :=
  GenerateContent (ExtractionPrompt text) (fun response =>
    match response with
    | None => Ret JNull
    | Some response_text =>
        let json_output := strip response_text in
        let json_output :=
          if startswith json_output "```json" then
            strip (replace "```" "" (replace "```json" "" json_output))
          else if startswith json_output "```" then
            strip (replace "```" "" json_output)
          else json_output in
        match json_loads json_output with
        | Some invoice_data => Ret invoice_data
        | None => Raise (ValueError "Failed to parse JSON response from Gemini API")
        end
    end).

(** The rows of one invoice: one per element of [item_details]. *)
Definition flatten (pdf_file : string) (parsed_invoice : Parsed.invoice) : list Inv.row :=
  map (fun item =>
    Inv.mk pdf_file
      (Parsed.invoice_number parsed_invoice) (Parsed.order_id parsed_invoice)
      (Parsed.customer_name parsed_invoice) (Parsed.due_date parsed_invoice)
      (Parsed.ship_to parsed_invoice) (Parsed.ship_mode parsed_invoice)
      (Parsed.subtotal parsed_invoice) (Parsed.discount parsed_invoice)
      (Parsed.shipping_cost parsed_invoice) (Parsed.total parsed_invoice)
      (get_default (Parsed.item_name item) "")
      (get_default (Parsed.quantity item) 0%float)
      (get_default (Parsed.rate item) 0%float)
      (get_default (Parsed.amount item) 0%float))
    (get_default (Parsed.item_details parsed_invoice) []).

(** The loop of [analyze_invoices].  [files] is [os.listdir(pdf_folder)]
    with, for each name, the text [extract_raw_text] reads from it;
    [parsed_invoices] is the list built so far.  The loop breaks on
    [None], whether it stands for an exhausted client or for the answer
    [null]; on a value that is not an object,
    [parsed_invoice['file_name'] = pdf_file] raises. *)
Fixpoint analyze_loop (files : list (string * string)) (parsed_invoices : list Inv.row)
    : Prog (list Inv.row) :=
  match files with
  | [] => Ret parsed_invoices
  | (pdf_file, raw_text) :: files' =>
      if endswith pdf_file ".pdf" then
        parsed_invoice <- parse_invoice_with_genai raw_text ;;
        match parsed_invoice with
        | JNull => Ret parsed_invoices
        | JObject parsed_invoice =>
            analyze_loop files' (parsed_invoices ++ flatten pdf_file parsed_invoice)
        | other => Raise (TypeError (item_assignment_error other))
        end
      else analyze_loop files' parsed_invoices
  end.

(** [analyze_invoices]: the value returned is the rows written to
    [output/invoices.csv]. *)
Definition analyze_invoices (pdf_folder : list (string * string)) : Prog (list Inv.row) :=
  let parsed_invoices := [] in
  analyze_loop pdf_folder parsed_invoices.

End Extraction.

(* ================================================================== *)
(** * calculate_invoice_metrics of utils/invoice_helpers.py *)
(* ================================================================== *)

(** [len(df)]. *)
Definition len {A} (df : list A) : Z := Z.of_nat (List.length df).

Section Metrics.

Variable to_datetime : string -> Result Datetime.

(** [pd.to_datetime(existing_payment_log_df['due_date'], format=DATE_FORMAT)
    .dt.strftime('%Y-%m-%d')]: the whole column is parsed, one bad cell
    raises. *)
Definition log_due_dates (df : list Log.entry) : Result (list (option string)) :=
  result_map (fun e =>
    result_bind (to_datetime (Log.due_date e)) (fun d => Ok (dt_strftime d))) df.

(** [calculate_invoice_metrics]: the five numbers, in the order the code
    returns them.  The clock is read once, between the counts of the
    report and the two date filters; the log's dates are parsed before the
    report's. *)
Definition calculate_invoice_metrics (now : Now)
    (validation_report_df : list Report.row) (existing_payment_log_df : list Log.entry)
    : Result (Z * Z * Z * Z * Z) :=
  let total_invoices := len validation_report_df in
  let valid_invoices :=
    len (select validation_report_df
           (map (fun r => String.eqb (Report.validation_status r) "VALID")
                validation_report_df)) in
  let flagged_invoices := (total_invoices - valid_invoices)%Z in
  let today_date := strftime (now_date now) in
  result_bind (log_due_dates existing_payment_log_df) (fun log_dates =>
  let paid_today_invoices :=
    len (select existing_payment_log_df
           (mask_and (map (fun d => str_eq d today_date) log_dates)
                     (map (fun e => String.eqb (Log.status e) "SUCCESS")
                          existing_payment_log_df))) in
  result_bind (due_dates to_datetime validation_report_df) (fun dates =>
  let over_due_unpaid_invoices :=
    len (select validation_report_df
           (mask_and (map (fun d => str_lt d today_date) dates)
                     (map (fun r => String.eqb (Report.validation_status r) "INVALID")
                          validation_report_df))) in
  Ok (total_invoices, valid_invoices, flagged_invoices, paid_today_invoices,
      over_due_unpaid_invoices))).

End Metrics.

(* ================================================================== *)
(** * build_field_comparison of utils/invoice_helpers.py *)
(* ================================================================== *)

(** [s.split(sep)] for a separator of one character. *)
Fixpoint split (sep : ascii) (s : string) : list string :=
  match s with
  | EmptyString => [EmptyString]
  | String c s' =>
      if Ascii.eqb c sep then EmptyString :: split sep s'
      else match split sep s' with
           | t :: ts => String c t :: ts
           | [] => [String c EmptyString]
           end
  end.

(** [int(x)] on a float: the value truncated toward zero; [None] when
    [int] raises ([ValueError] on NaN, [OverflowError] on an infinity). *)
Definition int_of_float (x : float) : option Z :=
  match Prim2SF x with
  | S754_zero _ => Some 0%Z
  | S754_infinity _ => None
  | S754_nan => None
  | S754_finite s m e =>
      let magnitude := Z.shiftl (Zpos m) e in
      Some (if s then Z.opp magnitude else magnitude)
  end.

(** [str(n)] on an integer. *)
Definition str_of_int (n : Z) : string := NilZero.string_of_int (Z.to_int n).

Definition FIELD_QUANTITY_MISMATCH : string := "Quantity Mismatch".
Definition FIELD_RATE_MISMATCH : string := "Rate Mismatch".
Definition FIELD_AMOUNT_MISMATCH : string := "Amount Mismatch".
Definition FIELD_TOTAL_MISMATCH : string := "Total Mismatch".
Definition FIELD_OVERBILLING : string := "Overbilling".

Module Comparison.
(** One line of the comparison table of an escalation email. *)
Record line : Type := mk {
  field : string;
  invoice_value : string;
  po_value : string
}.
End Comparison.

Section Escalation.

(** [f"{x}"] on a float cell, Python's [repr] of the number; nothing here
    depends on the digits it prints. *)
Variable format_float : float -> string.

(** One iteration of the loop of [build_field_comparison]; [None] when a
    conversion raises. *)
Definition field_comparison_step (row : Report.row)
    (field_comparison : list Comparison.line) (field : string)
    : option (list Comparison.line) :=
  let field := strip field in
  if String.eqb field FIELD_QUANTITY_MISMATCH then
    match int_of_float (Report.quantity_inv row) with
    | None => None
    | Some quantity_inv =>
        match int_of_float (Report.quantity_po row) with
        | None => None
        | Some quantity_po =>
            Some (field_comparison
                  ++ [Comparison.mk "Quantity" (str_of_int quantity_inv)
                                    (str_of_int quantity_po)])
        end
    end
  else if String.eqb field FIELD_RATE_MISMATCH then
    Some (field_comparison
          ++ [Comparison.mk "Rate"
                (String.append "$" (format_float (Report.rate_inv row)))
                (String.append "$" (format_float (Report.rate_po row)))])
  else if existsb (String.eqb field)
            [FIELD_AMOUNT_MISMATCH; FIELD_TOTAL_MISMATCH; FIELD_OVERBILLING] then
    Some (field_comparison
          ++ [Comparison.mk "Total Amount"
                (String.append "$" (format_float (Report.amount row)))
                (String.append "$" (format_float (Report.expected_amount row)))])
  else Some field_comparison.

Definition build_field_comparison (row : Report.row) : option (list Comparison.line) :=
  let field_comparison := [] in
  let mismatched_fields := split "," (Report.validation_result row) in
  fold_left (fun field_comparison field =>
               match field_comparison with
               | Some field_comparison => field_comparison_step row field_comparison field
               | None => None
               end)
            mismatched_fields (Some field_comparison).

End Escalation.

(* ================================================================== *)
(** * The region of an invoice, render_tab3 of main.py *)
(* ================================================================== *)

(** [c in s] for one character. *)
Fixpoint contains_char (c : ascii) (s : string) : bool :=
  match s with
  | EmptyString => false
  | String d s' => Ascii.eqb d c || contains_char c s'
  end.

(** One cell of [df['ship_to'].astype(str).str.strip().apply(lambda x:
    x.split(',')[-1].strip() if ',' in x and x else 'Unknown')]. *)
Definition region_of (ship_to : string) : string :=
  let x := strip ship_to in
  if contains_char "," x && negb (String.eqb x "")
  then strip (last (split "," x) "")
  else "Unknown".

(* ================================================================== *)
(** * The API keys, utils/gemini_client.py *)
(* ================================================================== *)

Section Environment.

(** [os.getenv]. *)
Variable getenv : string -> option string.

(** The [while True] loop of [load_api_keys_from_env]: it ends at the
    first numbered variable that is unset or empty.  [fuel] bounds the
    number of iterations; [None] when it runs out. *)
Fixpoint load_numbered_keys (fuel : nat) (i : Z) (keys : list string)
    : option (list string) :=
  match fuel with
  | O => None
  | Datatypes.S fuel' =>
      match getenv (String.append "GEMINI_API_KEY_" (str_of_int i)) with
      | Some key =>
          if negb (String.eqb key "")
          then load_numbered_keys fuel' (i + 1)%Z (keys ++ [key])
          else Some keys
      | None => Some keys
      end
  end.

Definition load_api_keys_from_env (fuel : nat) : option (list string) :=
  match load_numbered_keys fuel 1%Z [] with
  | None => None
  | Some keys =>
      if empty keys then
        match getenv "GEMINI_API_KEY" with
        | Some single_key =>
            if negb (String.eqb single_key "") then Some (keys ++ [single_key])
            else Some keys
        | None => Some keys
        end
      else Some keys
  end.

(** [get_model]: [_shared_model] is the module-level variable, passed in
    and handed back; a client is created with its index at 0. *)
Definition get_model (fuel : nat) (_shared_model : option GeminiMultiKeyClient)
    : option (Result GeminiMultiKeyClient * option GeminiMultiKeyClient) :=
  match _shared_model with
  | Some client => Some (Ok client, _shared_model)
  | None =>
      match load_api_keys_from_env fuel with
      | None => None
      | Some api_keys =>
          if empty api_keys then
            Some (Raised (ValueError "No Gemini API keys found. Please set GEMINI_API_KEY or GEMINI_API_KEY_1, GEMINI_API_KEY_2, etc."),
                  None)
          else
            let client := mkClient api_keys 0 in
            Some (Ok client, Some client)
      end
  end.

End Environment.

(* ================================================================== *)
(** * The classifier as the specification words it *)
(* ================================================================== *)

(** Section 4.2 of the specification, step by step: the reasons of a joined
    row, in order. *)
Definition spec_reasons (row : Joined.row) : list string :=
  let quantity_inv := Inv.quantity (Joined.inv row) in
  let rate_inv := Inv.rate (Joined.inv row) in
  let amount := Inv.amount (Joined.inv row) in
  if isna (Joined.quantity_po row) || isna (Joined.rate_po row)
     || isna (Joined.expected_amount row)
  then ["Missing PO"]
  else
    (if float_ne quantity_inv (Joined.quantity_po row) then ["Quantity Mismatch"] else [])
    ++ (if float_ne rate_inv (Joined.rate_po row) then ["Rate Mismatch"] else [])
    ++ (if float_gt amount (Joined.expected_amount row) then ["Overbilling"]
        else if float_lt amount (Joined.expected_amount row) then ["Amount Mismatch"]
        else []).

(** Step 3 of the same section: the result text and the status. *)
Definition spec_validation_result (reasons : list string) : string :=
  match reasons with
  | [] => "Match"
  | _ :: _ => String.concat ", " reasons
  end.

Definition spec_validation_status (reasons : list string) : string :=
  match reasons with
  | [] => "VALID"
  | _ :: _ => "INVALID"
  end.

Definition spec_classify (row : Joined.row) : Merged.row :=
  Merged.mk row (spec_validation_result (spec_reasons row))
            (spec_validation_status (spec_reasons row)).

(* ================================================================== *)
(** * Vocabulary of the statements *)
(* ================================================================== *)

Unset Implicit Arguments.

(** The row the join gives for one left row when right keys are unique. *)
Definition joined_row (right : list PO.row) (l : Inv.row) : Joined.row :=
  match matches l right with
  | [] => unmatched l
  | p :: _ => matched l p
  end.

(** What one iteration writes into the row at its index. *)
Definition validate_update (row live : Merged.row) : Merged.row :=
  match reasons_of row with
  | _ :: _ =>
      Merged.set_validation_status "INVALID"
        (Merged.set_validation_result (String.concat ", " (reasons_of row)) live)
  | [] => Merged.set_validation_result "Match" live
  end.

(** The row [astype(int)] stores for an invoice row, and for a
    purchase-order row. *)
Definition coerced_inv (r r' : Inv.row) : Prop :=
  exists z, astype_int (Inv.invoice_number r) = Ok (CInt z)
            /\ r' = Inv.set_invoice_number (CInt z) r.

Definition coerced_po (p p' : PO.row) : Prop :=
  exists z, astype_int (PO.invoice_number p) = Ok (CInt z)
            /\ p' = PO.set_invoice_number (CInt z) p.

(** What [validate_invoices] returns once both columns are converted and
    the invoice label is renamed: the merge, the loop and the selection
    of the report columns. *)
Definition report_after_merge (left_labels right_labels : list string)
    (inv_rows : list Inv.row) (po_rows : list PO.row) : Result (list Report.row) :=
  match merge_key_error left_labels right_labels (combine left_on right_on) with
  | Some key => Raised (KeyError key)
  | None =>
      match pd_merge inv_rows po_rows with
      | Raised e => Raised e
      | Ok joined =>
          let merged_columns :=
            merge_columns left_labels right_labels
            ++ ["validation_result"; "validation_status"] in
          let merged_df := map (fun j => Merged.mk j "" "VALID") joined in
          match loop_key_error merged_columns merged_df with
          | Some key => Raised (KeyError key)
          | None =>
              match filter (fun l => negb (has_column l merged_columns)) report_columns with
              | [] => Ok (map report_row (validation_loop merged_df))
              | missing => Raised (KeyError (not_in_index missing))
              end
          end
      end
  end.

(** Both frames have the two key labels the merge asks for besides the
    invoice number. *)
Definition has_key_labels (invoices_df : DataFrame Inv.row) (po_df : DataFrame PO.row)
    : Prop :=
  has_column "order_id" (columns invoices_df) = true
  /\ has_column "customer_name" (columns invoices_df) = true
  /\ has_column "order_id" (columns po_df) = true
  /\ has_column "customer_name" (columns po_df) = true.

(** The merge of the two frames has every label of the report. *)
Definition has_report_labels (invoices_df : DataFrame Inv.row) (po_df : DataFrame PO.row)
    : Prop :=
  forallb (fun l =>
             has_column l
               (merge_columns
                  (rename_columns "invoice_number" "invoice_number_inv"
                                  (columns invoices_df))
                  (columns po_df)
                ++ ["validation_result"; "validation_status"]))
          report_columns
  = true.

(** The call gets as far as the merge: both frames have the column and
    every cell of both columns converts. *)
Definition reaches_merge (invoices_df : DataFrame Inv.row) (po_df : DataFrame PO.row)
    (inv_rows : list Inv.row) (po_rows : list PO.row) : Prop :=
  has_column "invoice_number" (columns invoices_df) = true
  /\ astype_int_column Inv.invoice_number Inv.set_invoice_number (rows invoices_df)
     = Ok inv_rows
  /\ has_column "invoice_number" (columns po_df) = true
  /\ astype_int_column PO.invoice_number PO.set_invoice_number (rows po_df)
     = Ok po_rows.

(** The report row [r] carries the invoice line item [i]: every
    invoice-side column of the report is the cell of [i], the invoice
    number after its conversion. *)
Definition carries_invoice (i : Inv.row) (r : Report.row) : Prop :=
  Report.file_name r = Inv.file_name i
  /\ astype_int (Inv.invoice_number i) = Ok (Report.invoice_number_inv r)
  /\ Report.order_id r = Inv.order_id i
  /\ Report.customer_name r = Inv.customer_name i
  /\ Report.due_date r = Inv.due_date i
  /\ Report.ship_to r = Inv.ship_to i
  /\ Report.discount r = Inv.discount i
  /\ Report.shipping_cost r = Inv.shipping_cost i
  /\ Report.total r = Inv.total i
  /\ Report.quantity_inv r = Inv.quantity i
  /\ Report.rate_inv r = Inv.rate i
  /\ Report.amount r = Inv.amount i.

(** The purchase order [p] has the join key of the invoice line item [i]. *)
Definition same_key (i : Inv.row) (p : PO.row) : Prop :=
  astype_int (PO.invoice_number p) = astype_int (Inv.invoice_number i)
  /\ PO.order_id p = Inv.order_id i
  /\ PO.customer_name p = Inv.customer_name i.

Definition po_side_missing (r : Report.row) : Prop :=
  isna (Report.quantity_po r) = true
  /\ isna (Report.rate_po r) = true
  /\ isna (Report.expected_amount r) = true.

Definition po_side_of (p : PO.row) (r : Report.row) : Prop :=
  Report.quantity_po r = PO.quantity p
  /\ Report.rate_po r = PO.rate p
  /\ Report.expected_amount r = PO.expected_amount p.

(** Two rows at different positions share the join key. *)
Definition has_duplicate_invoice_key (rs : list Inv.row) : Prop :=
  exists i j a b,
    i <> j /\ nth_error rs i = Some a /\ nth_error rs j = Some b
    /\ Inv.invoice_number a = Inv.invoice_number b
    /\ Inv.order_id a = Inv.order_id b
    /\ Inv.customer_name a = Inv.customer_name b.

Definition has_duplicate_po_key (ps : list PO.row) : Prop :=
  exists i j a b,
    i <> j /\ nth_error ps i = Some a /\ nth_error ps j = Some b
    /\ PO.invoice_number a = PO.invoice_number b
    /\ PO.order_id a = PO.order_id b
    /\ PO.customer_name a = PO.customer_name b.

(** [r'] is [r] with only its invoice number changed, to the integer
    [astype(int)] gives. *)
Definition inv_coerced_only (r r' : Inv.row) : Prop :=
  (exists z, astype_int (Inv.invoice_number r) = Ok (CInt z)
             /\ Inv.invoice_number r' = CInt z)
  /\ Inv.file_name r' = Inv.file_name r
  /\ Inv.order_id r' = Inv.order_id r
  /\ Inv.customer_name r' = Inv.customer_name r
  /\ Inv.due_date r' = Inv.due_date r
  /\ Inv.ship_to r' = Inv.ship_to r
  /\ Inv.ship_mode r' = Inv.ship_mode r
  /\ Inv.subtotal r' = Inv.subtotal r
  /\ Inv.discount r' = Inv.discount r
  /\ Inv.shipping_cost r' = Inv.shipping_cost r
  /\ Inv.total r' = Inv.total r
  /\ Inv.item_name r' = Inv.item_name r
  /\ Inv.quantity r' = Inv.quantity r
  /\ Inv.rate r' = Inv.rate r
  /\ Inv.amount r' = Inv.amount r.

Definition po_coerced_only (p p' : PO.row) : Prop :=
  (exists z, astype_int (PO.invoice_number p) = Ok (CInt z)
             /\ PO.invoice_number p' = CInt z)
  /\ PO.order_id p' = PO.order_id p
  /\ PO.customer_name p' = PO.customer_name p
  /\ PO.quantity p' = PO.quantity p
  /\ PO.rate p' = PO.rate p
  /\ PO.expected_amount p' = PO.expected_amount p.

Definition row_identity (r : Report.row) : string * string :=
  (Report.order_id r, Report.customer_name r).

Definition entry_identity (e : Log.entry) : string * string :=
  (Log.order_id e, Log.customer_name e).

Definition is_valid (r : Report.row) : bool :=
  String.eqb (Report.validation_status r) "VALID".

(** The formatted due date of a row once the whole column has parsed. *)
Definition due_date_cell (to_datetime : string -> Result Datetime) (r : Report.row)
    : option string :=
  match to_datetime (Report.due_date r) with
  | Ok d => dt_strftime d
  | Raised _ => None
  end.

Definition past_due (to_datetime : string -> Result Datetime) (now : Now)
    (r : Report.row) : bool :=
  str_lt (due_date_cell to_datetime r) (strftime (now_date now)) && is_valid r.

Definition due_today (to_datetime : string -> Result Datetime) (now : Now)
    (r : Report.row) : bool :=
  str_eq (due_date_cell to_datetime r) (strftime (now_date now)).

(** The entry of the past-due rule. *)
Definition previously_paid_entry (now : Now) (row : Report.row) : Log.entry :=
  Log.mk (Report.order_id row) (Report.customer_name row) (Report.due_date row)
         (Report.total row) "PREVIOUSLY_PAID" "SUCCESS" (now_isoformat now)
         "Auto-paid earlier" "Previously paid for past due invoice" "PreviouslyPaid".

(** The body of the loop of [process_todays_invoices]. *)
Definition todays_body (to_datetime : string -> Result Datetime) (now : Now)
    (existing_log_df : list Log.entry) (payment_log_entries : list Log.entry)
    (row : Report.row) : Prog (list Log.entry) :=
  if String.eqb (Report.validation_status row) "VALID" then
    if negb (already_paid existing_log_df row) then
      entry <- create_payment_log_entry now row "auto" ;;
      Ret (payment_log_entries ++ [entry])
    else Ret payment_log_entries
  else Ret payment_log_entries.

(** The reply of the payment endpoint makes [trigger_payment] raise. *)
Definition post_failed (reply : HttpReply) : bool :=
  match reply with
  | ConnectionError => true
  | Response status_code body =>
      is_error_status status_code
      || match body with
         | Some _ => false
         | None => true
         end
  end.

(** In a run, a failed payment call is followed by a [RuntimeError]. *)
Definition failure_raises {W A} (out : Result A * W * list Event) : Prop :=
  forall payload reply,
    In (EvPost payload reply) (snd out) -> post_failed reply = true ->
    exists msg, fst (fst out) = Raised (RuntimeError msg).

Ltac run_auto h w :=
  unfold create_payment_log_entry, trigger_payment, generate_payment_justification;
  replace (String.eqb "auto" "previous") with false by reflexivity;
  cbn [bind run];
  destruct (on_post h _ w) as [[| status_code [json |]] ?w]; cbn [bind run];
  try destruct (is_error_status status_code) eqn:?; cbn [bind run];
  try destruct (on_generate_content h _ _) as [[text |] ?w]; cbn [bind run].

(** No call of the run found the client exhausted. *)
Definition none_exhausted (calls : list Event) : Prop :=
  forall prompt, ~ In (EvGenerateContent prompt None) calls.

(** The entry [e] records the row [r]: its identity, due date and total. *)
Definition entry_of_row (e : Log.entry) (r : Report.row) : Prop :=
  Log.order_id e = Report.order_id r
  /\ Log.customer_name e = Report.customer_name r
  /\ Log.due_date e = Report.due_date r
  /\ Log.amount e = Report.total r.

(** The body [trigger_payment] posts for a row. *)
Definition payload_of_row (r : Report.row) : PaymentRequest :=
  mkPaymentRequest (Report.order_id r) (Report.customer_name r) (Report.total r)
                   (Report.due_date r).

(** The payment requests of a call trace, in order. *)
Definition posted (calls : list Event) : list PaymentRequest :=
  flat_map (fun ev => match ev with
                      | EvPost payload _ => [payload]
                      | EvGenerateContent _ _ => []
                      end) calls.

(** In a run, a call that found the model exhausted comes right after a
    payment that went through, ends the run, and the run ends with a
    [RuntimeError]. *)
Definition exhaustion_raises {W A} (out : Result A * W * list Event) : Prop :=
  forall prompt,
    In (EvGenerateContent prompt None) (snd out) ->
    (exists msg, fst (fst out) = Raised (RuntimeError msg))
    /\ exists before payload reply,
         snd out = before ++ [EvPost payload reply; EvGenerateContent prompt None]
         /\ post_failed reply = false.

(** The formatted due date of a log entry once the whole column has
    parsed. *)
Definition log_date_cell (to_datetime : string -> Result Datetime) (e : Log.entry)
    : option string :=
  match to_datetime (Log.due_date e) with
  | Ok d => dt_strftime d
  | Raised _ => None
  end.

(** The row is due strictly before today, whatever its status. *)
Definition due_before_today (to_datetime : string -> Result Datetime) (now : Now)
    (r : Report.row) : bool :=
  str_lt (due_date_cell to_datetime r) (strftime (now_date now)).

(** The comparison table as the cells of a report row determine it: no
    line when the purchase-order side is missing; otherwise a line for
    the quantity, the rate and the total amount, in this order, each
    where the invoice and the purchase order differ; [None] when the
    quantities differ and one of them is not a finite number. *)
Definition table_of_differences (format_float : float -> string) (r : Report.row)
    : option (list Comparison.line) :=
  if isna (Report.quantity_po r) || isna (Report.rate_po r)
     || isna (Report.expected_amount r)
  then Some []
  else
    let rate_line :=
      if float_ne (Report.rate_inv r) (Report.rate_po r)
      then [Comparison.mk "Rate"
              (String.append "$" (format_float (Report.rate_inv r)))
              (String.append "$" (format_float (Report.rate_po r)))]
      else [] in
    let amount_line :=
      if float_gt (Report.amount r) (Report.expected_amount r)
         || float_lt (Report.amount r) (Report.expected_amount r)
      then [Comparison.mk "Total Amount"
              (String.append "$" (format_float (Report.amount r)))
              (String.append "$" (format_float (Report.expected_amount r)))]
      else [] in
    if float_ne (Report.quantity_inv r) (Report.quantity_po r) then
      match int_of_float (Report.quantity_inv r), int_of_float (Report.quantity_po r) with
      | Some quantity_inv, Some quantity_po =>
          Some (Comparison.mk "Quantity" (str_of_int quantity_inv) (str_of_int quantity_po)
                :: rate_line ++ amount_line)
      | _, _ => None
      end
    else Some (rate_line ++ amount_line).

(** The SDK with a record of the keys it was called with, in order. *)
Definition recording {S} (sdk : string -> Prompt -> S -> option string * S)
    (key : string) (prompt : Prompt) (st : S * list string)
    : option string * (S * list string) :=
  let '(s, used) := st in
  let '(reply, s1) := sdk key prompt s in
  (reply, (s1, used ++ [key])).

(** [count] keys taken in turn from position [start], wrapping around. *)
Definition round_robin (keys : list string) (start count : nat) : list string :=
  map (fun k => nth ((start + k) mod List.length keys) keys "") (seq 0 count).

(** The cleaning of the model's answer in [parse_invoice_with_genai]:
    the text handed to [json.loads]. *)
Definition clean_json_output (response_text : string) : string :=
  let json_output := strip response_text in
  if startswith json_output "```json" then
    strip (replace "```" "" (replace "```json" "" json_output))
  else if startswith json_output "```" then
    strip (replace "```" "" json_output)
  else json_output.

(** Every character of the text satisfies [p]. *)
Fixpoint all_chars (p : ascii -> bool) (s : string) : bool :=
  match s with
  | EmptyString => true
  | String c s' => p c && all_chars p s'
  end.

Definition not_backtick (c : ascii) : bool := negb (Ascii.eqb c "`").

(** The prompts of a call trace, in order. *)
Definition asked (calls : list Event) : list Prompt :=
  flat_map (fun ev => match ev with
                      | EvGenerateContent prompt _ => [prompt]
                      | EvPost _ _ => []
                      end) calls.

(** The prompts of the PDFs of a folder listing, in order. *)
Definition pdf_prompts (files : list (string * string)) : list Prompt :=
  map (fun f => ExtractionPrompt (snd f))
      (filter (fun f => endswith (fst f) ".pdf") files).

(** No answer of the run was the JSON value [null]. *)
Definition no_null_answer (json_loads : string -> option JsonValue) (calls : list Event)
    : Prop :=
  forall prompt response_text,
    In (EvGenerateContent prompt (Some response_text)) calls ->
    json_loads (clean_json_output response_text) <> Some JNull.

Definition not_comma (c : ascii) : bool := negb (Ascii.eqb c ",").

(** The name of the numbered variable of rank [i], counted from 0. *)
Definition numbered_key (i : nat) : string :=
  String.append "GEMINI_API_KEY_" (str_of_int (Z.of_nat i + 1)).

(** The variable is set to a text that is not empty. *)
Definition is_set (v : option string) : bool :=
  match v with
  | Some s => negb (String.eqb s "")
  | None => false
  end.

(* ================================================================== *)
(** * Sample data *)
(* ================================================================== *)

(** An invoice line item and a purchase order with the given cells. *)
Definition sample_invoice (number : Z) (order customer due : string)
    (qty rate amount total : float) : Inv.row :=
  Inv.mk "invoice.pdf" (CInt number) order customer due "Austin, Texas" "Standard"
         amount 0%float 0%float total "Item" qty rate amount.

Definition sample_po (number : Z) (order customer : string)
    (qty rate expected : float) : PO.row :=
  PO.mk (CInt number) order customer qty rate expected.

(** Frames with the usual labels. *)
Definition invoices_frame (rs : list Inv.row) : DataFrame Inv.row :=
  mkDataFrame Inv.labels rs.

Definition po_frame (ps : list PO.row) : DataFrame PO.row :=
  mkDataFrame PO.labels ps.

(** The due dates of the examples, as [pd.to_datetime] reads them. *)
Definition sample_to_datetime (text : string) : Result Datetime :=
  if String.eqb text "Jan 05 2024" then Ok (Timestamp (mkDate 2024 1 5))
  else if String.eqb text "Jan 10 2024" then Ok (Timestamp (mkDate 2024 1 10))
  else if String.eqb text "Feb 01 2024" then Ok (Timestamp (mkDate 2024 2 1))
  else if String.eqb text "" then Ok NaT
  else Raised (ValueError "time data does not match format").

(** The examples run on 10 January 2024. *)
Definition sample_now : Now := mkNow (mkDate 2024 1 10) "2024-01-10T09:00:00".

(** A VALID report row. *)
Definition sample_valid_row (number : Z) (order customer due : string) (total : float)
    : Report.row :=
  Report.mk "invoice.pdf" (CInt number) order customer due "Austin, Texas"
            0%float 0%float total 1%float 1%float total total total total
            "Match" "VALID".

(** A payment endpoint that cannot be reached, and one that accepts every
    payment; the language model answers both with a justification. *)
Definition unreachable_endpoint : Handler unit :=
  mkHandler (fun _ w => (ConnectionError, w))
            (fun _ w => (Some "Payment approved.", w)).

Definition accepting_endpoint : Handler unit :=
  mkHandler
    (fun _ w =>
       (Response 200 (Some [("transaction_id", "TXN-10001"); ("status", "SUCCESS");
                            ("timestamp", "2024-01-10T09:00:01");
                            ("message", "Payment triggered")]), w))
    (fun _ w => (Some "Payment approved.", w)).

(** A folder with two invoices, the objects the model returns for them, and
    a vendor service that fails on every call for the first one. *)
Definition sample_parsed (number : Z) (order customer : string) : Parsed.invoice :=
  Parsed.mk (CInt number) order customer "Jan 10 2024" "Austin, Texas" "Standard"
            10%float 0%float 0%float 10%float
            (Some [Parsed.mkItem (Some "Item") (Some 1%float) (Some 10%float)
                                 (Some 10%float)]).

Definition sample_json_loads (text : string) : option JsonValue :=
  if String.eqb text "json of a.pdf" then Some (JObject (sample_parsed 1 "O-1" "Acme"))
  else if String.eqb text "json of b.pdf" then Some (JObject (sample_parsed 2 "O-2" "Bolt"))
  else if String.eqb text "null" then Some JNull
  else None.

Definition sample_folder : list (string * string) :=
  [("a.pdf", "text of a.pdf"); ("b.pdf", "text of b.pdf")].

Definition failing_on_a (key : string) (prompt : Prompt) (s : unit) : option string * unit :=
  match prompt with
  | ExtractionPrompt text =>
      if String.eqb text "text of a.pdf" then (None, s)
      else if String.eqb text "text of b.pdf" then (Some "json of b.pdf", s)
      else (Some "", s)
  | JustificationPrompt _ _ _ _ => (Some "Payment approved.", s)
  end.

Definition never_posting (payload : PaymentRequest) (p : unit) : HttpReply * unit :=
  (ConnectionError, p).

Definition sample_client : GeminiMultiKeyClient := mkClient ["key-1"; "key-2"] 0.

(** A report with a row past due, a row due today and a row due later. *)
Definition row_past_due : Report.row :=
  sample_valid_row 1 "O-1" "Acme" "Jan 05 2024" 100%float.

Definition row_due_today : Report.row :=
  sample_valid_row 2 "O-2" "Bolt" "Jan 10 2024" 250%float.

Definition row_due_later : Report.row :=
  sample_valid_row 3 "O-3" "Cargo" "Feb 01 2024" 75%float.

Definition sample_report : list Report.row :=
  [row_past_due; row_due_today; row_due_later].

(** Two invoices billed on one order of one customer, each with its own
    purchase order. *)
Definition two_invoices_one_order : DataFrame Inv.row :=
  invoices_frame
    [sample_invoice 1 "O-1" "Acme" "Jan 05 2024" 1%float 100%float 100%float 100%float;
     sample_invoice 2 "O-1" "Acme" "Jan 05 2024" 1%float 100%float 100%float 100%float].

Definition two_purchase_orders : DataFrame PO.row :=
  po_frame [sample_po 1 "O-1" "Acme" 1%float 100%float 100%float;
            sample_po 2 "O-1" "Acme" 1%float 100%float 100%float].

(** What the tracker emits for [sample_report] against an empty log when
    the endpoint accepts the payment, and the calls it makes. *)
Definition sample_auto_entry : Log.entry :=
  Log.mk "O-2" "Bolt" "Jan 10 2024" 250%float "TXN-10001" "SUCCESS"
         "2024-01-10T09:00:01" "Payment triggered" "Payment approved." "Auto".

Definition sample_entries : list Log.entry :=
  [previously_paid_entry sample_now row_past_due; sample_auto_entry].

Definition sample_payload : PaymentRequest :=
  mkPaymentRequest "O-2" "Bolt" 250%float "Jan 10 2024".

Definition sample_calls : list Event :=
  [EvPost sample_payload
     (Response 200 (Some [("transaction_id", "TXN-10001"); ("status", "SUCCESS");
                          ("timestamp", "2024-01-10T09:00:01");
                          ("message", "Payment triggered")]));
   EvGenerateContent (JustificationPrompt "O-2" "Bolt" 250%float "Jan 10 2024")
                     (Some "Payment approved.")].

(** An invoice with a purchase order and one without. *)
Definition sample_invoices : DataFrame Inv.row :=
  invoices_frame
    [sample_invoice 1 "O-1" "Acme" "Jan 05 2024" 1%float 100%float 100%float 100%float;
     sample_invoice 9 "O-9" "Zed" "Jan 10 2024" 2%float 5%float 10%float 10%float].

Definition sample_purchase_orders : DataFrame PO.row :=
  po_frame [sample_po 1 "O-1" "Acme" 1%float 100%float 100%float].

(** One invoice with two line items. *)
Definition two_line_items : DataFrame Inv.row :=
  invoices_frame
    [sample_invoice 1 "O-1" "Acme" "Jan 05 2024" 1%float 100%float 100%float 150%float;
     sample_invoice 1 "O-1" "Acme" "Jan 05 2024" 5%float 10%float 50%float 150%float].

(** The row [analyze_invoices] builds for [b.pdf]. *)
Definition row_of_b : Inv.row :=
  Inv.mk "b.pdf" (CInt 2) "O-2" "Bolt" "Jan 10 2024" "Austin, Texas" "Standard"
         10%float 0%float 0%float 10%float "Item" 1%float 10%float 10%float.

(** An invoice and a purchase order whose number is not a number. *)
Definition invoices_with_bad_number : DataFrame Inv.row :=
  invoices_frame
    [sample_invoice 1 "O-1" "Acme" "Jan 05 2024" 1%float 100%float 100%float 100%float;
     Inv.set_invoice_number (CStr "INV-7")
       (sample_invoice 7 "O-7" "Gale" "Jan 10 2024" 1%float 10%float 10%float 10%float)].

Definition purchase_orders_with_bad_number : DataFrame PO.row :=
  po_frame [sample_po 1 "O-1" "Acme" 1%float 100%float 100%float;
            PO.set_invoice_number CNaN (sample_po 7 "O-7" "Gale" 1%float 10%float 10%float)].

(** An invoice that bills more units, at a higher rate, than were ordered. *)
Definition overbilled_invoices : DataFrame Inv.row :=
  invoices_frame
    [sample_invoice 4 "O-4" "Dune" "Jan 10 2024" 3%float 20%float 60%float 60%float].

Definition overbilled_purchase_orders : DataFrame PO.row :=
  po_frame [sample_po 4 "O-4" "Dune" 2%float 15%float 30%float].

(** A float printed as its integer part followed by [.0], which is what
    Python prints for the whole numbers of the examples. *)
Definition sample_format_float (x : float) : string :=
  match int_of_float x with
  | Some n => String.append (str_of_int n) ".0"
  | None => "nan"
  end.

(** A world in which payments go through and the model is exhausted. *)
Definition exhausted_model : Handler unit :=
  mkHandler (on_post accepting_endpoint) (fun _ w => (None, w)).

(** A row whose due date is not in the format, and a flagged row that is
    overdue. *)
Definition row_bad_date : Report.row :=
  sample_valid_row 4 "O-4" "Dune" "10/01/2024" 10%float.

Definition row_flagged_overdue : Report.row :=
  Report.mk "invoice.pdf" (CInt 5) "O-5" "Echo" "Jan 05 2024" "Austin, Texas"
            0%float 0%float 60%float 3%float 2%float 20%float 20%float 60%float 40%float
            "Quantity Mismatch, Overbilling" "INVALID".

(** A vendor service that fails on its first call and answers with the
    name of the key from the second call on; its state counts the calls. *)
Definition failing_once (key : string) (prompt : Prompt) (calls : nat)
    : option string * nat :=
  if Nat.eqb calls 0 then (None, 1) else (Some key, Datatypes.S calls).

(** An environment with two numbered keys, a gap, a third numbered key
    and the single key; and one in which the single key is set to the
    empty text. *)
Definition sample_getenv (name : string) : option string :=
  if String.eqb name "GEMINI_API_KEY_1" then Some "key-1"
  else if String.eqb name "GEMINI_API_KEY_2" then Some "key-2"
  else if String.eqb name "GEMINI_API_KEY_4" then Some "key-4"
  else if String.eqb name "GEMINI_API_KEY" then Some "single"
  else None.

Definition empty_key_getenv (name : string) : option string :=
  if String.eqb name "GEMINI_API_KEY" then Some "" else None.

(** A model that answers the first invoice between fences and the second
    with a text that is not JSON. *)
Definition fenced_model : Handler unit :=
  mkHandler
    (fun _ w => (ConnectionError, w))
    (fun prompt w =>
       match prompt with
       | ExtractionPrompt text =>
           if String.eqb text "text of a.pdf"
           then (Some "```json json of a.pdf ```", w)
           else (Some "Sorry, I cannot read this invoice.", w)
       | JustificationPrompt _ _ _ _ => (Some "Payment approved.", w)
       end).

(** An invoice with two line items, as [json.loads] gives it. *)
Definition two_item_parsed : Parsed.invoice :=
  Parsed.mk (CInt 5) "O-5" "Echo" "Jan 10 2024" "Austin, Texas" "Standard"
            30%float 0%float 0%float 30%float
            (Some [Parsed.mkItem (Some "Bolt") (Some 1%float) (Some 10%float)
                                 (Some 10%float);
                   Parsed.mkItem (Some "Nut") (Some 2%float) (Some 10%float)
                                 (Some 20%float)]).

Definition two_item_json_loads (text : string) : option JsonValue :=
  if String.eqb text "json of a.pdf" then Some (JObject two_item_parsed) else None.

(* ================================================================== *)
(** * Results *)
(* ================================================================== *)

(** ** Lists and keys *)

Lemma cell_eqb_eq (a b : Cell) : cell_eqb a b = true <-> a = b.
Proof.
  destruct a, b; simpl; split; intro H; try discriminate; try reflexivity.
  - apply Z.eqb_eq in H. now subst.
  - injection H as ->. apply Z.eqb_refl.
  - apply String.eqb_eq in H. now subst.
  - injection H as ->. apply String.eqb_refl.
Qed.

Lemma key_eqb_eq (a b : Key) : key_eqb a b = true <-> a = b.
Proof.
  destruct a as [[n1 o1] c1], b as [[n2 o2] c2]. unfold key_eqb.
  rewrite !andb_true_iff, cell_eqb_eq, !String.eqb_eq.
  split.
  - intros [[-> ->] ->]. reflexivity.
  - intro H. injection H as -> -> ->. auto.
Qed.

Lemma key_eqb_refl (a : Key) : key_eqb a a = true.
Proof. now apply key_eqb_eq. Qed.

Lemma existsb_key_In (k : Key) (ks : list Key) :
  existsb (key_eqb k) ks = true <-> In k ks.
Proof.
  rewrite existsb_exists. split.
  - intros [x [Hin Heq]]. apply key_eqb_eq in Heq. now subst.
  - intro Hin. exists k. split; [assumption | apply key_eqb_refl].
Qed.

Lemma is_unique_NoDup (ks : list Key) : is_unique ks = true <-> NoDup ks.
Proof.
  induction ks as [| k ks IH]; simpl.
  - split; [constructor | reflexivity].
  - rewrite andb_true_iff, negb_true_iff, IH. split.
    + intros [Hex Hnd]. constructor; [| assumption].
      intro Hin. apply existsb_key_In in Hin. congruence.
    + intro Hnd. inversion Hnd as [| ? ? Hnin Hnd']; subst. split; [| assumption].
      destruct (existsb (key_eqb k) ks) eqn:E; [| reflexivity].
      apply existsb_key_In in E. contradiction.
Qed.

(** With unique right keys a left row has at most one match. *)
Lemma matches_at_most_one (l : Inv.row) (right : list PO.row) :
  NoDup (map right_key right) ->
  matches l right = [] \/ exists p, matches l right = [p].
Proof.
  unfold matches. induction right as [| p right IH]; cbn [filter map]; intro Hnd.
  - now left.
  - inversion Hnd as [| ? ? Hnin Hnd']; subst.
    destruct (key_eqb (left_key l) (right_key p)) eqn:E.
    + right. exists p. f_equal.
      apply key_eqb_eq in E.
      destruct (filter (fun p0 => key_eqb (left_key l) (right_key p0)) right)
        as [| q qs] eqn:F; [reflexivity |].
      exfalso. apply Hnin.
      assert (Hq : In q (filter (fun p0 => key_eqb (left_key l) (right_key p0)) right))
        by (rewrite F; now left).
      apply filter_In in Hq. destruct Hq as [Hq Hk].
      apply key_eqb_eq in Hk. rewrite <- E, Hk. now apply in_map.
    + now apply IH.
Qed.

Lemma left_join_unique (left : list Inv.row) (right : list PO.row) :
  NoDup (map right_key right) ->
  left_join left right = map (joined_row right) left.
Proof.
  intro Hnd. unfold left_join.
  rewrite (flat_map_ext _ (fun l => [joined_row right l])).
  - induction left as [| l left IH]; simpl; [reflexivity | now rewrite IH].
  - intro l. unfold joined_row.
    destruct (matches_at_most_one l right Hnd) as [E | [p E]]; rewrite E; reflexivity.
Qed.

Lemma pd_merge_Ok (left : list Inv.row) (right : list PO.row) (joined : list Joined.row) :
  pd_merge left right = Ok joined ->
  NoDup (map left_key left) /\ NoDup (map right_key right)
  /\ joined = map (joined_row right) left.
Proof.
  unfold pd_merge.
  destruct (is_unique (map left_key left)) eqn:EL;
    destruct (is_unique (map right_key right)) eqn:ER; simpl; try discriminate.
  intro H. injection H as <-.
  apply is_unique_NoDup in EL. apply is_unique_NoDup in ER.
  repeat split; try assumption. now apply left_join_unique.
Qed.

(** ** The loop of [validate_invoices] is a map *)

Lemma at_set_app {A} (done live : list A) (r : A) (f : A -> A) :
  at_set (done ++ r :: live) (List.length done) f = done ++ f r :: live.
Proof. induction done as [| d done IH]; simpl; [reflexivity | now rewrite IH]. Qed.

Lemma at_set_twice {A} (df : list A) (index : nat) (f g : A -> A) :
  at_set (at_set df index f) index g = at_set df index (fun r => g (f r)).
Proof.
  revert index. induction df as [| r df IH]; intros [| i]; simpl; try reflexivity.
  now rewrite IH.
Qed.

Lemma validate_step_at_set (df : list Merged.row) (index : nat) (row : Merged.row) :
  validate_step df (index, row) = at_set df index (validate_update row).
Proof.
  unfold validate_step, validate_update.
  destruct (reasons_of row); [reflexivity |]. now rewrite at_set_twice.
Qed.

Lemma validation_loop_from (snapshot live done : list Merged.row) :
  List.length snapshot = List.length live ->
  fold_left validate_step
    (combine (seq (List.length done) (List.length snapshot)) snapshot) (done ++ live)
  = done ++ map (fun sl => validate_update (fst sl) (snd sl)) (combine snapshot live).
Proof.
  revert live done.
  induction snapshot as [| s snapshot IH]; intros [| r live] done Hlen;
    cbn [List.length combine seq fold_left map fst snd] in *;
    try discriminate; [reflexivity |].
  rewrite validate_step_at_set, at_set_app.
  replace (done ++ validate_update s r :: live)
    with ((done ++ [validate_update s r]) ++ live)
    by (rewrite <- app_assoc; reflexivity).
  replace (Datatypes.S (List.length done)) with (List.length (done ++ [validate_update s r]))
    by (rewrite length_app; simpl; lia).
  rewrite IH by lia. rewrite <- app_assoc. reflexivity.
Qed.

Lemma validation_loop_map (df : list Merged.row) :
  validation_loop df = map (fun r => validate_update r r) df.
Proof.
  unfold validation_loop, iterrows.
  pose proof (validation_loop_from df df [] eq_refl) as H.
  cbn [List.length app] in H. rewrite H. clear H.
  induction df as [| r df IH]; cbn [combine map fst snd]; [reflexivity | now rewrite IH].
Qed.

Lemma reasons_of_spec (j : Joined.row) (res status : string) :
  reasons_of (Merged.mk j res status) = spec_reasons j.
Proof.
  unfold reasons_of, spec_reasons, _check_missing_po, _get_validation_reasons.
  unfold Merged.quantity_po, Merged.rate_po, Merged.expected_amount,
    Merged.quantity_inv, Merged.rate_inv, Merged.amount. simpl.
  destruct (isna (Joined.quantity_po j) || isna (Joined.rate_po j)
            || isna (Joined.expected_amount j)); [reflexivity |].
  destruct (float_ne (Inv.quantity (Joined.inv j)) (Joined.quantity_po j));
    destruct (float_ne (Inv.rate (Joined.inv j)) (Joined.rate_po j));
    destruct (float_gt (Inv.amount (Joined.inv j)) (Joined.expected_amount j));
    destruct (float_lt (Inv.amount (Joined.inv j)) (Joined.expected_amount j));
    reflexivity.
Qed.

(** C3.  The discrepancy classifier follows the fixed-order algorithm of the
    specification: on every frame of joined rows, the loop of
    [validate_invoices] (started, as the code does, from an empty result
    and the status VALID) gives each row the reasons of section 4.2:
    exactly "Missing PO" when a purchase-order quantity, rate or expected
    amount is missing, and otherwise Quantity Mismatch, Rate Mismatch and
    then Overbilling or else Amount Mismatch, each under its exact
    comparison; the result is "Match" with status VALID when there is no
    reason and the reasons joined by ", " with status INVALID otherwise. *)
Theorem classification_follows_spec (joined : list Joined.row) :
  validation_loop (map (fun j => Merged.mk j "" "VALID") joined)
  = map spec_classify joined.
Proof.
  rewrite validation_loop_map, map_map. apply map_ext. intro j.
  unfold validate_update, spec_classify. rewrite reasons_of_spec.
  destruct (spec_reasons j); reflexivity.
Qed.

(** ** [validate_invoices] step by step *)

Lemma result_map_Ok {A B} (f : A -> Result B) (xs : list A) (ys : list B) :
  result_map f xs = Ok ys -> Forall2 (fun x y => f x = Ok y) xs ys.
Proof.
  revert ys. induction xs as [| x xs IH]; simpl; intros ys H.
  - injection H as <-. constructor.
  - destruct (f x) as [y |] eqn:Fx; simpl in H; [| discriminate].
    destruct (result_map f xs) as [ys' |]; simpl in H; [| discriminate].
    injection H as <-. constructor; auto.
Qed.

Lemma Forall2_In_r {A B} (R : A -> B -> Prop) (xs : list A) (ys : list B) (y : B) :
  Forall2 R xs ys -> In y ys -> exists x, In x xs /\ R x y.
Proof.
  induction 1 as [| x y' xs ys Hxy _ IH]; simpl; [contradiction |].
  intros [-> | Hin].
  - exists x. auto.
  - destruct (IH Hin) as [x' [Hx' Hr]]. exists x'. auto.
Qed.

Lemma Forall2_map_r {A B C} (R : A -> B -> Prop) (P : A -> C -> Prop) (g : B -> C)
    (xs : list A) (ys : list B) :
  Forall2 R xs ys -> (forall x y, In y ys -> R x y -> P x (g y)) ->
  Forall2 P xs (map g ys).
Proof.
  induction 1 as [| x y xs ys Hxy _ IH]; simpl; intro H; constructor.
  - apply H; auto.
  - apply IH. intros x' y' Hin. apply H. auto.
Qed.

Lemma Forall2_nth_error_l {A B} (R : A -> B -> Prop) (xs : list A) (ys : list B)
    (n : nat) (x : A) :
  Forall2 R xs ys -> nth_error xs n = Some x ->
  exists y, nth_error ys n = Some y /\ R x y.
Proof.
  intro F. revert n. induction F as [| x' y' xs ys Hxy _ IH]; intros [| n] H;
    simpl in *; try discriminate.
  - injection H as ->. exists y'. auto.
  - now apply IH.
Qed.

Lemma astype_int_CInt (c c' : Cell) : astype_int c = Ok c' -> exists z, c' = CInt z.
Proof.
  destruct c as [z | s |]; cbn [astype_int]; try discriminate.
  - destruct (in_int64 z || in_uint64 z); [| discriminate].
    intro H. injection H as <-. eauto.
  - destruct (int_of_string s) as [z |]; [| discriminate].
    destruct (in_int64 z); [| discriminate].
    intro H. injection H as <-. eauto.
Qed.

Lemma to_int64_fixed (z : Z) : in_int64 z = true -> to_int64 z = z.
Proof.
  unfold in_int64, to_int64. intro H. apply andb_true_iff in H. destruct H as [H1 H2].
  apply Z.leb_le in H1. apply Z.ltb_lt in H2.
  rewrite Z.mod_small; lia.
Qed.

(** Where an element of an object column converts, it converts to what
    [astype_int] gives. *)
Lemma int64_of_object_Ok (c c' : Cell) :
  int64_of_object c = Ok c' -> astype_int c = Ok c'.
Proof.
  destruct c as [z | s |]; cbn [int64_of_object astype_int]; try (intro H; exact H).
  destruct (in_int64 z) eqn:E; [| discriminate].
  cbn [orb]. now rewrite (to_int64_fixed _ E).
Qed.

Lemma int64_of_object_Raised (c : Cell) (e : Exn) :
  astype_int c = Raised e -> exists e', int64_of_object c = Raised e'.
Proof.
  destruct c as [z | s |]; cbn [int64_of_object astype_int]; eauto.
  destruct (in_int64 z); cbn [orb]; [discriminate | eauto].
Qed.

(** What a column that converts holds afterwards, cell by cell. *)
Lemma astype_int_column_Ok {R} (get : R -> Cell) (set : Cell -> R -> R) (rs rs' : list R) :
  astype_int_column get set rs = Ok rs' ->
  Forall2 (fun r r' => exists z, astype_int (get r) = Ok (CInt z) /\ r' = set (CInt z) r)
          rs rs'.
Proof.
  unfold astype_int_column.
  destruct (dtype_of (map get rs)); try discriminate; intro H; apply result_map_Ok in H;
    (eapply Forall2_impl; [| exact H]); intros r r' Hr; cbn beta in Hr.
  1, 2: destruct (astype_int (get r)) as [c |] eqn:E; cbn [result_bind] in Hr;
    [| discriminate]; injection Hr as <-;
    destruct (astype_int_CInt _ _ E) as [z ->]; eauto.
  destruct (int64_of_object (get r)) as [c |] eqn:E; cbn [result_bind] in Hr;
    [| discriminate].
  injection Hr as <-. apply int64_of_object_Ok in E.
  destruct (astype_int_CInt _ _ E) as [z ->]. eauto.
Qed.

Lemma astype_inv_column_Ok (rs rs' : list Inv.row) :
  astype_int_column Inv.invoice_number Inv.set_invoice_number rs = Ok rs' ->
  Forall2 coerced_inv rs rs'.
Proof. exact (astype_int_column_Ok Inv.invoice_number Inv.set_invoice_number rs rs'). Qed.

Lemma astype_po_column_Ok (ps ps' : list PO.row) :
  astype_int_column PO.invoice_number PO.set_invoice_number ps = Ok ps' ->
  Forall2 coerced_po ps ps'.
Proof. exact (astype_int_column_Ok PO.invoice_number PO.set_invoice_number ps ps'). Qed.

Lemma validate_invoices_at_merge (invoices_df : DataFrame Inv.row)
    (po_df : DataFrame PO.row) (inv_rows : list Inv.row) (po_rows : list PO.row) :
  reaches_merge invoices_df po_df inv_rows po_rows ->
  validate_invoices invoices_df po_df
  = mkOutcome
      (mkDataFrame
         (rename_columns "invoice_number" "invoice_number_inv" (columns invoices_df))
         inv_rows)
      (mkDataFrame (columns po_df) po_rows)
      (report_after_merge
         (rename_columns "invoice_number" "invoice_number_inv" (columns invoices_df))
         (columns po_df) inv_rows po_rows).
Proof.
  intros (H1 & H2 & H3 & H4). unfold validate_invoices, report_after_merge.
  rewrite H1, H2. cbn [negb columns rows]. rewrite H3, H4. cbn [negb columns rows].
  destruct (merge_key_error _ _ _); [reflexivity |].
  destruct (pd_merge inv_rows po_rows) as [joined |]; [| reflexivity].
  cbv zeta. destruct (loop_key_error _ _); [reflexivity |].
  destruct (filter _ report_columns); reflexivity.
Qed.

(** A report comes from a merge that went through. *)
Lemma report_after_merge_Ok (left_labels right_labels : list string)
    (inv_rows : list Inv.row) (po_rows : list PO.row) (report : list Report.row) :
  report_after_merge left_labels right_labels inv_rows po_rows = Ok report ->
  exists joined,
    pd_merge inv_rows po_rows = Ok joined
    /\ report = map report_row (validation_loop (map (fun j => Merged.mk j "" "VALID") joined)).
Proof.
  unfold report_after_merge.
  destruct (merge_key_error _ _ _); [discriminate |].
  destruct (pd_merge inv_rows po_rows) as [joined |]; [| discriminate].
  cbv zeta. destruct (loop_key_error _ _); [discriminate |].
  destruct (filter _ report_columns); [| discriminate].
  intro H. injection H as <-. eauto.
Qed.

(** Once the merge is reached, its exception is the call's. *)
Lemma report_after_merge_Raised (left_labels right_labels : list string)
    (inv_rows : list Inv.row) (po_rows : list PO.row) (e : Exn) :
  pd_merge inv_rows po_rows = Raised e ->
  exists e', report_after_merge left_labels right_labels inv_rows po_rows = Raised e'.
Proof.
  unfold report_after_merge. intros ->.
  destruct (merge_key_error _ _ _); eauto.
Qed.

Lemma validate_invoices_Ok (invoices_df : DataFrame Inv.row)
    (po_df : DataFrame PO.row) (report : list Report.row) :
  returned (validate_invoices invoices_df po_df) = Ok report ->
  exists inv_rows po_rows, reaches_merge invoices_df po_df inv_rows po_rows.
Proof.
  unfold validate_invoices, reaches_merge.
  destruct (has_column "invoice_number" (columns invoices_df)); cbn [negb];
    [| discriminate].
  destruct (astype_int_column Inv.invoice_number Inv.set_invoice_number (rows invoices_df))
    as [inv_rows |]; [| discriminate].
  cbn [columns rows].
  destruct (has_column "invoice_number" (columns po_df)); cbn [negb]; [| discriminate].
  destruct (astype_int_column PO.invoice_number PO.set_invoice_number (rows po_df))
    as [po_rows |]; [| discriminate].
  intros _. exists inv_rows, po_rows. auto.
Qed.

Lemma validate_invoices_fails_or_merges (invoices_df : DataFrame Inv.row)
    (po_df : DataFrame PO.row) :
  (exists e, returned (validate_invoices invoices_df po_df) = Raised e)
  \/ exists inv_rows po_rows, reaches_merge invoices_df po_df inv_rows po_rows.
Proof.
  unfold validate_invoices, reaches_merge.
  destruct (has_column "invoice_number" (columns invoices_df)); cbn [negb];
    [| left; eexists; reflexivity].
  destruct (astype_int_column Inv.invoice_number Inv.set_invoice_number (rows invoices_df))
    as [inv_rows |]; [| left; eexists; reflexivity].
  cbn [columns rows].
  destruct (has_column "invoice_number" (columns po_df)); cbn [negb];
    [| left; eexists; reflexivity].
  destruct (astype_int_column PO.invoice_number PO.set_invoice_number (rows po_df))
    as [po_rows |]; [| left; eexists; reflexivity].
  right. exists inv_rows, po_rows. auto.
Qed.

(** ** Join completeness *)

Lemma report_row_update (j : Joined.row) :
  let r := report_row (validate_update (Merged.mk j "" "VALID") (Merged.mk j "" "VALID")) in
  Report.file_name r = Inv.file_name (Joined.inv j)
  /\ Report.invoice_number_inv r = Inv.invoice_number (Joined.inv j)
  /\ Report.order_id r = Inv.order_id (Joined.inv j)
  /\ Report.customer_name r = Inv.customer_name (Joined.inv j)
  /\ Report.due_date r = Inv.due_date (Joined.inv j)
  /\ Report.ship_to r = Inv.ship_to (Joined.inv j)
  /\ Report.discount r = Inv.discount (Joined.inv j)
  /\ Report.shipping_cost r = Inv.shipping_cost (Joined.inv j)
  /\ Report.total r = Inv.total (Joined.inv j)
  /\ Report.quantity_inv r = Inv.quantity (Joined.inv j)
  /\ Report.rate_inv r = Inv.rate (Joined.inv j)
  /\ Report.amount r = Inv.amount (Joined.inv j)
  /\ Report.quantity_po r = Joined.quantity_po j
  /\ Report.rate_po r = Joined.rate_po j
  /\ Report.expected_amount r = Joined.expected_amount j.
Proof.
  unfold validate_update.
  destruct (reasons_of (Merged.mk j "" "VALID")); cbn; repeat split; reflexivity.
Qed.

Lemma matches_coerced (i i' : Inv.row) (ps ps' : list PO.row) (p' : PO.row) :
  coerced_inv i i' -> Forall2 coerced_po ps ps' -> In p' (matches i' ps') ->
  exists p, In p ps /\ same_key i p /\ PO.quantity p' = PO.quantity p
            /\ PO.rate p' = PO.rate p /\ PO.expected_amount p' = PO.expected_amount p.
Proof.
  intros [z [Hz ->]] F Hin. unfold matches in Hin. apply filter_In in Hin.
  destruct Hin as [Hin Hk]. apply key_eqb_eq in Hk.
  destruct (Forall2_In_r _ _ _ _ F Hin) as [p [Hp [zp [Hzp ->]]]].
  exists p. unfold left_key, right_key in Hk. cbn in Hk. injection Hk as Hn Ho Hc.
  repeat split; auto. unfold same_key. rewrite Hz, Hzp, Hn. auto.
Qed.

(** C2.  Join completeness: whenever [validate_invoices] returns a report,
    the report has exactly one row per invoice line item, in the order of
    the input (so the row counts are equal); each row carries the invoice
    side of its line item, whether or not a purchase order matches it, and
    a row whose line item has no purchase order of the same key has
    missing values in all its purchase-order columns. *)
Theorem join_completeness (invoices_df : DataFrame Inv.row) (po_df : DataFrame PO.row)
    (report : list Report.row) :
  returned (validate_invoices invoices_df po_df) = Ok report ->
  List.length report = List.length (rows invoices_df)
  /\ Forall2 (fun i r =>
       carries_invoice i r
       /\ ((forall p, In p (rows po_df) -> ~ same_key i p) -> po_side_missing r))
     (rows invoices_df) report.
Proof.
  intro Hok.
  destruct (validate_invoices_Ok _ _ _ Hok) as (inv_rows & po_rows & Hreach).
  rewrite (validate_invoices_at_merge _ _ _ _ Hreach) in Hok. cbn [returned] in Hok.
  destruct Hreach as (_ & Hinv & _ & Hpo).
  apply astype_inv_column_Ok in Hinv. apply astype_po_column_Ok in Hpo.
  destruct (report_after_merge_Ok _ _ _ _ _ Hok) as (joined & M & Hrep).
  apply pd_merge_Ok in M. destruct M as (_ & _ & ->).
  subst report. rewrite validation_loop_map, !map_map.
  assert (F : Forall2 (fun i r =>
       carries_invoice i r
       /\ ((forall p, In p (rows po_df) -> ~ same_key i p) -> po_side_missing r))
     (rows invoices_df)
     (map (fun x => report_row
        (validate_update (Merged.mk (joined_row po_rows x) "" "VALID")
                         (Merged.mk (joined_row po_rows x) "" "VALID"))) inv_rows)).
  { eapply Forall2_map_r; [exact Hinv |].
    intros i i' _ Hi.
    pose proof (report_row_update (joined_row po_rows i')) as R. cbn zeta in R.
    destruct R as (R1 & R2 & R3 & R4 & R5 & R6 & R7 & R8 & R9 & R10 & R11 & R12
                   & R13 & R14 & R15).
    assert (Hinv' : Joined.inv (joined_row po_rows i') = i').
    { unfold joined_row. destruct (matches i' po_rows); reflexivity. }
    rewrite Hinv' in *.
    split.
    - destruct Hi as [z [Hz ->]]. unfold carries_invoice.
      rewrite R1, R2, R3, R4, R5, R6, R7, R8, R9, R10, R11, R12. cbn.
      repeat split; try reflexivity. exact Hz.
    - intro Hun. unfold po_side_missing. rewrite R13, R14, R15.
      unfold joined_row. destruct (matches i' po_rows) as [| p' ms] eqn:E.
      + cbn. repeat split; reflexivity.
      + exfalso.
        destruct (matches_coerced i i' (rows po_df) po_rows p' Hi Hpo) as (p & Hp & Hk & _).
        { rewrite E. now left. }
        exact (Hun p Hp Hk). }
  split; [| exact F].
  symmetry. exact (Forall2_length F).
Qed.

(** ** One-to-one validation of the merge *)

Lemma not_unique (ks : list Key) (i j : nat) (k : Key) :
  i <> j -> nth_error ks i = Some k -> nth_error ks j = Some k ->
  is_unique ks = false.
Proof.
  intros Hij Hi Hj. destruct (is_unique ks) eqn:E; [| reflexivity].
  apply is_unique_NoDup in E. exfalso. apply Hij.
  rewrite NoDup_nth_error in E. apply E.
  - apply nth_error_Some. congruence.
  - congruence.
Qed.

Lemma duplicate_left_keys (rs rs' : list Inv.row) :
  Forall2 coerced_inv rs rs' -> has_duplicate_invoice_key rs ->
  is_unique (map left_key rs') = false.
Proof.
  intros F (i & j & a & b & Hij & Ha & Hb & Hn & Ho & Hc).
  destruct (Forall2_nth_error_l _ _ _ _ _ F Ha) as (a' & Ha' & za & Hza & ->).
  destruct (Forall2_nth_error_l _ _ _ _ _ F Hb) as (b' & Hb' & zb & Hzb & ->).
  assert (za = zb) by (rewrite Hn in Hza; congruence). subst zb.
  apply (not_unique _ i j
           (left_key (Inv.set_invoice_number (CInt za) a)) Hij).
  - rewrite nth_error_map, Ha'. reflexivity.
  - rewrite nth_error_map, Hb'. unfold left_key. cbn. now rewrite Ho, Hc.
Qed.

Lemma duplicate_right_keys (ps ps' : list PO.row) :
  Forall2 coerced_po ps ps' -> has_duplicate_po_key ps ->
  is_unique (map right_key ps') = false.
Proof.
  intros F (i & j & a & b & Hij & Ha & Hb & Hn & Ho & Hc).
  destruct (Forall2_nth_error_l _ _ _ _ _ F Ha) as (a' & Ha' & za & Hza & ->).
  destruct (Forall2_nth_error_l _ _ _ _ _ F Hb) as (b' & Hb' & zb & Hzb & ->).
  assert (za = zb) by (rewrite Hn in Hza; congruence). subst zb.
  apply (not_unique _ i j
           (right_key (PO.set_invoice_number (CInt za) a)) Hij).
  - rewrite nth_error_map, Ha'. reflexivity.
  - rewrite nth_error_map, Hb'. unfold right_key. cbn. now rewrite Ho, Hc.
Qed.

Lemma pd_merge_not_unique (left : list Inv.row) (right : list PO.row) :
  is_unique (map left_key left) = false \/ is_unique (map right_key right) = false ->
  exists msg, pd_merge left right = Raised (MergeError msg).
Proof.
  unfold pd_merge.
  destruct (is_unique (map left_key left)), (is_unique (map right_key right));
    cbn; intros [H | H]; try discriminate; eexists; reflexivity.
Qed.

Lemma has_column_renamed (label old new : string) (cols : list string) :
  label <> old -> has_column label cols = true ->
  has_column label (rename_columns old new cols) = true.
Proof.
  intro Hne. unfold has_column, rename_columns.
  induction cols as [| c cols IH]; cbn [map existsb]; [discriminate |].
  intro H. apply orb_true_iff in H. destruct H as [H | H].
  - apply String.eqb_eq in H. subst c.
    apply String.eqb_neq in Hne. rewrite Hne, String.eqb_refl. reflexivity.
  - rewrite (IH H). apply orb_true_r.
Qed.

Lemma has_column_new_label (old new : string) (cols : list string) :
  has_column old cols = true -> has_column new (rename_columns old new cols) = true.
Proof.
  unfold has_column, rename_columns.
  induction cols as [| c cols IH]; cbn [map existsb]; [discriminate |].
  intro H. apply orb_true_iff in H. destruct H as [H | H].
  - rewrite String.eqb_sym in H. rewrite H, String.eqb_refl. reflexivity.
  - rewrite (IH H). apply orb_true_r.
Qed.

(** With the key labels in both frames, the merge finds its keys. *)
Lemma merge_keys_found (invoices_df : DataFrame Inv.row) (po_df : DataFrame PO.row) :
  has_column "invoice_number" (columns invoices_df) = true ->
  has_column "invoice_number" (columns po_df) = true ->
  has_key_labels invoices_df po_df ->
  merge_key_error
    (rename_columns "invoice_number" "invoice_number_inv" (columns invoices_df))
    (columns po_df) (combine left_on right_on)
  = None.
Proof.
  intros Hi Hp (Ho & Hc & Hpo & Hpc).
  cbn [left_on right_on combine merge_key_error].
  assert (No : "order_id" <> "invoice_number") by discriminate.
  assert (Nc : "customer_name" <> "invoice_number") by discriminate.
  rewrite Hp, Hpo, Hpc, (has_column_new_label _ _ _ Hi),
    (has_column_renamed _ _ "invoice_number_inv" _ No Ho),
    (has_column_renamed _ _ "invoice_number_inv" _ Nc Hc).
  reflexivity.
Qed.

(** C9.  The merge is validated as one-to-one on both sides: when two
    invoice line items share [(invoice_number, order_id, customer_name)],
    just as when two purchase-order records do, [validate_invoices] raises
    instead of returning a report, and the exception is the [MergeError] of
    the merge whenever the call gets as far as that check (both
    [invoice_number] columns exist and convert to [int64], and both frames
    have the [order_id] and [customer_name] columns the merge looks up). *)
Theorem duplicate_keys_fail (invoices_df : DataFrame Inv.row) (po_df : DataFrame PO.row) :
  has_duplicate_invoice_key (rows invoices_df) \/ has_duplicate_po_key (rows po_df) ->
  (exists e, returned (validate_invoices invoices_df po_df) = Raised e)
  /\ (forall inv_rows po_rows,
        reaches_merge invoices_df po_df inv_rows po_rows ->
        has_key_labels invoices_df po_df ->
        exists msg,
          returned (validate_invoices invoices_df po_df) = Raised (MergeError msg)).
Proof.
  intro Hdup.
  assert (M : forall inv_rows po_rows,
             reaches_merge invoices_df po_df inv_rows po_rows ->
             exists msg, pd_merge inv_rows po_rows = Raised (MergeError msg)).
  { intros inv_rows po_rows (_ & Hinv & _ & Hpo).
    apply astype_inv_column_Ok in Hinv. apply astype_po_column_Ok in Hpo.
    apply pd_merge_not_unique.
    destruct Hdup as [Hd | Hd].
    - left. exact (duplicate_left_keys _ _ Hinv Hd).
    - right. exact (duplicate_right_keys _ _ Hpo Hd). }
  split.
  - destruct (validate_invoices_fails_or_merges invoices_df po_df)
      as [He | (inv_rows & po_rows & Hreach)]; [exact He |].
    rewrite (validate_invoices_at_merge _ _ _ _ Hreach). cbn [returned].
    destruct (M _ _ Hreach) as [msg Hmsg].
    exact (report_after_merge_Raised _ _ _ _ _ Hmsg).
  - intros inv_rows po_rows Hreach Hkeys.
    rewrite (validate_invoices_at_merge _ _ _ _ Hreach). cbn [returned].
    destruct (M _ _ Hreach) as [msg Hmsg]. exists msg.
    unfold report_after_merge.
    destruct Hreach as (Hi & _ & Hp & _).
    now rewrite (merge_keys_found _ _ Hi Hp Hkeys), Hmsg.
Qed.

(** The rows [analyze_invoices] builds for one invoice share their join
    key, so an invoice with two line items or more has a duplicate. *)
Lemma flatten_has_duplicate_key (pdf_file : string) (parsed_invoice : Parsed.invoice)
    (before after : list Inv.row) :
  2 <= List.length (get_default (Parsed.item_details parsed_invoice) []) ->
  has_duplicate_invoice_key (before ++ flatten pdf_file parsed_invoice ++ after).
Proof.
  unfold flatten.
  destruct (get_default (Parsed.item_details parsed_invoice) []) as [| x [| y items]];
    cbn [List.length]; try lia.
  intros _. cbn [map].
  exists (List.length before), (Datatypes.S (List.length before)).
  eexists. eexists. split; [lia |]. split; [| split].
  - rewrite nth_error_app2 by lia. rewrite Nat.sub_diag. reflexivity.
  - rewrite nth_error_app2 by lia.
    replace (Datatypes.S (List.length before) - List.length before) with 1 by lia.
    reflexivity.
  - cbn. auto.
Qed.

(** ** The frame effect of [validate_invoices] *)

(** C10.  [validate_invoices] mutates its arguments in place: on every
    call that gets as far as the merge, whether the merge then succeeds or
    raises, the caller's invoice frame ends with its [invoice_number]
    label renamed to [invoice_number_inv] and the cells of that column
    converted to [int64], the caller's purchase-order frame ends with the
    cells of its [invoice_number] column converted to [int64], and no
    other label, no other cell and no row of either frame is changed.  A
    call gets as far as the merge when both frames have the column and
    [astype(int)] accepts both columns. *)
Theorem validate_invoices_mutates_arguments (invoices_df : DataFrame Inv.row)
    (po_df : DataFrame PO.row) (inv_rows : list Inv.row) (po_rows : list PO.row) :
  reaches_merge invoices_df po_df inv_rows po_rows ->
  columns (invoices_after (validate_invoices invoices_df po_df))
  = map (fun label =>
           if String.eqb label "invoice_number" then "invoice_number_inv" else label)
        (columns invoices_df)
  /\ Forall2 inv_coerced_only (rows invoices_df)
             (rows (invoices_after (validate_invoices invoices_df po_df)))
  /\ columns (po_after (validate_invoices invoices_df po_df)) = columns po_df
  /\ Forall2 po_coerced_only (rows po_df)
             (rows (po_after (validate_invoices invoices_df po_df))).
Proof.
  intro Hreach. rewrite (validate_invoices_at_merge _ _ _ _ Hreach).
  cbn [invoices_after po_after columns rows].
  destruct Hreach as (_ & Hinv & _ & Hpo).
  apply astype_inv_column_Ok in Hinv. apply astype_po_column_Ok in Hpo.
  repeat split.
  - eapply Forall2_impl; [| exact Hinv]. intros r r' [z [Hz ->]].
    unfold inv_coerced_only. cbn. repeat split; try reflexivity. now exists z.
  - eapply Forall2_impl; [| exact Hpo]. intros p p' [z [Hz ->]].
    unfold po_coerced_only. cbn. repeat split; try reflexivity. now exists z.
Qed.

(** ** Running programs *)

Lemma run_bind {W A B} (h : Handler W) (p : Prog A) (f : A -> Prog B) (w : W) :
  run h (bind p f) w
  = match run h p w with
    | (Ok a, w1, calls1) =>
        let '(r, w2, calls2) := run h (f a) w1 in (r, w2, calls1 ++ calls2)
    | (Raised e, w1, calls1) => (Raised e, w1, calls1)
    end.
Proof.
  revert w. induction p as [a | e | payload k IH | prompt k IH]; intro w; cbn [bind run].
  - destruct (run h (f a) w) as [[r w2] calls2]. reflexivity.
  - reflexivity.
  - destruct (on_post h payload w) as [reply w1]. rewrite IH.
    destruct (run h (k reply) w1) as [[[a | e] w2] calls1]; [| reflexivity].
    destruct (run h (f a) w2) as [[r w3] calls2]. reflexivity.
  - destruct (on_generate_content h prompt w) as [reply w1]. rewrite IH.
    destruct (run h (k reply) w1) as [[[a | e] w2] calls1]; [| reflexivity].
    destruct (run h (f a) w2) as [[r w3] calls2]. reflexivity.
Qed.

Lemma for_each_pure {A S} (xs : list A) (s : S) (body : S -> A -> Prog S)
    (step : S -> A -> S) :
  (forall s x, In x xs -> body s x = Ret (step s x)) ->
  for_each xs s body = Ret (fold_left step xs s).
Proof.
  revert s. induction xs as [| x xs IH]; intros s H; cbn [for_each fold_left].
  - reflexivity.
  - rewrite H by now left. cbn [bind]. apply IH. intros s' x' Hin. apply H. now right.
Qed.

Lemma fold_left_append {A B} (c : A -> bool) (g : A -> B) (xs : list A) (s : list B) :
  fold_left (fun s x => if c x then s ++ [g x] else s) xs s
  = s ++ map g (filter c xs).
Proof.
  revert s. induction xs as [| x xs IH]; intro s; cbn [fold_left filter map].
  - now rewrite app_nil_r.
  - rewrite IH. destruct (c x); [| reflexivity].
    cbn [map]. now rewrite <- app_assoc.
Qed.

Lemma filter_nil {A} (f : A -> bool) (xs : list A) :
  (forall x, In x xs -> f x = false) -> filter f xs = [].
Proof.
  induction xs as [| x xs IH]; intro H; cbn [filter]; [reflexivity |].
  rewrite H by now left. apply IH. intros y Hy. apply H. now right.
Qed.

Lemma filter_filter {A} (f g : A -> bool) (xs : list A) :
  filter f (filter g xs) = filter (fun x => g x && f x) xs.
Proof.
  induction xs as [| x xs IH]; cbn [filter]; [reflexivity |].
  destruct (g x); cbn [filter andb]; [destruct (f x) |]; now rewrite IH.
Qed.

Lemma select_map {A} (f : A -> bool) (df : list A) :
  select df (map f df) = filter f df.
Proof.
  induction df as [| r df IH]; cbn [select map filter]; [reflexivity |].
  now rewrite IH.
Qed.

Lemma mask_and_map {A} (f g : A -> bool) (df : list A) :
  mask_and (map f df) (map g df) = map (fun r => f r && g r) df.
Proof.
  induction df as [| r df IH]; cbn [mask_and map]; [reflexivity | now rewrite IH].
Qed.

(** ** The two selection rules, row by row *)

Section TrackerFacts.

Variable to_datetime : string -> Result Datetime.
Variable now : Now.

Lemma due_dates_Ok (df : list Report.row) (dates : list (option string)) :
  due_dates to_datetime df = Ok dates -> dates = map (due_date_cell to_datetime) df.
Proof.
  unfold due_dates. revert dates.
  induction df as [| r df IH]; cbn [result_map map]; intros dates H.
  - now injection H as <-.
  - unfold due_date_cell at 1.
    destruct (to_datetime (Report.due_date r)) as [d |]; cbn [result_bind] in H;
      [| discriminate].
    destruct (result_map _ df) as [ds |]; cbn [result_bind] in H; [| discriminate].
    injection H as <-. f_equal. now apply IH.
Qed.

Lemma due_dates_app (a b : list Report.row) (dates : list (option string)) :
  due_dates to_datetime (a ++ b) = Ok dates ->
  (exists da, due_dates to_datetime a = Ok da)
  /\ (exists db, due_dates to_datetime b = Ok db).
Proof.
  unfold due_dates. revert dates.
  induction a as [| r a IH]; cbn [app result_map]; intros dates H.
  - split; eauto.
  - destruct (to_datetime (Report.due_date r)) as [d |]; cbn [result_bind] in *;
      [| discriminate].
    destruct (result_map _ (a ++ b)) as [ds |] eqn:E; cbn [result_bind] in H;
      [| discriminate].
    destruct (IH _ eq_refl) as [[da Ha] Hb]. rewrite Ha. cbn [result_bind].
    split; eauto.
Qed.

Lemma process_past_due_invoices_Ok (df : list Report.row) (log : list Log.entry)
    (dates : list (option string)) :
  due_dates to_datetime df = Ok dates ->
  process_past_due_invoices to_datetime now df log
  = Ret (map (previously_paid_entry now)
             (filter (fun r => past_due to_datetime now r && negb (already_paid log r)) df)).
Proof.
  intro Hd. unfold process_past_due_invoices. rewrite Hd. cbn [lift bind].
  rewrite (due_dates_Ok _ _ Hd), map_map, mask_and_map, select_map.
  rewrite (for_each_pure _ _ _
             (fun s row => if negb (already_paid log row)
                           then s ++ [previously_paid_entry now row] else s)).
  - rewrite fold_left_append, filter_filter. reflexivity.
  - intros s row _. destruct (negb (already_paid log row)); reflexivity.
Qed.

Lemma process_past_due_invoices_Raised (df : list Report.row) (log : list Log.entry)
    (e : Exn) :
  due_dates to_datetime df = Raised e ->
  process_past_due_invoices to_datetime now df log = Raise e.
Proof. intro Hd. unfold process_past_due_invoices. now rewrite Hd. Qed.

Lemma process_todays_invoices_Ok (df : list Report.row) (log : list Log.entry)
    (dates : list (option string)) :
  due_dates to_datetime df = Ok dates ->
  process_todays_invoices to_datetime now df log
  = for_each (filter (due_today to_datetime now) df) [] (todays_body to_datetime now log).
Proof.
  intro Hd. unfold process_todays_invoices. rewrite Hd. cbn [lift bind].
  rewrite (due_dates_Ok _ _ Hd), map_map, select_map. reflexivity.
Qed.

Lemma process_todays_invoices_Raised (df : list Report.row) (log : list Log.entry)
    (e : Exn) :
  due_dates to_datetime df = Raised e ->
  process_todays_invoices to_datetime now df log = Raise e.
Proof. intro Hd. unfold process_todays_invoices. now rewrite Hd. Qed.

End TrackerFacts.

(** ** One payment action *)

Lemma already_paid_In (log : list Log.entry) (r : Report.row) :
  already_paid log r = true <-> In (row_identity r) (map entry_identity log).
Proof.
  unfold already_paid.
  induction log as [| e log IH]; cbn [filter map In].
  - cbn. split; [discriminate | contradiction].
  - destruct (String.eqb (Log.order_id e) (Report.order_id r)
              && String.eqb (Log.customer_name e) (Report.customer_name r)) eqn:E.
    + cbn. split; [intros _ | reflexivity]. left.
      apply andb_true_iff in E. destruct E as [E1 E2].
      apply String.eqb_eq in E1. apply String.eqb_eq in E2.
      unfold entry_identity, row_identity. now rewrite E1, E2.
    + rewrite IH. split; [now right |]. intros [H | H]; [| exact H].
      unfold entry_identity, row_identity in H. injection H as H1 H2.
      rewrite H1, H2, !String.eqb_refl in E. discriminate.
Qed.

Lemma already_paid_app (log entries : list Log.entry) (r : Report.row) :
  already_paid (log ++ entries) r = already_paid log r || already_paid entries r.
Proof.
  unfold already_paid. rewrite filter_app.
  destruct (filter _ log); destruct (filter _ entries); reflexivity.
Qed.

Lemma create_auto_identity {W} (h : Handler W) (now : Now) (row : Report.row) (w w' : W)
    (e : Log.entry) (calls : list Event) :
  run h (create_payment_log_entry now row "auto") w = (Ok e, w', calls) ->
  entry_identity e = row_identity row.
Proof.
  run_auto h w; intro H; try discriminate.
  injection H as <- _ _. reflexivity.
Qed.

Lemma create_auto_failure_raises {W} (h : Handler W) (now : Now) (row : Report.row) (w : W) :
  failure_raises (run h (create_payment_log_entry now row "auto") w).
Proof.
  unfold failure_raises.
  run_auto h w; cbn [fst snd In]; intros payload reply Hin Hfail;
    repeat match goal with
           | H : _ \/ _ |- _ => destruct H
           | H : False |- _ => contradiction
           | H : EvPost _ _ = EvPost _ _ |- _ => injection H as <- <-
           | H : EvGenerateContent _ _ = EvPost _ _ |- _ => discriminate
           end;
    try (eexists; reflexivity);
    cbn [post_failed] in Hfail;
    match goal with
    | E : is_error_status _ = false |- _ => rewrite E in Hfail
    end; discriminate.
Qed.

Lemma failure_raises_bind {W A B} (h : Handler W) (p : Prog A) (f : A -> Prog B) (w : W) :
  failure_raises (run h p w) ->
  (forall a w1, failure_raises (run h (f a) w1)) ->
  failure_raises (run h (bind p f) w).
Proof.
  intros Hp Hf. rewrite run_bind. unfold failure_raises in *.
  destruct (run h p w) as [[[a | e] w1] calls1]; cbn [fst snd] in *.
  - specialize (Hf a w1). destruct (run h (f a) w1) as [[r w2] calls2].
    cbn [fst snd] in *. intros payload reply Hin Hfail.
    apply in_app_or in Hin. destruct Hin as [Hin | Hin].
    + destruct (Hp _ _ Hin Hfail) as [msg Hmsg]. discriminate.
    + exact (Hf _ _ Hin Hfail).
  - intros payload reply Hin Hfail.
    destruct (Hp _ _ Hin Hfail) as [msg Hmsg]. injection Hmsg as ->. now exists msg.
Qed.

Lemma failure_raises_pure {W A} (h : Handler W) (p : Prog A) (w : W) :
  (exists a, p = Ret a) \/ (exists e, p = Raise e) -> failure_raises (run h p w).
Proof.
  intros [[a ->] | [e ->]]; unfold failure_raises; cbn; contradiction.
Qed.

Lemma failure_raises_for_each {W A S} (h : Handler W) (body : S -> A -> Prog S)
    (xs : list A) (s : S) (w : W) :
  (forall s x w, failure_raises (run h (body s x) w)) ->
  failure_raises (run h (for_each xs s body) w).
Proof.
  intro Hb. revert s w. induction xs as [| x xs IH]; intros s w; cbn [for_each].
  - apply failure_raises_pure. left. eauto.
  - apply failure_raises_bind; [apply Hb |]. intros s' w1. apply IH.
Qed.

Section PassFacts.

Variable to_datetime : string -> Result Datetime.
Variable now : Now.

Lemma todays_body_failure_raises {W} (h : Handler W) (log s : list Log.entry)
    (row : Report.row) (w : W) :
  failure_raises (run h (todays_body to_datetime now log s row) w).
Proof.
  unfold todays_body.
  destruct (String.eqb (Report.validation_status row) "VALID");
    [| apply failure_raises_pure; left; eauto].
  destruct (negb (already_paid log row));
    [| apply failure_raises_pure; left; eauto].
  apply failure_raises_bind; [apply create_auto_failure_raises |].
  intros a w1. apply failure_raises_pure. left. eauto.
Qed.

Lemma tracker_entries_failure_raises {W} (h : Handler W) (df : list Report.row)
    (log : list Log.entry) (w : W) :
  failure_raises (run h (tracker_entries to_datetime now df log) w).
Proof.
  unfold tracker_entries, tracker_entries_at.
  destruct (due_dates to_datetime df) as [dates | e] eqn:Hd.
  - rewrite (process_past_due_invoices_Ok _ _ _ _ _ Hd). cbn [bind].
    rewrite (process_todays_invoices_Ok _ _ _ _ _ Hd).
    apply failure_raises_bind.
    + apply failure_raises_for_each. intros. apply todays_body_failure_raises.
    + intros a w1. apply failure_raises_pure. left. eauto.
  - rewrite (process_past_due_invoices_Raised _ _ _ _ _ Hd). cbn [bind].
    apply failure_raises_pure. right. eauto.
Qed.

(** The identities of the entries the loop of [process_todays_invoices]
    adds are those of the rows it pays, in order. *)
Lemma todays_loop_identities {W} (h : Handler W) (log : list Log.entry)
    (rs : list Report.row) (s entries : list Log.entry) (w w' : W) (calls : list Event) :
  run h (for_each rs s (todays_body to_datetime now log)) w = (Ok entries, w', calls) ->
  map entry_identity entries
  = map entry_identity s
    ++ map row_identity (filter (fun r => is_valid r && negb (already_paid log r)) rs).
Proof.
  revert s w w' calls.
  induction rs as [| r rs IH]; intros s w w' calls; cbn [for_each filter].
  - cbn [run]. intro H. injection H as <- _ _. cbn [map]. now rewrite app_nil_r.
  - rewrite run_bind. unfold todays_body at 1. unfold is_valid at 1.
    destruct (String.eqb (Report.validation_status r) "VALID"); cbn [andb].
    + destruct (negb (already_paid log r)).
      * rewrite run_bind.
        destruct (run h (create_payment_log_entry now r "auto") w)
          as [[[e | ex] w1] calls1] eqn:C; [| discriminate].
        cbn [run].
        destruct (run h (for_each rs (s ++ [e]) (todays_body to_datetime now log)) w1)
          as [[res w2] calls2] eqn:R.
        intro H. injection H as -> _ _.
        rewrite (IH _ _ _ _ R), map_app. cbn [map].
        rewrite (create_auto_identity _ _ _ _ _ _ _ C), <- app_assoc. reflexivity.
      * cbn [run].
        destruct (run h (for_each rs s (todays_body to_datetime now log)) w)
          as [[res w2] calls2] eqn:R.
        intro H. injection H as -> _ _. exact (IH _ _ _ _ R).
    + cbn [run].
      destruct (run h (for_each rs s (todays_body to_datetime now log)) w)
        as [[res w2] calls2] eqn:R.
      intro H. injection H as -> _ _. exact (IH _ _ _ _ R).
Qed.

(** What a successful run of the tracker emitted. *)
Lemma tracker_entries_Ok {W} (h : Handler W) (df : list Report.row)
    (log entries : list Log.entry) (w w' : W) (calls : list Event) :
  run h (tracker_entries to_datetime now df log) w = (Ok entries, w', calls) ->
  (exists dates, due_dates to_datetime df = Ok dates)
  /\ map entry_identity entries
     = map row_identity
         (filter (fun r => past_due to_datetime now r && negb (already_paid log r)) df)
       ++ map row_identity
            (filter (fun r => due_today to_datetime now r
                              && (is_valid r && negb (already_paid log r))) df).
Proof.
  unfold tracker_entries, tracker_entries_at.
  destruct (due_dates to_datetime df) as [dates | e] eqn:Hd.
  - rewrite (process_past_due_invoices_Ok _ _ _ _ _ Hd). cbn [bind].
    rewrite (process_todays_invoices_Ok _ _ _ _ _ Hd), run_bind.
    destruct (run h (for_each _ [] (todays_body to_datetime now log)) w)
      as [[[es | ex] w1] calls1] eqn:R; [| discriminate].
    cbn [run]. intro H. injection H as <- _ _.
    split; [eauto |].
    rewrite map_app, map_map, (todays_loop_identities _ _ _ _ _ _ _ _ R), filter_filter.
    reflexivity.
  - rewrite (process_past_due_invoices_Raised _ _ _ _ _ Hd). cbn [bind run].
    discriminate.
Qed.

End PassFacts.

Lemma for_each_skip {A S} (xs : list A) (s : S) (body : S -> A -> Prog S) :
  (forall s x, In x xs -> body s x = Ret s) -> for_each xs s body = Ret s.
Proof.
  induction xs as [| x xs IH]; intro H; cbn [for_each]; [reflexivity |].
  rewrite H by now left. cbn [bind]. apply IH. intros s' x' Hin. apply H. now right.
Qed.

Lemma ltb_not_eqb (a b : string) : String.ltb a b = true -> String.eqb a b = false.
Proof.
  unfold String.ltb. intro H. apply String.eqb_neq. intros ->.
  pose proof (String.compare_antisym b b) as Hs.
  destruct (String.compare b b); cbn in Hs; discriminate.
Qed.

Lemma past_due_not_due_today (to_datetime : string -> Result Datetime) (now : Now)
    (r : Report.row) :
  past_due to_datetime now r = true -> due_today to_datetime now r = false.
Proof.
  unfold past_due, due_today. intro H. apply andb_true_iff in H. destruct H as [H _].
  destruct (due_date_cell to_datetime r) as [c |]; cbn [str_lt str_eq] in *;
    [now apply ltb_not_eqb | reflexivity].
Qed.

Lemma create_previous (now : Now) (row : Report.row) :
  create_payment_log_entry now row "previous" = Ret (previously_paid_entry now row).
Proof. reflexivity. Qed.

(** C1.  Idempotence of the payment state tracker: when a run of the
    tracker ([process_past_due_invoices] followed by
    [process_todays_invoices]) on a report against a log returns its
    entries, whatever the outside world answered, the tracker run again at
    the same date on the same report against the log with those entries
    appended is the program that returns no entry: it emits nothing and
    calls neither the payment endpoint nor the language model. *)
Theorem tracker_idempotent {W} (to_datetime : string -> Result Datetime) (now : Now)
    (h : Handler W) (validation_report_df : list Report.row)
    (existing_log_df entries : list Log.entry) (w w' : W) (calls : list Event) :
  run h (tracker_entries to_datetime now validation_report_df existing_log_df) w
  = (Ok entries, w', calls) ->
  tracker_entries to_datetime now validation_report_df (existing_log_df ++ entries)
  = Ret [].
Proof.
  intro H.
  destruct (tracker_entries_Ok _ _ _ _ _ _ _ _ _ H) as [[dates Hd] Hid].
  assert (Hpaid : forall r,
    past_due to_datetime now r = true
    \/ (due_today to_datetime now r = true /\ is_valid r = true) ->
    In r validation_report_df ->
    already_paid (existing_log_df ++ entries) r = true).
  { intros r Hsel Hin. rewrite already_paid_app.
    destruct (already_paid existing_log_df r) eqn:P; [reflexivity |].
    cbn [orb]. apply already_paid_In. rewrite Hid. apply in_or_app.
    destruct Hsel as [Hp | [Ht Hv]]; [left | right];
      apply in_map; apply filter_In; split; try assumption.
    - now rewrite Hp, P.
    - now rewrite Ht, Hv, P. }
  unfold tracker_entries, tracker_entries_at.
  rewrite (process_past_due_invoices_Ok _ _ _ _ _ Hd), filter_nil.
  - cbn [map bind]. rewrite (process_todays_invoices_Ok _ _ _ _ _ Hd), for_each_skip.
    + reflexivity.
    + intros s r Hin. apply filter_In in Hin. destruct Hin as [Hin Ht].
      unfold todays_body.
      destruct (String.eqb (Report.validation_status r) "VALID") eqn:V; [| reflexivity].
      rewrite Hpaid; [reflexivity | | assumption]. right. auto.
  - intros r Hin. destruct (past_due to_datetime now r) eqn:Hp; [| reflexivity].
    rewrite Hpaid; [reflexivity | | assumption]. now left.
Qed.

(** C4.  Past-due backfill: in a report whose due dates all parse, a VALID
    row due strictly before today, with no entry of the existing log under
    its [(order_id, customer_name)], gets exactly one new entry, placed
    between the entries of the rows before it and those of the rows after
    it; the entry has [payment_mode] "PreviouslyPaid", [transaction_id]
    "PREVIOUSLY_PAID", [status] "SUCCESS" and [message] "Auto-paid
    earlier"; and no call to the payment processor is made for the row:
    [process_past_due_invoices] makes no call at all and the due-today
    rule, the only one that pays, does not select the row. *)
Theorem past_due_backfill (to_datetime : string -> Result Datetime) (now : Now)
    (before after : list Report.row) (row : Report.row)
    (existing_log_df : list Log.entry) (dates : list (option string)) (d : Date) :
  due_dates to_datetime (before ++ row :: after) = Ok dates ->
  to_datetime (Report.due_date row) = Ok (Timestamp d) ->
  String.ltb (strftime d) (strftime (now_date now)) = true ->
  Report.validation_status row = "VALID" ->
  (forall e, In e existing_log_df ->
     ~ (Log.order_id e = Report.order_id row
        /\ Log.customer_name e = Report.customer_name row)) ->
  exists entries_before entries_after entry,
    process_past_due_invoices to_datetime now before existing_log_df
    = Ret entries_before
    /\ process_past_due_invoices to_datetime now after existing_log_df
       = Ret entries_after
    /\ process_past_due_invoices to_datetime now (before ++ row :: after) existing_log_df
       = Ret (entries_before ++ entry :: entries_after)
    /\ Log.order_id entry = Report.order_id row
    /\ Log.customer_name entry = Report.customer_name row
    /\ Log.payment_mode entry = "PreviouslyPaid"
    /\ Log.transaction_id entry = "PREVIOUSLY_PAID"
    /\ Log.status entry = "SUCCESS"
    /\ Log.message entry = "Auto-paid earlier"
    /\ due_today to_datetime now row = false
    /\ forall W (h : Handler W) (w : W),
         run h (process_past_due_invoices to_datetime now (before ++ row :: after)
                  existing_log_df) w
         = (Ok (entries_before ++ entry :: entries_after), w, []).
Proof.
  intros Hd Hrow Hlt Hvalid Hlog.
  destruct (due_dates_app _ _ _ _ Hd) as [[db Hdb] [dr Hdr]].
  destruct (due_dates_app to_datetime [row] after dr Hdr) as [_ [da Hda]].
  assert (Hp : past_due to_datetime now row = true).
  { unfold past_due, due_date_cell, is_valid. rewrite Hrow, Hvalid. cbn [dt_strftime str_lt].
    rewrite Hlt. reflexivity. }
  assert (Hn : already_paid existing_log_df row = false).
  { destruct (already_paid existing_log_df row) eqn:P; [| reflexivity].
    apply already_paid_In in P. apply in_map_iff in P. destruct P as [e [He Hin]].
    exfalso. apply (Hlog e Hin). unfold entry_identity, row_identity in He.
    injection He as H1 H2. auto. }
  exists (map (previously_paid_entry now)
            (filter (fun r => past_due to_datetime now r
                              && negb (already_paid existing_log_df r)) before)),
         (map (previously_paid_entry now)
            (filter (fun r => past_due to_datetime now r
                              && negb (already_paid existing_log_df r)) after)),
         (previously_paid_entry now row).
  assert (E : process_past_due_invoices to_datetime now (before ++ row :: after)
                existing_log_df
              = Ret (map (previously_paid_entry now)
                       (filter (fun r => past_due to_datetime now r
                                         && negb (already_paid existing_log_df r)) before)
                     ++ previously_paid_entry now row
                        :: map (previously_paid_entry now)
                             (filter (fun r => past_due to_datetime now r
                                               && negb (already_paid existing_log_df r))
                                     after))).
  { rewrite (process_past_due_invoices_Ok _ _ _ _ _ Hd), filter_app. cbn [filter].
    rewrite Hp, Hn. cbn [andb negb]. rewrite map_app. reflexivity. }
  split; [exact (process_past_due_invoices_Ok _ _ _ _ _ Hdb) |].
  split; [exact (process_past_due_invoices_Ok _ _ _ _ _ Hda) |].
  split; [exact E |].
  repeat (split; [reflexivity |]).
  split; [now apply past_due_not_due_today |].
  intros W h w. rewrite E. reflexivity.
Qed.

(** ** The accumulator and the scope of a payment failure *)

(** C8.  The payment log accumulator is pure concatenation: for every world,
    report and payment-log file, a pass that does not raise writes the
    existing entries, in their order, followed by the entries the tracker
    emitted in this pass, in the order of their emission, and nothing
    else; no earlier entry is dropped, rewritten or deduplicated.  (A pass
    that raises writes nothing.) *)
Theorem payment_log_is_appended {W} (to_datetime : string -> Result Datetime)
    (h : Handler W) (now : Now) (validation_report_df : list Report.row)
    (payment_log_csv : option (list Log.entry)) (w : W) :
  run_pass to_datetime h now validation_report_df payment_log_csv w
  = match run h (tracker_entries to_datetime now validation_report_df
                   (load_existing_payment_log payment_log_csv)) w with
    | (Ok new_entries, w', calls) =>
        (Some (load_existing_payment_log payment_log_csv ++ new_entries), None, w', calls)
    | (Raised e, w', calls) => (payment_log_csv, Some e, w', calls)
    end.
Proof.
  unfold run_pass, process_payments_and_past_due;
    unfold process_payments_and_past_due_at;
    change (tracker_entries_at to_datetime now now) with (tracker_entries to_datetime now).
  rewrite run_bind.
  destruct (run h (tracker_entries to_datetime now validation_report_df
                     (load_existing_payment_log payment_log_csv)) w)
    as [[[new_entries | e] w'] calls]; [| reflexivity].
  cbn [run]. rewrite app_nil_r. unfold concat.
  destruct new_entries as [| e new_entries].
  - now rewrite app_nil_r.
  - destruct (load_existing_payment_log payment_log_csv); reflexivity.
Qed.

(** C6, as the code has it.  In every pass in which a call to the payment
    endpoint fails, the pass ends with a [RuntimeError] and the payment-log
    file is left as it was: the row whose payment failed has no entry (so
    a later pass selects it again), and neither has any other row of this
    pass. *)
Theorem failed_payment_aborts_pass {W} (to_datetime : string -> Result Datetime)
    (h : Handler W) (now : Now) (validation_report_df : list Report.row)
    (payment_log_csv written : option (list Log.entry)) (exn : option Exn)
    (w w' : W) (calls : list Event) (payload : PaymentRequest) (reply : HttpReply) :
  run_pass to_datetime h now validation_report_df payment_log_csv w
  = (written, exn, w', calls) ->
  In (EvPost payload reply) calls ->
  post_failed reply = true ->
  written = payment_log_csv /\ exists msg, exn = Some (RuntimeError msg).
Proof.
  unfold run_pass, process_payments_and_past_due;
    unfold process_payments_and_past_due_at;
    change (tracker_entries_at to_datetime now now) with (tracker_entries to_datetime now).
  intros Hrun Hin Hfail.
  assert (F : failure_raises
    (run h (all_entries <- tracker_entries to_datetime now validation_report_df
                             (load_existing_payment_log payment_log_csv) ;;
            Ret match all_entries with
                | [] => load_existing_payment_log payment_log_csv
                | _ :: _ =>
                    if empty (load_existing_payment_log payment_log_csv)
                    then all_entries
                    else concat (load_existing_payment_log payment_log_csv) all_entries
                end) w)).
  { apply failure_raises_bind; [apply tracker_entries_failure_raises |].
    intros a w1. apply failure_raises_pure. left. eauto. }
  unfold failure_raises in F.
  destruct (run h _ w) as [[[log | e] w1] calls1]; cbn [fst snd] in F;
    injection Hrun as <- <- <- <-.
  - destruct (F _ _ Hin Hfail) as [msg Hmsg]. discriminate.
  - destruct (F _ _ Hin Hfail) as [msg Hmsg]. injection Hmsg as ->.
    split; [reflexivity | now exists msg].
Qed.

(** ** At most one entry per identity *)

Lemma filter_implied {A} (p v : A -> bool) (xs : list A) :
  (forall x, p x = true -> v x = true) -> filter p xs = filter p (filter v xs).
Proof.
  intro H. rewrite filter_filter. apply filter_ext. intro x.
  destruct (p x) eqn:P; [rewrite (H x P) |]; now rewrite ?andb_false_r.
Qed.

Lemma NoDup_map_filter_disjoint {A B} (g : A -> B) (p q : A -> bool) (xs : list A) :
  (forall x, p x = true -> q x = true -> False) ->
  NoDup (map g xs) ->
  NoDup (map g (filter p xs) ++ map g (filter q xs)).
Proof.
  intro Hpq. induction xs as [| x xs IH]; cbn [map filter]; intro Hnd.
  - constructor.
  - inversion Hnd as [| ? ? Hnin Hnd']; subst. specialize (IH Hnd').
    assert (Hout : ~ In (g x) (map g (filter p xs) ++ map g (filter q xs))).
    { intro Hin. apply Hnin. apply in_app_or in Hin.
      destruct Hin as [Hin | Hin]; apply in_map_iff in Hin;
        destruct Hin as [y [Hy Hin]]; apply filter_In in Hin;
        rewrite <- Hy; apply in_map; tauto. }
    destruct (p x) eqn:P; destruct (q x) eqn:Q; cbn [map app].
    + exfalso. exact (Hpq x P Q).
    + constructor; assumption.
    + apply (NoDup_Add (Add_app (g x) _ _)). auto.
    + exact IH.
Qed.

(** C5, as the code has it.  The tracker looks for an identity in the log
    read at the start of the pass only, so it keeps identities apart only
    when the report does: if no two VALID rows of the report share an
    [(order_id, customer_name)], the entries a pass emits have pairwise
    different identities, none of them is an identity of the existing log,
    and a log with at most one entry per identity still has at most one
    after the pass. *)
Theorem one_entry_per_identity {W} (to_datetime : string -> Result Datetime) (now : Now)
    (h : Handler W) (validation_report_df : list Report.row)
    (existing_log_df entries : list Log.entry) (w w' : W) (calls : list Event) :
  run h (tracker_entries to_datetime now validation_report_df existing_log_df) w
  = (Ok entries, w', calls) ->
  NoDup (map row_identity (filter is_valid validation_report_df)) ->
  NoDup (map entry_identity entries)
  /\ (forall e, In e entries ->
        ~ In (entry_identity e) (map entry_identity existing_log_df))
  /\ (NoDup (map entry_identity existing_log_df) ->
      NoDup (map entry_identity (existing_log_df ++ entries))).
Proof.
  intros H Hnd.
  destruct (tracker_entries_Ok _ _ _ _ _ _ _ _ _ H) as [_ Hid].
  assert (Hnew : forall e, In e entries ->
            ~ In (entry_identity e) (map entry_identity existing_log_df)).
  { intros e He Hin. apply (in_map entry_identity) in He. rewrite Hid in He.
    apply in_app_or in He.
    destruct He as [He | He]; apply in_map_iff in He; destruct He as [r [Hr Hsel]];
      apply filter_In in Hsel; destruct Hsel as [_ Hsel];
      rewrite <- Hr in Hin; apply already_paid_In in Hin; rewrite Hin in Hsel;
      cbn in Hsel; rewrite ?andb_false_r in Hsel; discriminate. }
  assert (Hents : NoDup (map entry_identity entries)).
  { rewrite Hid.
    rewrite (filter_implied _ is_valid validation_report_df),
            (filter_implied (fun r => due_today to_datetime now r && _) is_valid
                            validation_report_df).
    - apply NoDup_map_filter_disjoint; [| exact Hnd].
      intros r P Q. apply andb_true_iff in P. destruct P as [P _].
      apply andb_true_iff in Q. destruct Q as [Q _].
      rewrite (past_due_not_due_today _ _ _ P) in Q. discriminate.
    - intros r Q. apply andb_true_iff in Q. destruct Q as [_ Q].
      apply andb_true_iff in Q. tauto.
    - intros r P. apply andb_true_iff in P. destruct P as [P _].
      unfold past_due in P. apply andb_true_iff in P. tauto. }
  split; [exact Hents |]. split; [exact Hnew |].
  intro Hlog. rewrite map_app. apply NoDup_app; try assumption.
  intros a Ha Hb. apply in_map_iff in Hb. destruct Hb as [e [He Hin]].
  apply (Hnew e Hin). now rewrite He.
Qed.

(** ** Exhausted retries and the extraction loop *)

(** When every call of the SDK fails, the client gives up after
    [max_retries] calls and answers [None]. *)
Lemma generate_content_exhausted {S} (sdk : string -> Prompt -> S -> option string * S)
    (prompt : Prompt) (max_retries : nat) (self : GeminiMultiKeyClient) (s : S) :
  (forall key s, fst (sdk key prompt s) = None) ->
  fst (fst (generate_content sdk max_retries self prompt s)) = None.
Proof.
  intro Hfail. revert self s.
  induction max_retries as [| n IH]; intros self s; cbn [generate_content].
  - reflexivity.
  - specialize (Hfail (nth (current_key_index self) (api_keys self) "") s).
    destruct (sdk _ prompt s) as [[text |] s1]; cbn [fst] in Hfail;
      [discriminate | apply IH].
Qed.

(** One call of [parse_invoice_with_genai], by the answer it got. *)
Lemma run_parse_cleaned {W} (json_loads : string -> option JsonValue)
    (h : Handler W) (text : string) (w : W) :
  run h (parse_invoice_with_genai json_loads text) w
  = match on_generate_content h (ExtractionPrompt text) w with
    | (None, w1) => (Ok JNull, w1, [EvGenerateContent (ExtractionPrompt text) None])
    | (Some response_text, w1) =>
        (match json_loads (clean_json_output response_text) with
         | Some invoice_data => Ok invoice_data
         | None => Raised (ValueError "Failed to parse JSON response from Gemini API")
         end, w1, [EvGenerateContent (ExtractionPrompt text) (Some response_text)])
    end.
Proof.
  unfold parse_invoice_with_genai, clean_json_output. cbn [run].
  destruct (on_generate_content h (ExtractionPrompt text) w) as [[response_text |] w1];
    [| reflexivity].
  destruct (json_loads _); reflexivity.
Qed.

(** C7, as the code has it.  When the client is exhausted for one invoice
    ([parse_invoice_with_genai] returns [None]), the loop does not crash,
    and it stops there: if the PDFs listed before the invoice were all
    extracted (the batch over them returns, no call of it found the client
    exhausted and no answer was [null], which stops the loop in the same
    way) and gave [rows_before], the batch returns exactly [rows_before],
    and the run makes no call after the failed one; the affected invoice
    and every PDF listed after it give no row. *)
Theorem extraction_exhaustion_stops_batch {W}
    (json_loads : string -> option JsonValue) (h : Handler W)
    (before after : list (string * string)) (pdf_file raw_text : string)
    (rows_before : list Inv.row) (w w1 w2 : W) (calls1 : list Event) :
  run h (analyze_invoices json_loads before) w = (Ok rows_before, w1, calls1) ->
  none_exhausted calls1 ->
  no_null_answer json_loads calls1 ->
  endswith pdf_file ".pdf" = true ->
  on_generate_content h (ExtractionPrompt raw_text) w1 = (None, w2) ->
  run h (analyze_invoices json_loads (before ++ (pdf_file, raw_text) :: after)) w
  = (Ok rows_before, w2,
     calls1 ++ [EvGenerateContent (ExtractionPrompt raw_text) None]).
Proof.
  unfold analyze_invoices. generalize (@nil Inv.row) as parsed_invoices.
  intro parsed_invoices. revert parsed_invoices w calls1.
  induction before as [| [f t] before IH];
    intros parsed_invoices w calls1 Hrun Hnone Hnull Hpdf Hgen;
    cbn [app analyze_loop] in *.
  - cbn [run] in Hrun. injection Hrun as <- <- <-.
    rewrite Hpdf, run_bind, run_parse_cleaned, Hgen. reflexivity.
  - destruct (endswith f ".pdf"); [| now apply IH].
    rewrite run_bind, run_parse_cleaned in Hrun. rewrite run_bind, run_parse_cleaned.
    destruct (on_generate_content h (ExtractionPrompt t) w) as [[response_text |] w0].
    + destruct (json_loads (clean_json_output response_text))
        as [[invoice_data | | | | | |] |] eqn:J; cbn [run] in Hrun; try discriminate.
      * destruct (run h (analyze_loop json_loads before
                           (parsed_invoices ++ flatten f invoice_data)) w0)
          as [[res w3] calls3] eqn:L.
        injection Hrun as -> -> <-.
        rewrite (IH _ _ _ L); [reflexivity | | | assumption | assumption].
        -- intros prompt Hin. apply (Hnone prompt). now right.
        -- intros prompt response Hin. apply (Hnull prompt response). now right.
      * injection Hrun as _ _ <-. exfalso.
        apply (Hnull (ExtractionPrompt t) response_text); [now left | exact J].
    + cbn [run] in Hrun. injection Hrun as _ _ <-. exfalso.
      apply (Hnone (ExtractionPrompt t)). now left.
Qed.

(** ** The statements at sample inputs *)

(** The reason ordering and the exact match of section 8 of the
    specification (the rate is taken as 63.5, which binary64 holds
    exactly). *)
Example reason_ordering :
  spec_classify
    (Joined.mk (sample_invoice 1 "O-1" "Acme" "Jan 05 2024"
                  150%float 63.5%float 9466.5%float 9466.5%float)
               (CInt 1) 100%float 63.5%float 6311%float)
  = Merged.mk
      (Joined.mk (sample_invoice 1 "O-1" "Acme" "Jan 05 2024"
                    150%float 63.5%float 9466.5%float 9466.5%float)
                 (CInt 1) 100%float 63.5%float 6311%float)
      "Quantity Mismatch, Overbilling" "INVALID".
Proof. reflexivity. Qed.

Example exact_match :
  map (fun r => (Report.validation_result r, Report.validation_status r))
      (match returned (validate_invoices two_invoices_one_order two_purchase_orders) with
       | Ok report => report
       | Raised _ => []
       end)
  = [("Match", "VALID"); ("Match", "VALID")].
Proof. vm_compute. reflexivity. Qed.

(** The conversion of invoice numbers at the edge of [int64]: a numeral
    of [2 ^ 63] does not fit, a column of integers from [2 ^ 63] on is a
    [uint64] column and wraps, the same integer next to a negative one is
    a Python integer and does not fit, and [int] does not skip the
    separator of code 28, which [str.strip] does. *)
Example numeral_beyond_int64 :
  exists msg,
    astype_int_column Inv.invoice_number Inv.set_invoice_number
      [sample_invoice 1 "O-1" "Acme" "Jan 05 2024" 1%float 1%float 1%float 1%float;
       Inv.set_invoice_number (CStr "9223372036854775808")
         (sample_invoice 2 "O-2" "Bolt" "Jan 05 2024" 1%float 1%float 1%float 1%float)]
    = Raised (OverflowError msg).
Proof. eexists. vm_compute. reflexivity. Qed.

Example uint64_column_wraps :
  map PO.invoice_number
    (match astype_int_column PO.invoice_number PO.set_invoice_number
             [sample_po (2 ^ 63) "O-1" "Acme" 1%float 1%float 1%float;
              sample_po 7 "O-2" "Bolt" 1%float 1%float 1%float] with
     | Ok po_rows => po_rows
     | Raised _ => []
     end)
  = [CInt (- 2 ^ 63); CInt 7].
Proof. vm_compute. reflexivity. Qed.

Example mixed_signs_do_not_fit :
  exists msg,
    astype_int_column PO.invoice_number PO.set_invoice_number
      [sample_po (2 ^ 63) "O-1" "Acme" 1%float 1%float 1%float;
       sample_po (- 7) "O-2" "Bolt" 1%float 1%float 1%float]
    = Raised (OverflowError msg).
Proof. eexists. vm_compute. reflexivity. Qed.

Example separator_is_not_skipped :
  strip (String (ascii_of_nat 28) "5") = "5"
  /\ int_of_string (String (ascii_of_nat 28) "5") = None
  /\ int_of_string (String (ascii_of_nat 9) " 5_0 ") = Some 50%Z.
Proof. vm_compute. repeat split. Qed.

(** A frame without the [order_id] column, and duplicate keys in it: the
    merge raises [KeyError] when it looks the key up, before it checks
    that the keys are unique. *)
Example missing_key_label_comes_first :
  returned
    (validate_invoices
       (mkDataFrame (filter (fun l => negb (String.eqb l "order_id"))
                            (columns two_invoices_one_order))
                    (rows two_invoices_one_order ++ rows two_invoices_one_order))
       two_purchase_orders)
  = Raised (KeyError "order_id").
Proof. vm_compute. reflexivity. Qed.

(** An answer [null] ends the batch as an exhausted client does, and an
    answer that is an array raises. *)
Example null_answer_ends_batch :
  run (mkHandler (fun _ w => (ConnectionError, w))
                 (fun prompt w =>
                    match prompt with
                    | ExtractionPrompt "text of a.pdf" => (Some "json of a.pdf", w)
                    | _ => (Some "```json null ```", w)
                    end))
      (analyze_invoices sample_json_loads
         (sample_folder ++ [("c.pdf", "text of c.pdf")])) tt
  = (Ok (flatten "a.pdf" (sample_parsed 1 "O-1" "Acme")), tt,
     [EvGenerateContent (ExtractionPrompt "text of a.pdf") (Some "json of a.pdf");
      EvGenerateContent (ExtractionPrompt "text of b.pdf") (Some "```json null ```")]).
Proof. vm_compute. reflexivity. Qed.

Example array_answer_raises :
  exists msg,
    fst (fst (run (mkHandler (fun _ w => (ConnectionError, w))
                             (fun _ w => (Some "[]", w)))
                  (analyze_invoices (fun _ => Some JArray) sample_folder) tt))
    = Raised (TypeError msg).
Proof. eexists. vm_compute. reflexivity. Qed.

(** The two readings of the clock of a pass on either side of midnight:
    the row due on the 10th is neither past due at the first reading nor
    due today at the second, and the pass leaves it without an entry. *)
Example midnight_between_readings :
  run accepting_endpoint
      (process_payments_and_past_due_at sample_to_datetime sample_now
         (mkNow (mkDate 2024 1 11) "2024-01-11T00:00:00") sample_report None) tt
  = (Ok [previously_paid_entry sample_now row_past_due], tt, [])
  /\ already_paid [previously_paid_entry sample_now row_past_due] row_due_today = false.
Proof. vm_compute. split; reflexivity. Qed.

Lemma tracker_idempotent_witness :
  run accepting_endpoint (tracker_entries sample_to_datetime sample_now sample_report []) tt
  = (Ok sample_entries, tt, sample_calls)
  /\ tracker_entries sample_to_datetime sample_now sample_report ([] ++ sample_entries)
     = Ret [].
Proof.
  assert (H : run accepting_endpoint
                (tracker_entries sample_to_datetime sample_now sample_report []) tt
              = (Ok sample_entries, tt, sample_calls)) by (vm_compute; reflexivity).
  split; [exact H |].
  exact (tracker_idempotent sample_to_datetime sample_now accepting_endpoint
           sample_report [] sample_entries tt tt sample_calls H).
Defined.

Lemma join_completeness_witness :
  exists report,
    returned (validate_invoices sample_invoices sample_purchase_orders) = Ok report
    /\ List.length report = List.length (rows sample_invoices).
Proof.
  destruct (returned (validate_invoices sample_invoices sample_purchase_orders))
    as [report |] eqn:H.
  - exists report. split; [reflexivity |].
    exact (proj1 (join_completeness sample_invoices sample_purchase_orders report H)).
  - vm_compute in H. discriminate.
Defined.

Lemma past_due_backfill_witness :
  exists entries_before entries_after entry,
    process_past_due_invoices sample_to_datetime sample_now
      ([] ++ row_past_due :: [row_due_today; row_due_later]) []
    = Ret (entries_before ++ entry :: entries_after)
    /\ Log.payment_mode entry = "PreviouslyPaid"
    /\ Log.transaction_id entry = "PREVIOUSLY_PAID".
Proof.
  assert (H1 : due_dates sample_to_datetime ([] ++ row_past_due :: [row_due_today; row_due_later])
               = Ok [Some "2024-01-05"; Some "2024-01-10"; Some "2024-02-01"])
    by (vm_compute; reflexivity).
  assert (H2 : sample_to_datetime (Report.due_date row_past_due)
               = Ok (Timestamp (mkDate 2024 1 5))) by (vm_compute; reflexivity).
  assert (H3 : String.ltb (strftime (mkDate 2024 1 5)) (strftime (now_date sample_now)) = true)
    by (vm_compute; reflexivity).
  assert (H4 : Report.validation_status row_past_due = "VALID") by reflexivity.
  assert (H5 : forall e : Log.entry, In e [] ->
                 ~ (Log.order_id e = Report.order_id row_past_due
                    /\ Log.customer_name e = Report.customer_name row_past_due))
    by (intros e []).
  destruct (past_due_backfill sample_to_datetime sample_now [] [row_due_today; row_due_later]
              row_past_due [] _ _ H1 H2 H3 H4 H5)
    as (eb & ea & en & _ & _ & E & _ & _ & M & T & _).
  exists eb, ea, en. auto.
Defined.

Lemma one_entry_per_identity_witness :
  NoDup (map row_identity (filter is_valid sample_report))
  /\ NoDup (map entry_identity sample_entries).
Proof.
  assert (H : run accepting_endpoint
                (tracker_entries sample_to_datetime sample_now sample_report []) tt
              = (Ok sample_entries, tt, sample_calls)) by (vm_compute; reflexivity).
  assert (N : NoDup (map row_identity (filter is_valid sample_report))).
  { cbn. repeat (constructor; [cbn; intuition discriminate |]). constructor. }
  split; [exact N |].
  exact (proj1 (one_entry_per_identity sample_to_datetime sample_now accepting_endpoint
                  sample_report [] sample_entries tt tt sample_calls H N)).
Defined.

Lemma failed_payment_aborts_pass_witness :
  run_pass sample_to_datetime unreachable_endpoint sample_now sample_report (Some []) tt
  = (Some [], Some (RuntimeError "Payment initiation failed"), tt,
     [EvPost sample_payload ConnectionError])
  /\ (Some [] = Some (@nil Log.entry)
      /\ exists msg, Some (RuntimeError "Payment initiation failed")
                     = Some (RuntimeError msg)).
Proof.
  assert (H : run_pass sample_to_datetime unreachable_endpoint sample_now sample_report
                (Some []) tt
              = (Some [], Some (RuntimeError "Payment initiation failed"), tt,
                 [EvPost sample_payload ConnectionError])) by (vm_compute; reflexivity).
  split; [exact H |].
  apply (failed_payment_aborts_pass sample_to_datetime unreachable_endpoint sample_now
           sample_report (Some []) (Some []) _ tt tt _ sample_payload ConnectionError H).
  - now left.
  - reflexivity.
Defined.

Lemma extraction_exhaustion_stops_batch_witness :
  run (shared_model_handler failing_on_a never_posting)
      (analyze_invoices sample_json_loads
         ([("b.pdf", "text of b.pdf")] ++ ("a.pdf", "text of a.pdf")
          :: [("c.pdf", "text of c.pdf")]))
      (sample_client, tt, tt)
  = (Ok [row_of_b], (mkClient ["key-1"; "key-2"] 1, tt, tt),
     [EvGenerateContent (ExtractionPrompt "text of b.pdf") (Some "json of b.pdf")]
     ++ [EvGenerateContent (ExtractionPrompt "text of a.pdf") None]).
Proof.
  apply (extraction_exhaustion_stops_batch sample_json_loads
           (shared_model_handler failing_on_a never_posting)
           [("b.pdf", "text of b.pdf")] [("c.pdf", "text of c.pdf")]
           "a.pdf" "text of a.pdf" [row_of_b]
           (sample_client, tt, tt) (sample_client, tt, tt)).
  - vm_compute. reflexivity.
  - intros prompt [H | []]. discriminate.
  - intros prompt response_text [H | []]. injection H as _ <-.
    vm_compute. discriminate.
  - vm_compute. reflexivity.
  - vm_compute. reflexivity.
Defined.

Lemma duplicate_keys_fail_witness :
  has_duplicate_invoice_key (rows two_line_items)
  /\ exists e, returned (validate_invoices two_line_items two_purchase_orders) = Raised e.
Proof.
  assert (D : has_duplicate_invoice_key (rows two_line_items)).
  { exists 0, 1. eexists. eexists.
    split; [discriminate |]. split; [reflexivity |]. split; [reflexivity |].
    repeat split; reflexivity. }
  split; [exact D |].
  exact (proj1 (duplicate_keys_fail two_line_items two_purchase_orders (or_introl D))).
Defined.

Lemma validate_invoices_mutates_arguments_witness :
  columns (invoices_after (validate_invoices sample_invoices sample_purchase_orders))
  = map (fun label =>
           if String.eqb label "invoice_number" then "invoice_number_inv" else label)
        (columns sample_invoices).
Proof.
  assert (R : reaches_merge sample_invoices sample_purchase_orders
                (rows sample_invoices) (rows sample_purchase_orders)).
  { unfold reaches_merge. repeat split; vm_compute; reflexivity. }
  exact (proj1 (validate_invoices_mutates_arguments sample_invoices sample_purchase_orders
                  _ _ R)).
Defined.

(** ** Where the claims fail *)

(** Against C5: two invoices on one order of one customer validate to a
    report with two VALID rows of one identity; with both past due and an
    empty log, one pass emits two entries for that identity. *)
Lemma same_identity_paid_twice :
  exists report entries,
    returned (validate_invoices two_invoices_one_order two_purchase_orders) = Ok report
    /\ run_pass sample_to_datetime accepting_endpoint sample_now report (Some []) tt
       = (Some entries, None, tt, [])
    /\ List.length entries = 2
    /\ ~ NoDup (map entry_identity entries).
Proof.
  eexists. eexists. split; [vm_compute; reflexivity |].
  split; [vm_compute; reflexivity |].
  split; [reflexivity |].
  cbn. intro N. inversion N as [| ? ? Hnin _]. apply Hnin. now left.
Qed.

(** Against C6: with a row to backfill and a row due today whose payment
    fails, the pass raises and writes nothing; the entry of the backfilled
    row, which the tracker did produce, is not in the log afterwards. *)
Lemma failed_payment_loses_other_entries :
  process_past_due_invoices sample_to_datetime sample_now sample_report []
  = Ret [previously_paid_entry sample_now row_past_due]
  /\ exists exn calls,
       run_pass sample_to_datetime unreachable_endpoint sample_now sample_report
                (Some []) tt
       = (Some [], Some exn, tt, calls)
       /\ In (EvPost sample_payload ConnectionError) calls
       /\ ~ In (previously_paid_entry sample_now row_past_due) [].
Proof.
  split; [vm_compute; reflexivity |].
  eexists. eexists. split; [vm_compute; reflexivity |].
  split; [now left | intros []].
Qed.

(** Against C7: [b.pdf] on its own is extracted and gives a row, but in a
    folder where [a.pdf] comes first and exhausts the client (three failed
    calls, the key rotated three times), the batch returns no row at all
    and never asks for [b.pdf]. *)
Lemma exhaustion_drops_later_invoices :
  run (shared_model_handler failing_on_a never_posting)
      (analyze_invoices sample_json_loads [("b.pdf", "text of b.pdf")])
      (sample_client, tt, tt)
  = (Ok [row_of_b], (sample_client, tt, tt),
     [EvGenerateContent (ExtractionPrompt "text of b.pdf") (Some "json of b.pdf")])
  /\ run (shared_model_handler failing_on_a never_posting)
         (analyze_invoices sample_json_loads sample_folder)
         (sample_client, tt, tt)
     = (Ok [], (mkClient ["key-1"; "key-2"] 1, tt, tt),
        [EvGenerateContent (ExtractionPrompt "text of a.pdf") None]).
Proof. split; vm_compute; reflexivity. Qed.

(** ** More on [validate_invoices]: when it returns, what it carries, how it fails *)

Lemma Forall2_In_l {A B} (R : A -> B -> Prop) (xs : list A) (ys : list B) (x : A) :
  Forall2 R xs ys -> In x xs -> exists y, In y ys /\ R x y.
Proof.
  induction 1 as [| x' y xs ys Hxy _ IH]; simpl; [contradiction |].
  intros [-> | Hin].
  - exists y. auto.
  - destruct (IH Hin) as [y' [Hy' Hr]]. exists y'. auto.
Qed.

Lemma result_map_Raised {A B} (f : A -> Result B) (xs : list A) (x : A) (e : Exn) :
  In x xs -> f x = Raised e -> exists e', result_map f xs = Raised e'.
Proof.
  induction xs as [| y xs IH]; simpl; [contradiction |].
  intros [-> | Hin] Hx.
  - rewrite Hx. cbn. eauto.
  - destruct (f y) as [b |]; cbn; [| eauto].
    destruct (IH Hin Hx) as [e' ->]. cbn. eauto.
Qed.

Lemma pd_merge_unique (left : list Inv.row) (right : list PO.row) :
  NoDup (map left_key left) -> NoDup (map right_key right) ->
  pd_merge left right = Ok (map (joined_row right) left).
Proof.
  intros HL HR. unfold pd_merge.
  rewrite (proj2 (is_unique_NoDup _) HL), (proj2 (is_unique_NoDup _) HR). cbn.
  now rewrite left_join_unique.
Qed.

Lemma has_column_renamed_back (label old new : string) (cols : list string) :
  label <> new -> has_column label (rename_columns old new cols) = true ->
  has_column label cols = true.
Proof.
  intro Hne. unfold has_column, rename_columns.
  induction cols as [| c cols IH]; cbn [map existsb]; [discriminate |].
  intro H. apply orb_true_iff in H. destruct H as [H | H].
  - destruct (String.eqb c old).
    + apply String.eqb_eq in H. contradiction.
    + now rewrite H.
  - rewrite (IH H). apply orb_true_r.
Qed.

Lemma merge_keys_found_back (invoices_df : DataFrame Inv.row) (po_df : DataFrame PO.row) :
  merge_key_error
    (rename_columns "invoice_number" "invoice_number_inv" (columns invoices_df))
    (columns po_df) (combine left_on right_on)
  = None ->
  has_key_labels invoices_df po_df.
Proof.
  cbn [left_on right_on combine merge_key_error]. unfold has_key_labels.
  assert (No : "order_id" <> "invoice_number_inv") by discriminate.
  assert (Nc : "customer_name" <> "invoice_number_inv") by discriminate.
  destruct (has_column "invoice_number" (columns po_df)); cbn [negb]; [| discriminate].
  destruct (has_column "invoice_number_inv" _); cbn [negb]; [| discriminate].
  destruct (has_column "order_id" (columns po_df)); cbn [negb]; [| discriminate].
  destruct (has_column "order_id" (rename_columns _ _ _)) eqn:O; cbn [negb];
    [| discriminate].
  destruct (has_column "customer_name" (columns po_df)); cbn [negb]; [| discriminate].
  destruct (has_column "customer_name" (rename_columns _ _ _)) eqn:C; cbn [negb];
    [| discriminate].
  intros _.
  rewrite (has_column_renamed_back _ _ _ _ No O), (has_column_renamed_back _ _ _ _ Nc C).
  auto.
Qed.

Lemma filter_nil_forallb {A} (f : A -> bool) (xs : list A) :
  filter (fun x => negb (f x)) xs = [] <-> forallb f xs = true.
Proof.
  induction xs as [| x xs IH]; cbn [filter forallb]; [tauto |].
  destruct (f x); cbn [negb andb]; [exact IH |].
  split; discriminate.
Qed.

(** A merged frame with the labels of the report has the labels the loop
    asks for. *)
Lemma loop_finds_its_labels (labels : list string) (merged_df : list Merged.row) :
  forallb (fun l => has_column l labels) report_columns = true ->
  loop_key_error labels merged_df = None.
Proof.
  intro H. cbn [forallb report_columns] in H.
  repeat match type of H with
         | _ && _ = true => apply andb_true_iff in H; destruct H as [? H]
         end.
  induction merged_df as [| row merged_df IH]; cbn [loop_key_error]; [reflexivity |].
  unfold row_key_error. cbn [find].
  repeat match goal with
         | E : has_column ?l labels = true |- context [has_column ?l labels] => rewrite E
         end.
  cbn [negb].
  destruct (isna (Merged.quantity_po row)); [exact IH |].
  destruct (isna (Merged.rate_po row)); [exact IH |].
  destruct (isna (Merged.expected_amount row)); exact IH.
Qed.

(** X1.  [validate_invoices] returns a report exactly when both frames
    have the [invoice_number] column, every cell of both columns converts
    to [int64], both frames have the [order_id] and [customer_name]
    columns, no two invoice rows and no two purchase-order rows have the
    same join key after the conversion, and the merged frame has every
    column of the report; in every other case it raises. *)
Theorem validate_invoices_returns_iff (invoices_df : DataFrame Inv.row)
    (po_df : DataFrame PO.row) :
  (exists report, returned (validate_invoices invoices_df po_df) = Ok report)
  <-> exists inv_rows po_rows,
        reaches_merge invoices_df po_df inv_rows po_rows
        /\ has_key_labels invoices_df po_df
        /\ NoDup (map left_key inv_rows) /\ NoDup (map right_key po_rows)
        /\ has_report_labels invoices_df po_df.
Proof.
  split.
  - intros [report Hok].
    destruct (validate_invoices_Ok _ _ _ Hok) as (inv_rows & po_rows & Hreach).
    exists inv_rows, po_rows. split; [exact Hreach |].
    rewrite (validate_invoices_at_merge _ _ _ _ Hreach) in Hok. cbn [returned] in Hok.
    unfold report_after_merge in Hok.
    destruct (merge_key_error _ _ _) eqn:K; [discriminate |].
    destruct (pd_merge inv_rows po_rows) as [joined |] eqn:M; [| discriminate].
    cbv zeta in Hok. destruct (loop_key_error _ _); [discriminate |].
    destruct (filter _ report_columns) eqn:F; [| discriminate].
    apply pd_merge_Ok in M. apply merge_keys_found_back in K.
    apply filter_nil_forallb in F. unfold has_report_labels. tauto.
  - intros (inv_rows & po_rows & Hreach & Hkeys & HL & HR & Hlabels).
    rewrite (validate_invoices_at_merge _ _ _ _ Hreach). cbn [returned].
    unfold report_after_merge.
    destruct Hreach as (Hi & _ & Hp & _).
    rewrite (merge_keys_found _ _ Hi Hp Hkeys), (pd_merge_unique _ _ HL HR). cbv zeta.
    rewrite (loop_finds_its_labels _ _ Hlabels).
    rewrite (proj2 (filter_nil_forallb _ _) Hlabels). eauto.
Qed.

(** X2.  In a report [validate_invoices] returns, the row of an invoice line
    item that has a purchase order of the same key carries the quantity,
    the rate and the expected amount of that purchase order. *)
Theorem matched_rows_carry_purchase_order (invoices_df : DataFrame Inv.row)
    (po_df : DataFrame PO.row) (report : list Report.row) :
  returned (validate_invoices invoices_df po_df) = Ok report ->
  Forall2 (fun i r => forall p, In p (rows po_df) -> same_key i p -> po_side_of p r)
          (rows invoices_df) report.
Proof.
  intro Hok.
  destruct (validate_invoices_Ok _ _ _ Hok) as (inv_rows & po_rows & Hreach).
  rewrite (validate_invoices_at_merge _ _ _ _ Hreach) in Hok. cbn [returned] in Hok.
  destruct Hreach as (_ & Hinv & _ & Hpo).
  apply astype_inv_column_Ok in Hinv. apply astype_po_column_Ok in Hpo.
  destruct (report_after_merge_Ok _ _ _ _ _ Hok) as (joined & M & Hrep).
  apply pd_merge_Ok in M. destruct M as (_ & HR & ->).
  subst report. rewrite validation_loop_map, !map_map.
  eapply Forall2_map_r; [exact Hinv |].
  intros i i' _ [z [Hz ->]] p Hp [Hk1 [Hk2 Hk3]].
  destruct (Forall2_In_l _ _ _ _ Hpo Hp) as [p' [Hp' [zp [Hzp ->]]]].
  assert (zp = z) by (rewrite Hk1, Hz in Hzp; congruence). subst zp.
  pose proof (report_row_update
                (joined_row po_rows (Inv.set_invoice_number (CInt z) i))) as R.
  cbn zeta in R. destruct R as (_ & _ & _ & _ & _ & _ & _ & _ & _ & _ & _ & _
                                & R13 & R14 & R15).
  unfold po_side_of. rewrite R13, R14, R15. unfold joined_row.
  assert (Hm : In (PO.set_invoice_number (CInt z) p)
                  (matches (Inv.set_invoice_number (CInt z) i) po_rows)).
  { unfold matches. apply filter_In. split; [exact Hp' |].
    apply key_eqb_eq. unfold left_key, right_key. cbn. now rewrite Hk2, Hk3. }
  destruct (matches_at_most_one (Inv.set_invoice_number (CInt z) i) po_rows HR)
    as [E | [q E]]; rewrite E in Hm |- *; [contradiction |].
  destruct Hm as [-> | []]. cbn. auto.
Qed.

Lemma renamed_has_no_invoice_number (cols : list string) :
  has_column "invoice_number"
    (rename_columns "invoice_number" "invoice_number_inv" cols) = false.
Proof.
  unfold has_column, rename_columns.
  induction cols as [| c cols IH]; cbn [map existsb]; [reflexivity |].
  rewrite IH, orb_false_r.
  destruct (String.eqb c "invoice_number") eqn:E; [reflexivity |].
  now rewrite String.eqb_sym.
Qed.

(** X3.  [validate_invoices] cannot be called twice on the same invoice frame:
    once a call has got as far as the merge, the frame it leaves behind no
    longer has an [invoice_number] column, so a second call on the frames
    left by the first raises [KeyError] and changes nothing more. *)
Theorem validate_invoices_not_rerunnable (invoices_df : DataFrame Inv.row)
    (po_df : DataFrame PO.row) (inv_rows : list Inv.row) (po_rows : list PO.row) :
  reaches_merge invoices_df po_df inv_rows po_rows ->
  validate_invoices (invoices_after (validate_invoices invoices_df po_df))
                    (po_after (validate_invoices invoices_df po_df))
  = mkOutcome (invoices_after (validate_invoices invoices_df po_df))
              (po_after (validate_invoices invoices_df po_df))
              (Raised (KeyError "invoice_number")).
Proof.
  intro Hreach. rewrite (validate_invoices_at_merge _ _ _ _ Hreach).
  cbn [invoices_after po_after]. unfold validate_invoices at 1.
  cbn [columns]. rewrite renamed_has_no_invoice_number. reflexivity.
Qed.

Lemma holds_astype_int (range : Z -> bool) (c : Cell) :
  (forall z, range z = true -> in_int64 z || in_uint64 z = true) ->
  holds range c = true -> exists c', astype_int c = Ok c'.
Proof.
  intro Hr. destruct c as [z | s |]; cbn [holds astype_int]; try discriminate.
  intro H. rewrite (Hr z H). eauto.
Qed.

(** A cell that does not convert makes its column raise, whatever the
    dtype of the column. *)
Lemma astype_int_column_Raised {R} (get : R -> Cell) (set : Cell -> R -> R)
    (rs : list R) (r : R) (e : Exn) :
  In r rs -> astype_int (get r) = Raised e ->
  exists e', astype_int_column get set rs = Raised e'.
Proof.
  intros Hin Hbad. unfold astype_int_column.
  destruct (dtype_of (map get rs)) eqn:D; [| | eauto |].
  - exfalso. unfold dtype_of in D.
    destruct (existsb is_text (map get rs)); [discriminate |].
    destruct (existsb is_missing (map get rs)); [discriminate |].
    destruct (forallb (holds in_int64) (map get rs)) eqn:F.
    + rewrite forallb_forall in F.
      destruct (holds_astype_int in_int64 (get r)) as [c' Hc'].
      * intros z ->. reflexivity.
      * apply F. now apply in_map.
      * congruence.
    + destruct (forallb (holds in_uint64) (map get rs)); discriminate.
  - exfalso. unfold dtype_of in D.
    destruct (existsb is_text (map get rs)); [discriminate |].
    destruct (existsb is_missing (map get rs)); [discriminate |].
    destruct (forallb (holds in_int64) (map get rs)); [discriminate |].
    destruct (forallb (holds in_uint64) (map get rs)) eqn:F; [| discriminate].
    rewrite forallb_forall in F.
    destruct (holds_astype_int in_uint64 (get r)) as [c' Hc'].
    + intros z ->. apply orb_true_r.
    + apply F. now apply in_map.
    + congruence.
  - destruct (int64_of_object_Raised _ _ Hbad) as [e1 He1].
    apply (result_map_Raised _ rs r e1 Hin). now rewrite He1.
Qed.

(** X4.  An invoice row whose invoice number does not convert to an integer (a
    missing number, a text that is not a numeral) makes [validate_invoices]
    raise before it has changed either frame. *)
Theorem bad_invoice_number_leaves_frames (invoices_df : DataFrame Inv.row)
    (po_df : DataFrame PO.row) (r : Inv.row) (e : Exn) :
  In r (rows invoices_df) ->
  astype_int (Inv.invoice_number r) = Raised e ->
  exists e',
    validate_invoices invoices_df po_df = mkOutcome invoices_df po_df (Raised e').
Proof.
  intros Hin Hbad. unfold validate_invoices.
  destruct (has_column "invoice_number" (columns invoices_df)); cbn [negb];
    [| eauto].
  destruct (astype_int_column_Raised Inv.invoice_number Inv.set_invoice_number
              (rows invoices_df) r e Hin Hbad) as [e' He'].
  rewrite He'. eauto.
Qed.

(** X5.  A purchase-order row whose invoice number does not convert makes
    [validate_invoices] raise half-way: when the invoice column has
    converted, the caller's invoice frame is left with its invoice numbers
    converted but its label not renamed, and the purchase-order frame is
    left untouched. *)
Theorem bad_po_number_leaves_invoices_converted (invoices_df : DataFrame Inv.row)
    (po_df : DataFrame PO.row) (inv_rows : list Inv.row) (p : PO.row) (e : Exn) :
  has_column "invoice_number" (columns invoices_df) = true ->
  astype_int_column Inv.invoice_number Inv.set_invoice_number (rows invoices_df)
  = Ok inv_rows ->
  In p (rows po_df) ->
  astype_int (PO.invoice_number p) = Raised e ->
  exists e',
    validate_invoices invoices_df po_df
    = mkOutcome (mkDataFrame (columns invoices_df) inv_rows) po_df (Raised e').
Proof.
  intros Hcol Hinv Hin Hbad. unfold validate_invoices.
  rewrite Hcol, Hinv. cbn [negb columns rows].
  destruct (has_column "invoice_number" (columns po_df)); cbn [negb]; [| eauto].
  destruct (astype_int_column_Raised PO.invoice_number PO.set_invoice_number
              (rows po_df) p e Hin Hbad) as [e' He'].
  rewrite He'. eauto.
Qed.

Lemma joined_row_cases (i i' : Inv.row) (ps ps' : list PO.row) :
  coerced_inv i i' -> Forall2 coerced_po ps ps' -> NoDup (map right_key ps') ->
  ((forall p, In p ps -> ~ same_key i p) -> joined_row ps' i' = unmatched i')
  /\ (forall p, In p ps -> same_key i p ->
        joined_row ps' i' = matched i' (PO.set_invoice_number (Inv.invoice_number i') p)).
Proof.
  intros Hi Hps Hnd. split.
  - intro Hun. unfold joined_row. destruct (matches i' ps') as [| p' ms] eqn:E;
      [reflexivity |].
    exfalso. destruct (matches_coerced i i' ps ps' p' Hi Hps) as (p & Hp & Hk & _).
    { rewrite E. now left. }
    exact (Hun p Hp Hk).
  - intros p Hp [Hk1 [Hk2 Hk3]]. destruct Hi as [z [Hz ->]].
    destruct (Forall2_In_l _ _ _ _ Hps Hp) as [p' [Hp' [zp [Hzp ->]]]].
    assert (zp = z) by (rewrite Hk1, Hz in Hzp; congruence). subst zp.
    assert (Hm : In (PO.set_invoice_number (CInt z) p)
                    (matches (Inv.set_invoice_number (CInt z) i) ps')).
    { unfold matches. apply filter_In. split; [exact Hp' |].
      apply key_eqb_eq. unfold left_key, right_key. cbn. now rewrite Hk2, Hk3. }
    unfold joined_row.
    destruct (matches_at_most_one (Inv.set_invoice_number (CInt z) i) ps' Hnd)
      as [E | [q E]]; rewrite E in Hm |- *; [contradiction |].
    destruct Hm as [-> | []]. reflexivity.
Qed.

Lemma classified_row_cases (j : Joined.row) :
  let m := validate_update (Merged.mk j "" "VALID") (Merged.mk j "" "VALID") in
  (Merged.validation_status m = "VALID" /\ Merged.validation_result m = "Match")
  \/ (Merged.validation_status m = "INVALID" /\ Merged.validation_result m <> "Match").
Proof.
  unfold validate_update. rewrite reasons_of_spec. unfold spec_reasons.
  destruct (isna (Joined.quantity_po j) || isna (Joined.rate_po j)
            || isna (Joined.expected_amount j));
    [right; cbn; split; [reflexivity | discriminate] |].
  destruct (float_ne (Inv.quantity (Joined.inv j)) (Joined.quantity_po j));
    destruct (float_ne (Inv.rate (Joined.inv j)) (Joined.rate_po j));
    destruct (float_gt (Inv.amount (Joined.inv j)) (Joined.expected_amount j));
    destruct (float_lt (Inv.amount (Joined.inv j)) (Joined.expected_amount j));
    cbn; (left; split; reflexivity) || (right; split; [reflexivity | discriminate]).
Qed.

Lemma missing_po_row (j : Joined.row) :
  isna (Joined.quantity_po j) || isna (Joined.rate_po j)
  || isna (Joined.expected_amount j) = true ->
  validate_update (Merged.mk j "" "VALID") (Merged.mk j "" "VALID")
  = Merged.mk j "Missing PO" "INVALID".
Proof.
  intro H. unfold validate_update. rewrite reasons_of_spec. unfold spec_reasons.
  rewrite H. reflexivity.
Qed.

(** X6.  In every report [validate_invoices] returns, a row is VALID exactly when
    its result is the text "Match", and it is INVALID otherwise: the status
    the payment tracker filters on never disagrees with the result text. *)
Theorem report_status_matches_result (invoices_df : DataFrame Inv.row)
    (po_df : DataFrame PO.row) (report : list Report.row) :
  returned (validate_invoices invoices_df po_df) = Ok report ->
  Forall (fun r =>
            (Report.validation_status r = "VALID" /\ Report.validation_result r = "Match")
            \/ (Report.validation_status r = "INVALID"
                /\ Report.validation_result r <> "Match"))
         report.
Proof.
  intro Hok.
  destruct (validate_invoices_Ok _ _ _ Hok) as (inv_rows & po_rows & Hreach).
  rewrite (validate_invoices_at_merge _ _ _ _ Hreach) in Hok. cbn [returned] in Hok.
  destruct (report_after_merge_Ok _ _ _ _ _ Hok) as (joined & _ & Hrep).
  subst report. rewrite validation_loop_map, !map_map.
  apply Forall_forall. intros r Hr. apply in_map_iff in Hr.
  destruct Hr as [j [<- _]]. exact (classified_row_cases j).
Qed.

(** X7.  In every report [validate_invoices] returns, an invoice line item with
    no purchase order of its key, and equally one whose purchase order has
    a missing quantity, rate or expected amount, is reported as
    "Missing PO" with status INVALID, whatever its own cells are. *)
Theorem missing_purchase_order_is_invalid (invoices_df : DataFrame Inv.row)
    (po_df : DataFrame PO.row) (report : list Report.row) :
  returned (validate_invoices invoices_df po_df) = Ok report ->
  Forall2 (fun i r =>
             (forall p, In p (rows po_df) -> ~ same_key i p)
             \/ (exists p, In p (rows po_df) /\ same_key i p
                           /\ isna (PO.quantity p) || isna (PO.rate p)
                              || isna (PO.expected_amount p) = true) ->
             Report.validation_result r = "Missing PO"
             /\ Report.validation_status r = "INVALID")
          (rows invoices_df) report.
Proof.
  intro Hok.
  destruct (validate_invoices_Ok _ _ _ Hok) as (inv_rows & po_rows & Hreach).
  rewrite (validate_invoices_at_merge _ _ _ _ Hreach) in Hok. cbn [returned] in Hok.
  destruct Hreach as (_ & Hinv & _ & Hpo).
  apply astype_inv_column_Ok in Hinv. apply astype_po_column_Ok in Hpo.
  destruct (report_after_merge_Ok _ _ _ _ _ Hok) as (joined & M & Hrep).
  apply pd_merge_Ok in M. destruct M as (_ & HR & ->).
  subst report. rewrite validation_loop_map, !map_map.
  eapply Forall2_map_r; [exact Hinv |].
  intros i i' _ Hi Hcase.
  destruct (joined_row_cases i i' (rows po_df) po_rows Hi Hpo HR) as [Hun Hma].
  rewrite missing_po_row; [cbn; auto |].
  destruct Hcase as [Hnone | (p & Hp & Hk & Hna)].
  - rewrite (Hun Hnone). reflexivity.
  - rewrite (Hma p Hp Hk). cbn. exact Hna.
Qed.

(** ** More on the tracker: what it emits, what it posts, when it stops *)

Lemma create_auto_fields {W} (h : Handler W) (now : Now) (row : Report.row) (w w' : W)
    (e : Log.entry) (calls : list Event) :
  run h (create_payment_log_entry now row "auto") w = (Ok e, w', calls) ->
  entry_of_row e row /\ Log.payment_mode e = "Auto" /\ posted calls = [payload_of_row row].
Proof.
  run_auto h w; intro H; try discriminate.
  injection H as <- _ <-. unfold entry_of_row. cbn. auto.
Qed.

(** What a successful run of the loop of [process_todays_invoices] added
    and posted. *)
Lemma todays_loop_Ok {W} (to_datetime : string -> Result Datetime) (now : Now)
    (h : Handler W) (log : list Log.entry) (rs : list Report.row)
    (s entries : list Log.entry) (w w' : W) (calls : list Event) :
  run h (for_each rs s (todays_body to_datetime now log)) w = (Ok entries, w', calls) ->
  exists added,
    entries = s ++ added
    /\ Forall2 (fun e r => entry_of_row e r /\ Log.payment_mode e = "Auto") added
               (filter (fun r => is_valid r && negb (already_paid log r)) rs)
    /\ posted calls
       = map payload_of_row (filter (fun r => is_valid r && negb (already_paid log r)) rs).
Proof.
  revert s entries w w' calls.
  induction rs as [| r rs IH]; intros s entries w w' calls; cbn [for_each filter].
  - cbn [run]. intro H. injection H as <- _ <-. exists []. rewrite app_nil_r.
    repeat split. constructor.
  - rewrite run_bind. unfold todays_body at 1.
    change (String.eqb (Report.validation_status r) "VALID") with (is_valid r).
    destruct (is_valid r); cbn [andb].
    + destruct (negb (already_paid log r)).
      * rewrite run_bind.
        destruct (run h (create_payment_log_entry now r "auto") w)
          as [[[e | ex] w1] calls1] eqn:C; [| discriminate].
        cbn [run].
        destruct (run h (for_each rs (s ++ [e]) (todays_body to_datetime now log)) w1)
          as [[res w2] calls2] eqn:R.
        intro H. injection H as Hres _ Hcalls. subst res calls.
        destruct (IH _ _ _ _ _ R) as (added & Ha & HF & HP).
        destruct (create_auto_fields _ _ _ _ _ _ _ C) as (He & Hm & Hposted).
        exists (e :: added). rewrite Ha, <- app_assoc. split; [reflexivity |].
        split; [constructor; auto |].
        rewrite app_nil_r. unfold posted in *. rewrite flat_map_app, Hposted, HP.
        reflexivity.
      * cbn [run].
        destruct (run h (for_each rs s (todays_body to_datetime now log)) w)
          as [[res w2] calls2] eqn:R.
        intro H. injection H as Hres _ Hcalls. subst res calls.
        exact (IH _ _ _ _ _ R).
    + cbn [run].
      destruct (run h (for_each rs s (todays_body to_datetime now log)) w)
        as [[res w2] calls2] eqn:R.
      intro H. injection H as Hres _ Hcalls. subst res calls.
      exact (IH _ _ _ _ _ R).
Qed.

(** A successful run of the tracker, taken apart. *)
Lemma tracker_entries_run_Ok {W} (to_datetime : string -> Result Datetime) (now : Now)
    (h : Handler W) (df : list Report.row) (log entries : list Log.entry)
    (w w' : W) (calls : list Event) :
  run h (tracker_entries to_datetime now df log) w = (Ok entries, w', calls) ->
  exists dates todays,
    due_dates to_datetime df = Ok dates
    /\ entries
       = map (previously_paid_entry now)
             (filter (fun r => past_due to_datetime now r && negb (already_paid log r)) df)
         ++ todays
    /\ Forall2 (fun e r => entry_of_row e r /\ Log.payment_mode e = "Auto") todays
               (filter (fun r => due_today to_datetime now r
                                 && (is_valid r && negb (already_paid log r))) df)
    /\ posted calls
       = map payload_of_row
             (filter (fun r => due_today to_datetime now r
                               && (is_valid r && negb (already_paid log r))) df).
Proof.
  unfold tracker_entries, tracker_entries_at.
  destruct (due_dates to_datetime df) as [dates | e] eqn:Hd.
  - rewrite (process_past_due_invoices_Ok _ _ _ _ _ Hd). cbn [bind].
    rewrite (process_todays_invoices_Ok _ _ _ _ _ Hd), run_bind.
    destruct (run h (for_each _ [] (todays_body to_datetime now log)) w)
      as [[[es | ex] w1] calls1] eqn:R; [| discriminate].
    cbn [run]. intro H. injection H as <- _ <-.
    destruct (todays_loop_Ok _ _ _ _ _ _ _ _ _ _ R) as (added & -> & HF & HP).
    rewrite filter_filter in HF, HP. rewrite app_nil_r.
    exists dates, added. cbn [app]. auto.
  - rewrite (process_past_due_invoices_Raised _ _ _ _ _ Hd). cbn [bind run].
    discriminate.
Qed.

(** X8.  The tracker never pays a row it should not: every entry of a
    successful run records a row of the report (its order, customer, due
    date and total) that is VALID and had no entry in the log; an entry of
    mode PreviouslyPaid records a row due before today, an entry of mode
    Auto a row due today.  No entry is ever emitted for an INVALID row or
    for a row due later. *)
Theorem emitted_entries_are_payable {W} (to_datetime : string -> Result Datetime)
    (now : Now) (h : Handler W) (validation_report_df : list Report.row)
    (existing_log_df entries : list Log.entry) (w w' : W) (calls : list Event) :
  run h (tracker_entries to_datetime now validation_report_df existing_log_df) w
  = (Ok entries, w', calls) ->
  Forall (fun e =>
            exists r,
              In r validation_report_df /\ entry_of_row e r
              /\ is_valid r = true /\ already_paid existing_log_df r = false
              /\ ((Log.payment_mode e = "PreviouslyPaid"
                   /\ past_due to_datetime now r = true)
                  \/ (Log.payment_mode e = "Auto"
                      /\ due_today to_datetime now r = true)))
         entries.
Proof.
  intro H.
  destruct (tracker_entries_run_Ok _ _ _ _ _ _ _ _ _ H) as (dates & todays & _ & -> & HF & _).
  apply Forall_app. split.
  - apply Forall_forall. intros e He. apply in_map_iff in He.
    destruct He as [r [<- Hr]]. apply filter_In in Hr. destruct Hr as [Hin Hsel].
    apply andb_true_iff in Hsel. destruct Hsel as [Hp Hn].
    exists r. split; [exact Hin |]. split; [unfold entry_of_row; cbn; auto |].
    split; [unfold past_due in Hp; apply andb_true_iff in Hp; tauto |].
    split; [now apply negb_true_iff |]. left. auto.
  - apply Forall_forall. intros e He.
    destruct (Forall2_In_l _ _ _ _ HF He) as [r [Hr [Her Hm]]].
    apply filter_In in Hr. destruct Hr as [Hin Hsel].
    apply andb_true_iff in Hsel. destruct Hsel as [Ht Hsel].
    apply andb_true_iff in Hsel. destruct Hsel as [Hv Hn].
    exists r. repeat (split; [assumption || now apply negb_true_iff |]).
    right. auto.
Qed.

(** X9.  In a successful run the tracker posts one payment request for each
    VALID row due today that has no entry in the log, in the order of the
    report, with the row's order, customer, total and due date, and posts
    nothing else: nothing for a past-due row, an INVALID row, a row due
    later or a row already in the log. *)
Theorem payments_posted_once_per_row {W} (to_datetime : string -> Result Datetime)
    (now : Now) (h : Handler W) (validation_report_df : list Report.row)
    (existing_log_df entries : list Log.entry) (w w' : W) (calls : list Event) :
  run h (tracker_entries to_datetime now validation_report_df existing_log_df) w
  = (Ok entries, w', calls) ->
  posted calls
  = map payload_of_row
        (filter (fun r => due_today to_datetime now r && is_valid r
                          && negb (already_paid existing_log_df r))
                validation_report_df).
Proof.
  intro H.
  destruct (tracker_entries_run_Ok _ _ _ _ _ _ _ _ _ H) as (dates & todays & _ & _ & _ & HP).
  rewrite HP. f_equal. apply filter_ext. intro r. now rewrite andb_assoc.
Qed.

(** A pass that did not raise, taken apart. *)
Lemma run_pass_None {W} (to_datetime : string -> Result Datetime) (h : Handler W)
    (now : Now) (df : list Report.row) (csv written : option (list Log.entry))
    (w w' : W) (calls : list Event) :
  run_pass to_datetime h now df csv w = (written, None, w', calls) ->
  exists entries,
    run h (tracker_entries to_datetime now df (load_existing_payment_log csv)) w
    = (Ok entries, w', calls)
    /\ written = Some (load_existing_payment_log csv ++ entries).
Proof.
  unfold run_pass, process_payments_and_past_due;
    unfold process_payments_and_past_due_at;
    change (tracker_entries_at to_datetime now now) with (tracker_entries to_datetime now).
  rewrite run_bind.
  destruct (run h (tracker_entries to_datetime now df (load_existing_payment_log csv)) w)
    as [[[entries | e] w1] calls1]; [| discriminate].
  cbn [run]. rewrite app_nil_r. intro H. injection H as <- <- <-.
  exists entries. split; [reflexivity |]. unfold concat.
  destruct entries as [| e entries].
  - now rewrite app_nil_r.
  - destruct (load_existing_payment_log csv); reflexivity.
Qed.

(** What a successful run of the two calls emitted, the two readings of
    the clock told apart. *)
Lemma tracker_entries_at_Ok {W} (to_datetime : string -> Result Datetime)
    (now_past now_today : Now) (h : Handler W) (df : list Report.row)
    (log entries : list Log.entry) (w w' : W) (calls : list Event) :
  run h (tracker_entries_at to_datetime now_past now_today df log) w
  = (Ok entries, w', calls) ->
  map entry_identity entries
  = map row_identity
      (filter (fun r => past_due to_datetime now_past r && negb (already_paid log r)) df)
    ++ map row_identity
         (filter (fun r => due_today to_datetime now_today r
                           && (is_valid r && negb (already_paid log r))) df).
Proof.
  unfold tracker_entries_at.
  destruct (due_dates to_datetime df) as [dates | e] eqn:Hd.
  - rewrite (process_past_due_invoices_Ok _ _ _ _ _ Hd). cbn [bind].
    rewrite (process_todays_invoices_Ok _ _ _ _ _ Hd), run_bind.
    destruct (run h (for_each _ [] (todays_body to_datetime now_today log)) w)
      as [[[es | ex] w1] calls1] eqn:R; [| discriminate].
    cbn [run]. intro H. injection H as <- _ _.
    rewrite map_app, map_map, (todays_loop_identities _ _ _ _ _ _ _ _ _ _ R), filter_filter.
    reflexivity.
  - rewrite (process_past_due_invoices_Raised _ _ _ _ _ Hd). cbn [bind run].
    discriminate.
Qed.

(** X10.  After a pass that did not raise, the frame handed to [to_csv]
    accounts for every VALID row of the report that the pass selected:
    each row due before the day read by [process_past_due_invoices], and
    each row due on the day read afterwards by [process_todays_invoices],
    has an entry under its [(order_id, customer_name)] in that frame,
    whether from this pass or from the log as it was loaded.  (The two
    days are read separately; a row due on the first of them is not
    selected when the second reading falls on the next day.) *)
Theorem successful_pass_covers_report {W} (to_datetime : string -> Result Datetime)
    (h : Handler W) (now_past now_today : Now) (validation_report_df : list Report.row)
    (payment_log_csv : option (list Log.entry)) (payment_log_df : list Log.entry)
    (w w' : W) (calls : list Event) :
  run h (process_payments_and_past_due_at to_datetime now_past now_today
           validation_report_df payment_log_csv) w
  = (Ok payment_log_df, w', calls) ->
  forall r,
    In r validation_report_df ->
    is_valid r = true ->
    past_due to_datetime now_past r = true \/ due_today to_datetime now_today r = true ->
    already_paid payment_log_df r = true.
Proof.
  unfold process_payments_and_past_due_at. rewrite run_bind.
  destruct (run h (tracker_entries_at to_datetime now_past now_today validation_report_df
                     (load_existing_payment_log payment_log_csv)) w)
    as [[[entries | e] w1] calls1] eqn:Hrun; [| discriminate].
  cbn [run]. intros H r Hin Hv Hdue. injection H as <- _ _.
  pose proof (tracker_entries_at_Ok _ _ _ _ _ _ _ _ _ _ Hrun) as Hid.
  set (log := load_existing_payment_log payment_log_csv) in *.
  assert (Hpaid : already_paid (log ++ entries) r = true).
  { rewrite already_paid_app.
    destruct (already_paid log r) eqn:P; [reflexivity |].
    cbn [orb]. apply already_paid_In. rewrite Hid. apply in_or_app.
    destruct Hdue as [Hp | Ht]; [left | right];
      apply in_map; apply filter_In; split; try assumption.
    - now rewrite Hp, P.
    - now rewrite Ht, Hv, P. }
  destruct entries as [| e entries].
  - now rewrite app_nil_r in Hpaid.
  - unfold concat. destruct log; exact Hpaid.
Qed.

(** X12.  One due date that does not parse, on any row of the report (VALID or
    not, due or not), blocks the whole pass: it raises before any call is
    made, the world is untouched and the payment-log file is left as it
    was, so no other row is paid or backfilled either. *)
Theorem unparseable_due_date_blocks_pass {W} (to_datetime : string -> Result Datetime)
    (h : Handler W) (now : Now) (validation_report_df : list Report.row)
    (payment_log_csv : option (list Log.entry)) (w : W) (r : Report.row) (e : Exn) :
  In r validation_report_df ->
  to_datetime (Report.due_date r) = Raised e ->
  exists e',
    run_pass to_datetime h now validation_report_df payment_log_csv w
    = (payment_log_csv, Some e', w, []).
Proof.
  intros Hin Hr.
  destruct (result_map_Raised
              (fun r => result_bind (to_datetime (Report.due_date r))
                                    (fun d => Ok (dt_strftime d)))
              validation_report_df r e Hin) as [e' He'].
  { rewrite Hr. reflexivity. }
  exists e'. unfold run_pass, process_payments_and_past_due, process_payments_and_past_due_at,
    tracker_entries_at.
  rewrite (process_past_due_invoices_Raised _ _ _ _ _ He'). reflexivity.
Qed.

(** ** The model running out in the middle of a pass *)

Lemma create_auto_exhaustion_raises {W} (h : Handler W) (now : Now) (row : Report.row)
    (w : W) :
  exhaustion_raises (run h (create_payment_log_entry now row "auto") w).
Proof.
  unfold exhaustion_raises.
  run_auto h w; cbn [fst snd In]; intros prompt Hin;
    repeat match goal with
           | H : _ \/ _ |- _ => destruct H
           | H : False |- _ => contradiction
           | H : EvPost _ _ = EvGenerateContent _ _ |- _ => discriminate
           | H : EvGenerateContent _ (Some _) = EvGenerateContent _ None |- _ =>
               discriminate
           | H : EvGenerateContent _ None = EvGenerateContent _ None |- _ =>
               injection H as <-
           end.
  split; [eexists; reflexivity |].
  eexists [], _, _. split; [reflexivity |].
  cbn [post_failed].
  match goal with
  | E : is_error_status _ = false |- _ => rewrite E
  end. reflexivity.
Qed.

Lemma exhaustion_raises_bind {W A B} (h : Handler W) (p : Prog A) (f : A -> Prog B)
    (w : W) :
  exhaustion_raises (run h p w) ->
  (forall a w1, exhaustion_raises (run h (f a) w1)) ->
  exhaustion_raises (run h (bind p f) w).
Proof.
  intros Hp Hf. rewrite run_bind. unfold exhaustion_raises in *.
  destruct (run h p w) as [[[a | e] w1] calls1]; cbn [fst snd] in *.
  - specialize (Hf a w1). destruct (run h (f a) w1) as [[r w2] calls2].
    cbn [fst snd] in *. intros prompt Hin.
    apply in_app_or in Hin. destruct Hin as [Hin | Hin].
    + destruct (Hp _ Hin) as [[msg Hmsg] _]. discriminate.
    + destruct (Hf _ Hin) as [Hr (before & payload & reply & -> & Hok)].
      split; [exact Hr |].
      exists (calls1 ++ before), payload, reply. now rewrite app_assoc.
  - intros prompt Hin.
    destruct (Hp _ Hin) as [[msg Hmsg] Htrace]. injection Hmsg as ->.
    split; [now exists msg | exact Htrace].
Qed.

Lemma exhaustion_raises_pure {W A} (h : Handler W) (p : Prog A) (w : W) :
  (exists a, p = Ret a) \/ (exists e, p = Raise e) -> exhaustion_raises (run h p w).
Proof.
  intros [[a ->] | [e ->]]; unfold exhaustion_raises; cbn; contradiction.
Qed.

Lemma exhaustion_raises_for_each {W A S} (h : Handler W) (body : S -> A -> Prog S)
    (xs : list A) (s : S) (w : W) :
  (forall s x w, exhaustion_raises (run h (body s x) w)) ->
  exhaustion_raises (run h (for_each xs s body) w).
Proof.
  intro Hb. revert s w. induction xs as [| x xs IH]; intros s w; cbn [for_each].
  - apply exhaustion_raises_pure. left. eauto.
  - apply exhaustion_raises_bind; [apply Hb |]. intros s' w1. apply IH.
Qed.

Lemma tracker_entries_exhaustion_raises {W} (to_datetime : string -> Result Datetime)
    (now : Now) (h : Handler W) (df : list Report.row) (log : list Log.entry) (w : W) :
  exhaustion_raises (run h (tracker_entries to_datetime now df log) w).
Proof.
  unfold tracker_entries, tracker_entries_at.
  destruct (due_dates to_datetime df) as [dates | e] eqn:Hd.
  - rewrite (process_past_due_invoices_Ok _ _ _ _ _ Hd). cbn [bind].
    rewrite (process_todays_invoices_Ok _ _ _ _ _ Hd).
    apply exhaustion_raises_bind.
    + apply exhaustion_raises_for_each. intros s row w1. unfold todays_body.
      destruct (String.eqb (Report.validation_status row) "VALID");
        [| apply exhaustion_raises_pure; left; eauto].
      destruct (negb (already_paid log row));
        [| apply exhaustion_raises_pure; left; eauto].
      apply exhaustion_raises_bind; [apply create_auto_exhaustion_raises |].
      intros a w2. apply exhaustion_raises_pure. left. eauto.
    + intros a w1. apply exhaustion_raises_pure. left. eauto.
  - rewrite (process_past_due_invoices_Raised _ _ _ _ _ Hd). cbn [bind].
    apply exhaustion_raises_pure. right. eauto.
Qed.

(** X13.  A payment made and then lost from the log: in every pass in which the
    language model is found exhausted when asked for a justification, that
    call is the last of the pass and comes right after a payment request
    that went through; the pass ends with a [RuntimeError] and the
    payment-log file is left as it was, so the payment just made has no
    entry, and neither has any earlier payment of the pass. *)
Theorem exhausted_model_loses_made_payment {W} (to_datetime : string -> Result Datetime)
    (h : Handler W) (now : Now) (validation_report_df : list Report.row)
    (payment_log_csv written : option (list Log.entry)) (exn : option Exn)
    (w w' : W) (calls : list Event) (prompt : Prompt) :
  run_pass to_datetime h now validation_report_df payment_log_csv w
  = (written, exn, w', calls) ->
  In (EvGenerateContent prompt None) calls ->
  written = payment_log_csv
  /\ (exists msg, exn = Some (RuntimeError msg))
  /\ exists before payload reply,
       calls = before ++ [EvPost payload reply; EvGenerateContent prompt None]
       /\ post_failed reply = false.
Proof.
  unfold run_pass, process_payments_and_past_due;
    unfold process_payments_and_past_due_at;
    change (tracker_entries_at to_datetime now now) with (tracker_entries to_datetime now).
  rewrite run_bind.
  pose proof (tracker_entries_exhaustion_raises to_datetime now h validation_report_df
                (load_existing_payment_log payment_log_csv) w) as F.
  unfold exhaustion_raises in F.
  destruct (run h (tracker_entries to_datetime now validation_report_df
                     (load_existing_payment_log payment_log_csv)) w)
    as [[[entries | e] w1] calls1]; cbn [fst snd run] in *;
    intros Hrun Hin; injection Hrun as <- <- <- <-.
  - rewrite app_nil_r in Hin. destruct (F _ Hin) as [[msg Hmsg] _]. discriminate.
  - destruct (F _ Hin) as [[msg Hmsg] Htrace]. injection Hmsg as ->.
    split; [reflexivity |]. split; [now exists msg | exact Htrace].
Qed.

(** ** The metrics of the first tab *)

Lemma log_due_dates_Ok (to_datetime : string -> Result Datetime) (df : list Log.entry)
    (dates : list (option string)) :
  log_due_dates to_datetime df = Ok dates -> dates = map (log_date_cell to_datetime) df.
Proof.
  unfold log_due_dates. revert dates.
  induction df as [| e df IH]; cbn [result_map map]; intros dates H.
  - now injection H as <-.
  - unfold log_date_cell at 1.
    destruct (to_datetime (Log.due_date e)) as [d |]; cbn [result_bind] in H;
      [| discriminate].
    destruct (result_map _ df) as [ds |]; cbn [result_bind] in H; [| discriminate].
    injection H as <-. now rewrite (IH ds eq_refl).
Qed.

Lemma result_map_all_Ok {A B} (f : A -> Result B) (xs : list A) :
  (forall x, In x xs -> exists y, f x = Ok y) -> exists ys, result_map f xs = Ok ys.
Proof.
  induction xs as [| x xs IH]; intro H; cbn [result_map]; [eauto |].
  destruct (H x (or_introl eq_refl)) as [y ->].
  destruct IH as [ys ->]; [intros x' Hin; apply H; now right |].
  cbn [result_bind]. eauto.
Qed.

Lemma filter_length_implied {A} (p q : A -> bool) (xs : list A) :
  (forall x, p x = true -> q x = true) ->
  (List.length (filter p xs) <= List.length (filter q xs))%nat.
Proof.
  intro H. induction xs as [| x xs IH]; cbn [filter]; [lia |].
  destruct (p x) eqn:P.
  - rewrite (H x P). cbn [List.length]. lia.
  - destruct (q x); cbn [List.length]; lia.
Qed.

(** What [calculate_invoice_metrics] returns when it returns. *)
Lemma calculate_invoice_metrics_Ok (to_datetime : string -> Result Datetime) (now : Now)
    (df : list Report.row) (log : list Log.entry) (total valid flagged paid overdue : Z) :
  calculate_invoice_metrics to_datetime now df log
  = Ok (total, valid, flagged, paid, overdue) ->
  total = len df
  /\ valid = len (filter is_valid df)
  /\ flagged = (total - valid)%Z
  /\ paid = len (filter (fun e => str_eq (log_date_cell to_datetime e)
                                         (strftime (now_date now))
                                  && String.eqb (Log.status e) "SUCCESS") log)
  /\ overdue = len (filter (fun r => due_before_today to_datetime now r
                                     && String.eqb (Report.validation_status r) "INVALID")
                           df).
Proof.
  unfold calculate_invoice_metrics.
  destruct (log_due_dates to_datetime log) as [ldates |] eqn:Hl; cbn [result_bind];
    [| discriminate].
  destruct (due_dates to_datetime df) as [dates |] eqn:Hd; cbn [result_bind];
    [| discriminate].
  apply log_due_dates_Ok in Hl. apply due_dates_Ok in Hd. subst ldates dates.
  rewrite !map_map, !mask_and_map, !select_map.
  intro H. injection H as <- <- <- <- <-. repeat split.
Qed.

(** X14.  The counts of the first tab fit together: clean and flagged invoices
    add up to the total; the overdue invoices are among the flagged ones,
    so a VALID row is never counted as overdue however late it is; and the
    payments of today are among the entries of the log.  No count is
    negative. *)
Theorem metrics_are_consistent (to_datetime : string -> Result Datetime) (now : Now)
    (validation_report_df : list Report.row) (existing_payment_log_df : list Log.entry)
    (total valid flagged paid_today overdue : Z) :
  calculate_invoice_metrics to_datetime now validation_report_df existing_payment_log_df
  = Ok (total, valid, flagged, paid_today, overdue) ->
  (total = valid + flagged
   /\ 0 <= valid
   /\ 0 <= overdue <= flagged
   /\ 0 <= paid_today <= len existing_payment_log_df)%Z.
Proof.
  intro H.
  destruct (calculate_invoice_metrics_Ok _ _ _ _ _ _ _ _ _ H)
    as (-> & -> & -> & -> & ->).
  unfold len.
  pose proof (filter_length is_valid validation_report_df) as Hsplit.
  pose proof (filter_length_implied
                (fun r => due_before_today to_datetime now r
                          && String.eqb (Report.validation_status r) "INVALID")
                (fun r => negb (is_valid r)) validation_report_df) as Hover.
  pose proof (filter_length_le
                (fun e => str_eq (log_date_cell to_datetime e) (strftime (now_date now))
                          && String.eqb (Log.status e) "SUCCESS")
                existing_payment_log_df) as Hpaid.
  assert (Himp : forall r,
            due_before_today to_datetime now r
            && String.eqb (Report.validation_status r) "INVALID" = true ->
            negb (is_valid r) = true).
  { intros r Hr. apply andb_true_iff in Hr. destruct Hr as [_ Hr].
    apply String.eqb_eq in Hr. unfold is_valid. now rewrite Hr. }
  specialize (Hover Himp). lia.
Qed.

(** X15.  The overdue count and the past-due rule of the tracker split the late
    rows between them: in a report whose rows are all VALID or INVALID (as
    [validate_invoices] makes them), read with the same clock, the rows
    counted as overdue and the rows the tracker takes as past due are
    together exactly the rows due before today, and no row is in both. *)
Theorem overdue_and_past_due_split_late_rows (to_datetime : string -> Result Datetime)
    (now : Now) (validation_report_df : list Report.row)
    (existing_payment_log_df : list Log.entry)
    (total valid flagged paid_today overdue : Z) :
  calculate_invoice_metrics to_datetime now validation_report_df existing_payment_log_df
  = Ok (total, valid, flagged, paid_today, overdue) ->
  Forall (fun r => Report.validation_status r = "VALID"
                   \/ Report.validation_status r = "INVALID") validation_report_df ->
  (overdue + len (filter (past_due to_datetime now) validation_report_df)
   = len (filter (due_before_today to_datetime now) validation_report_df))%Z
  /\ forall r, In r validation_report_df ->
       past_due to_datetime now r = true ->
       (due_before_today to_datetime now r
        && String.eqb (Report.validation_status r) "INVALID") = false.
Proof.
  intros H Hst.
  destruct (calculate_invoice_metrics_Ok _ _ _ _ _ _ _ _ _ H)
    as (_ & _ & _ & _ & ->).
  split.
  - clear H. unfold len. rewrite <- Nat2Z.inj_add. f_equal.
    induction Hst as [| r rs Hr _ IH]; [reflexivity |].
    cbn [filter].
    replace (past_due to_datetime now r)
      with (due_before_today to_datetime now r && is_valid r) by reflexivity.
    destruct (due_before_today to_datetime now r); cbn [andb]; [| exact IH].
    unfold is_valid.
    destruct Hr as [-> | ->]; cbn [String.eqb Ascii.eqb Bool.eqb andb List.length];
      lia.
  - intros r _ Hp. unfold past_due, is_valid in Hp. apply andb_true_iff in Hp.
    destruct Hp as [_ Hv]. apply String.eqb_eq in Hv. rewrite Hv.
    now rewrite andb_false_r.
Qed.

Lemma emitted_entry_row {W} (to_datetime : string -> Result Datetime) (now : Now)
    (h : Handler W) (df : list Report.row) (log entries : list Log.entry)
    (w w' : W) (calls : list Event) (e : Log.entry) :
  run h (tracker_entries to_datetime now df log) w = (Ok entries, w', calls) ->
  In e entries -> exists r, In r df /\ entry_of_row e r.
Proof.
  intros H He.
  destruct (tracker_entries_run_Ok _ _ _ _ _ _ _ _ _ H) as (dates & todays & _ & -> & HF & _).
  apply in_app_or in He. destruct He as [He | He].
  - apply in_map_iff in He. destruct He as [r [<- Hr]]. apply filter_In in Hr.
    exists r. split; [tauto |]. unfold entry_of_row. cbn. auto.
  - destruct (Forall2_In_l _ _ _ _ HF He) as [r [Hr [Her _]]].
    apply filter_In in Hr. exists r. tauto.
Qed.

(** X16.  The metrics can be read after a pass: when the due dates of the
    payment-log file parse and a pass over a report does not raise, the
    due dates of the file it writes parse too (each new entry carries the
    due date of a report row, and those parsed), so
    [calculate_invoice_metrics] on the report and the written file
    returns, at any later reading of the clock. *)
Theorem metrics_return_after_pass {W} (to_datetime : string -> Result Datetime)
    (h : Handler W) (now : Now) (validation_report_df : list Report.row)
    (payment_log_csv written : option (list Log.entry)) (w w' : W)
    (calls : list Event) (dates : list (option string)) :
  run_pass to_datetime h now validation_report_df payment_log_csv w
  = (written, None, w', calls) ->
  log_due_dates to_datetime (load_existing_payment_log payment_log_csv) = Ok dates ->
  forall later : Now,
  exists paid_today overdue,
    calculate_invoice_metrics to_datetime later validation_report_df
      (load_existing_payment_log written)
    = Ok (len validation_report_df,
          len (filter is_valid validation_report_df),
          (len validation_report_df - len (filter is_valid validation_report_df))%Z,
          paid_today, overdue).
Proof.
  intros H Hlog later.
  destruct (run_pass_None _ _ _ _ _ _ _ _ _ H) as (entries & Hrun & ->).
  cbn [load_existing_payment_log].
  destruct (tracker_entries_Ok _ _ _ _ _ _ _ _ _ Hrun) as [[rdates Hd] _].
  assert (Hrows : forall r, In r validation_report_df ->
            exists d, to_datetime (Report.due_date r) = Ok d).
  { intros r Hin. unfold due_dates in Hd. apply result_map_Ok in Hd.
    destruct (Forall2_In_l _ _ _ _ Hd Hin) as [c [_ Hc]].
    destruct (to_datetime (Report.due_date r)) as [d |]; [eauto | discriminate]. }
  destruct (result_map_all_Ok
              (fun e => result_bind (to_datetime (Log.due_date e))
                                    (fun d => Ok (dt_strftime d)))
              (load_existing_payment_log payment_log_csv ++ entries)) as [ldates Hl].
  { intros e He. apply in_app_or in He. destruct He as [He | He].
    - unfold log_due_dates in Hlog. apply result_map_Ok in Hlog.
      destruct (Forall2_In_l _ _ _ _ Hlog He) as [c [_ Hc]]. eauto.
    - destruct (emitted_entry_row _ _ _ _ _ _ _ _ _ _ Hrun He) as [r [Hr Her]].
      destruct Her as (_ & _ & Hdue & _). rewrite Hdue.
      destruct (Hrows r Hr) as [d ->]. cbn [result_bind]. eauto. }
  unfold calculate_invoice_metrics. fold (log_due_dates to_datetime) in Hl.
  unfold log_due_dates at 1. rewrite Hl, Hd. cbn [result_bind].
  rewrite select_map. eexists _, _. reflexivity.
Qed.

(** ** The comparison table of an escalation *)

(** Every row of a report is a joined row, classified. *)
Lemma report_rows_classified (invoices_df : DataFrame Inv.row) (po_df : DataFrame PO.row)
    (report : list Report.row) (r : Report.row) :
  returned (validate_invoices invoices_df po_df) = Ok report ->
  In r report ->
  exists j, r = report_row (validate_update (Merged.mk j "" "VALID") (Merged.mk j "" "VALID")).
Proof.
  intros Hok Hr.
  destruct (validate_invoices_Ok _ _ _ Hok) as (inv_rows & po_rows & Hreach).
  rewrite (validate_invoices_at_merge _ _ _ _ Hreach) in Hok. cbn [returned] in Hok.
  destruct (report_after_merge_Ok _ _ _ _ _ Hok) as (joined & _ & Hrep).
  subst report. rewrite validation_loop_map, !map_map in Hr.
  apply in_map_iff in Hr. destruct Hr as [j [<- _]]. now exists j.
Qed.

(** X17.  The escalation table agrees with the classifier: for every row of a
    report [validate_invoices] returns, [build_field_comparison] reads the
    reasons back from the result text and gives one line for each field
    in which the invoice and the purchase order differ (quantity, rate,
    total amount, in this order), and nothing else; the table of a row
    reported as "Missing PO" or "Match" is empty; and the call raises
    exactly when the quantities differ and one of them is not a finite
    number. *)
Theorem escalation_table_lists_differences (format_float : float -> string)
    (invoices_df : DataFrame Inv.row) (po_df : DataFrame PO.row)
    (report : list Report.row) :
  returned (validate_invoices invoices_df po_df) = Ok report ->
  Forall (fun r => build_field_comparison format_float r
                   = table_of_differences format_float r) report.
Proof.
  intro Hok. apply Forall_forall. intros r Hr.
  destruct (report_rows_classified _ _ _ _ Hok Hr) as [j ->].
  unfold validate_update. rewrite reasons_of_spec.
  unfold table_of_differences, build_field_comparison, field_comparison_step, spec_reasons.
  destruct (isna (Joined.quantity_po j) || isna (Joined.rate_po j)
            || isna (Joined.expected_amount j)) eqn:M.
  - cbn [app report_row Merged.joined Merged.validation_result Merged.validation_status
         Merged.set_validation_result Merged.set_validation_status
         Report.quantity_po Report.rate_po Report.expected_amount
         Report.quantity_inv Report.rate_inv Report.amount
         Report.validation_result String.concat].
    rewrite M.
    destruct (int_of_float (Inv.quantity (Joined.inv j))) as [a |];
      destruct (int_of_float (Joined.quantity_po j)) as [b |];
      cbv -[str_of_int]; reflexivity.
  - destruct (float_ne (Inv.quantity (Joined.inv j)) (Joined.quantity_po j)) eqn:Q;
      destruct (float_ne (Inv.rate (Joined.inv j)) (Joined.rate_po j)) eqn:R;
      destruct (float_gt (Inv.amount (Joined.inv j)) (Joined.expected_amount j)) eqn:G;
      destruct (float_lt (Inv.amount (Joined.inv j)) (Joined.expected_amount j)) eqn:L;
      cbn [app report_row Merged.joined Merged.validation_result Merged.validation_status
           Merged.set_validation_result Merged.set_validation_status
           Report.quantity_po Report.rate_po Report.expected_amount
           Report.quantity_inv Report.rate_inv Report.amount
           Report.validation_result String.concat];
      rewrite M, ?Q, ?R, ?G, ?L; cbn [orb];
      destruct (int_of_float (Inv.quantity (Joined.inv j))) as [a |];
      destruct (int_of_float (Joined.quantity_po j)) as [b |];
      cbv -[str_of_int]; reflexivity.
Qed.

(** ** Key rotation of the client *)

Lemma round_robin_S (keys : list string) (start count : nat) :
  keys <> [] -> start < List.length keys ->
  round_robin keys start (Datatypes.S count)
  = nth start keys "" :: round_robin keys ((start + 1) mod List.length keys) count.
Proof.
  intros Hne Hlt. unfold round_robin. cbn [seq map].
  rewrite Nat.add_0_r, Nat.mod_small by exact Hlt. f_equal.
  rewrite <- seq_shift, map_map. apply map_ext. intro k.
  assert (Hn : List.length keys <> 0) by (destruct keys; [congruence | discriminate]).
  rewrite Nat.Div0.add_mod_idemp_l. f_equal. f_equal. lia.
Qed.

(** X18.  The client tries its keys in turn: one call of [generate_content]
    with at least one key and the index in range calls the SDK with the
    current key, then with the next ones in round-robin order, and stops
    at the first answer or after [max_retries] calls; it never changes its
    list of keys; after an answer the current key is the key that
    answered, and after [max_retries] failures the index has advanced by
    [max_retries], wrapping around. *)
Theorem keys_tried_in_turn {S} (sdk : string -> Prompt -> S -> option string * S)
    (max_retries : nat) (self self' : GeminiMultiKeyClient) (prompt : Prompt)
    (s s' : S) (used used' : list string) (reply : option string) :
  api_keys self <> [] ->
  current_key_index self < List.length (api_keys self) ->
  generate_content (recording sdk) max_retries self prompt (s, used)
  = (reply, self', (s', used')) ->
  exists attempts,
    attempts <= max_retries
    /\ used' = used ++ round_robin (api_keys self) (current_key_index self) attempts
    /\ api_keys self' = api_keys self
    /\ current_key_index self' < List.length (api_keys self)
    /\ match reply with
       | Some _ =>
           0 < attempts
           /\ current_key_index self'
              = (current_key_index self + (attempts - 1)) mod List.length (api_keys self)
       | None =>
           attempts = max_retries
           /\ current_key_index self'
              = (current_key_index self + max_retries) mod List.length (api_keys self)
       end.
Proof.
  revert self s used.
  induction max_retries as [| n IH]; intros self s used Hne Hlt; cbn [generate_content].
  - intro H. injection H as <- <- <- <-. exists 0. cbn [round_robin seq map].
    rewrite app_nil_r, Nat.add_0_r, Nat.mod_small by exact Hlt. repeat split; auto.
  - unfold recording at 1.
    destruct (sdk (nth (current_key_index self) (api_keys self) "") prompt s)
      as [[text |] s1].
    + intro H. injection H as <- <- <- <-. exists 1.
      rewrite round_robin_S by assumption. cbn [round_robin seq map].
      replace (1 - 1) with 0 by lia.
      rewrite Nat.add_0_r, Nat.mod_small by exact Hlt.
      repeat split; auto; lia.
    + assert (Hn : List.length (api_keys self) <> 0)
        by (destruct (api_keys self); [congruence | discriminate]).
      intro H.
      destruct (IH (rotate_key self) s1 _ Hne
                   (Nat.mod_upper_bound _ _ Hn) H)
        as (attempts & Hle & Hused & Hkeys & Hidx & Hreply).
      cbn [rotate_key api_keys current_key_index] in *.
      exists (Datatypes.S attempts). split; [lia |].
      split; [rewrite Hused, round_robin_S, <- app_assoc by assumption; reflexivity |].
      split; [exact Hkeys |]. split; [exact Hidx |].
      destruct reply as [text |].
      * destruct Hreply as [Hpos ->]. split; [lia |].
        rewrite Nat.Div0.add_mod_idemp_l. f_equal. lia.
      * destruct Hreply as [-> ->]. split; [reflexivity |].
        rewrite Nat.Div0.add_mod_idemp_l. f_equal. lia.
Qed.

(** ** Extraction: the cleaning of an answer and the walk over the folder *)

Lemma lstrip_spaces (pre x : string) :
  all_chars is_space pre = true -> lstrip (pre ++ x)%string = lstrip x.
Proof.
  induction pre as [| c pre IH]; cbn [all_chars append lstrip]; [reflexivity |].
  intro H. apply andb_true_iff in H. destruct H as [-> H]. exact (IH H).
Qed.

Lemma rstrip_spaces (post : string) :
  all_chars is_space post = true -> rstrip post = "".
Proof.
  induction post as [| c post IH]; cbn [all_chars rstrip]; [reflexivity |].
  intro H. apply andb_true_iff in H. destruct H as [Hc H]. now rewrite (IH H), Hc.
Qed.

Lemma rstrip_app_spaces (x post : string) :
  all_chars is_space post = true -> rstrip (x ++ post)%string = rstrip x.
Proof.
  intro H. induction x as [| c x IH]; cbn [append rstrip].
  - now apply rstrip_spaces.
  - now rewrite IH.
Qed.

Lemma rstrip_app_keep (x y : string) :
  rstrip y <> "" -> rstrip (x ++ y)%string = (x ++ rstrip y)%string.
Proof.
  intro H. induction x as [| c x IH]; cbn [append rstrip]; [reflexivity |].
  rewrite IH. destruct (x ++ rstrip y)%string as [| d t] eqn:E; [| reflexivity].
  exfalso. destruct x; cbn [append] in E; [contradiction | discriminate].
Qed.

Lemma append_assoc (a b c : string) : ((a ++ b) ++ c = a ++ b ++ c)%string.
Proof. induction a as [| x a IH]; cbn [append]; [reflexivity | now rewrite IH]. Qed.

Lemma prefix_append (s t : string) : String.prefix s (s ++ t)%string = true.
Proof.
  induction s as [| c s IH]; cbn [append String.prefix].
  - destruct t; reflexivity.
  - destruct (ascii_dec c c); [exact IH | congruence].
Qed.

Lemma prefix_backtick (old rest : string) (c : ascii) :
  not_backtick c = true -> String.prefix (String "`" old) (String c rest) = false.
Proof.
  unfold not_backtick. intro H. cbn [String.prefix].
  destruct (ascii_dec "`" c) as [<- | _]; [discriminate | reflexivity].
Qed.

Lemma replace_from_skip (old new pre s : string) :
  replace_from old new (String.length pre) (pre ++ s)%string = replace_from old new 0 s.
Proof.
  induction pre as [| c pre IH]; cbn [String.length append]; [reflexivity |].
  cbn [replace_from]. exact IH.
Qed.

(** A text without backticks, closed by a fence, under the two
    replacements of the cleaning. *)
Lemma replace_tag_no_match (body : string) :
  all_chars not_backtick body = true ->
  replace_from "```json" "" 0 (body ++ "```")%string = (body ++ "```")%string.
Proof.
  induction body as [| c body IH]; cbn [all_chars append]; [reflexivity |].
  intro H. apply andb_true_iff in H. destruct H as [Hc H].
  cbn [replace_from]. rewrite (prefix_backtick _ _ _ Hc), (IH H). reflexivity.
Qed.

Lemma replace_fence_closing (body : string) :
  all_chars not_backtick body = true ->
  replace_from "```" "" 0 (body ++ "```")%string = body.
Proof.
  induction body as [| c body IH]; cbn [all_chars append]; [reflexivity |].
  intro H. apply andb_true_iff in H. destruct H as [Hc H].
  cbn [replace_from]. rewrite (prefix_backtick _ _ _ Hc), (IH H). reflexivity.
Qed.

Lemma strip_fenced (pre body post : string) :
  all_chars is_space pre = true -> all_chars is_space post = true ->
  strip (pre ++ "```json" ++ body ++ "```" ++ post)%string
  = ("```json" ++ body ++ "```")%string.
Proof.
  intros Hpre Hpost. unfold strip. rewrite (lstrip_spaces _ _ Hpre).
  replace (lstrip ("```json" ++ body ++ "```" ++ post)%string)
    with ("```json" ++ body ++ "```" ++ post)%string by reflexivity.
  rewrite <- (append_assoc body "```" post).
  rewrite <- (append_assoc "```json" (body ++ "```") post).
  rewrite (rstrip_app_spaces _ _ Hpost).
  rewrite <- (append_assoc "```json" body "```").
  rewrite rstrip_app_keep; [| cbn; discriminate].
  rewrite append_assoc. reflexivity.
Qed.

(** X19.  A fenced answer is unwrapped: when the model answers a JSON text
    between a [```json] fence and a closing fence, with white space
    around the fences and no backtick inside, [json.loads] is given the
    text between the fences, stripped. *)
Theorem fenced_answer_is_unwrapped (pre body post : string) :
  all_chars is_space pre = true ->
  all_chars is_space post = true ->
  all_chars not_backtick body = true ->
  clean_json_output (pre ++ "```json" ++ body ++ "```" ++ post)%string = strip body.
Proof.
  intros Hpre Hpost Hbody. unfold clean_json_output.
  rewrite (strip_fenced _ _ _ Hpre Hpost).
  unfold startswith. rewrite prefix_append. f_equal. unfold replace.
  assert (E : replace_from "```json" "" 0 ("```json" ++ body ++ "```")%string
              = (body ++ "```")%string).
  { replace ("```json" ++ body ++ "```")%string
      with (String "`" ("``json" ++ body ++ "```")%string) by reflexivity.
    cbn [replace_from].
    replace (String "`" ("``json" ++ body ++ "```")%string)
      with ("```json" ++ body ++ "```")%string by reflexivity.
    rewrite prefix_append.
    replace (String.length "```json" - 1) with (String.length "``json") by reflexivity.
    rewrite (replace_from_skip "```json" "" "``json" (body ++ "```")%string).
    cbn [append]. exact (replace_tag_no_match _ Hbody). }
  rewrite E. exact (replace_fence_closing _ Hbody).
Qed.

(** The rows a successful batch returns extend the rows it started from. *)
Lemma analyze_loop_extends {W} (json_loads : string -> option JsonValue)
    (h : Handler W) (files : list (string * string)) (parsed_invoices rows : list Inv.row)
    (w w' : W) (calls : list Event) :
  run h (analyze_loop json_loads files parsed_invoices) w = (Ok rows, w', calls) ->
  exists more, rows = parsed_invoices ++ more.
Proof.
  revert parsed_invoices w calls.
  induction files as [| [f t] files IH]; intros parsed_invoices w calls; cbn [analyze_loop].
  - cbn [run]. intro H. injection H as <- _ _. exists []. now rewrite app_nil_r.
  - destruct (endswith f ".pdf"); [| apply IH].
    rewrite run_bind, run_parse_cleaned.
    destruct (on_generate_content h (ExtractionPrompt t) w) as [[response_text |] w1].
    + destruct (json_loads (clean_json_output response_text))
        as [[invoice_data | | | | | |] |]; cbn [run]; try discriminate.
      * destruct (run h (analyze_loop json_loads files
                           (parsed_invoices ++ flatten f invoice_data)) w1)
          as [[res w2] calls2] eqn:L.
        intro H. injection H as -> -> _.
        destruct (IH _ _ _ L) as [more ->]. rewrite <- app_assoc. eauto.
      * intro H. injection H as <- _ _. exists []. now rewrite app_nil_r.
    + cbn [run]. intro H. injection H as <- _ _. exists []. now rewrite app_nil_r.
Qed.

(** X20.  A malformed answer stops the batch with an exception: in every run
    of [analyze_invoices] in which the model gave an answer that, once
    cleaned, [json.loads] rejects, the batch raises a [ValueError] and
    returns no rows, so [invoices.csv] is not written at all; the rows of
    the invoices extracted before it are lost with it.  (An exhausted
    client, by contrast, ends the batch quietly.) *)
Theorem malformed_answer_aborts_batch {W} (json_loads : string -> option JsonValue)
    (h : Handler W) (pdf_folder : list (string * string)) (w w' : W)
    (result : Result (list Inv.row)) (calls : list Event)
    (prompt : Prompt) (response_text : string) :
  run h (analyze_invoices json_loads pdf_folder) w = (result, w', calls) ->
  In (EvGenerateContent prompt (Some response_text)) calls ->
  json_loads (clean_json_output response_text) = None ->
  exists msg, result = Raised (ValueError msg).
Proof.
  unfold analyze_invoices. generalize (@nil Inv.row) as parsed_invoices.
  intro parsed_invoices. revert parsed_invoices w calls.
  induction pdf_folder as [| [f t] files IH]; intros parsed_invoices w calls;
    cbn [analyze_loop].
  - cbn [run]. intros H Hin. injection H as _ _ <-. contradiction.
  - destruct (endswith f ".pdf"); [| apply IH].
    rewrite run_bind, run_parse_cleaned.
    destruct (on_generate_content h (ExtractionPrompt t) w) as [[answer |] w1].
    + destruct (json_loads (clean_json_output answer))
        as [[invoice_data | | | | | |] |] eqn:J; cbn [run].
      * destruct (run h (analyze_loop json_loads files
                           (parsed_invoices ++ flatten f invoice_data)) w1)
          as [[res w2] calls2] eqn:L.
        intros H Hin Hbad. injection H as <- <- <-.
        destruct Hin as [Hin | Hin].
        -- injection Hin as _ <-. congruence.
        -- exact (IH _ _ _ L Hin Hbad).
      * intros H Hin Hbad. injection H as _ _ <-.
        destruct Hin as [Hin | []]. injection Hin as _ <-. congruence.
      * intros H Hin Hbad. injection H as _ _ <-.
        destruct Hin as [Hin | []]. injection Hin as _ <-. congruence.
      * intros H Hin Hbad. injection H as _ _ <-.
        destruct Hin as [Hin | []]. injection Hin as _ <-. congruence.
      * intros H Hin Hbad. injection H as _ _ <-.
        destruct Hin as [Hin | []]. injection Hin as _ <-. congruence.
      * intros H Hin Hbad. injection H as _ _ <-.
        destruct Hin as [Hin | []]. injection Hin as _ <-. congruence.
      * intros H Hin Hbad. injection H as _ _ <-.
        destruct Hin as [Hin | []]. injection Hin as _ <-. congruence.
      * intros H _ _. injection H as <- _ _. eauto.
    + cbn [run]. intros H Hin. injection H as _ _ <-.
      destruct Hin as [Hin | []]. discriminate.
Qed.

(** X21.  The walk over the folder: in every run of [analyze_invoices] the
    prompts sent to the model are the texts of the files whose name ends
    in [.pdf], in the order of the listing, each at most once and none
    skipped, up to the point where the run ended; a file of another name
    is never sent; no payment request is made; and a run that returns
    without having found the client exhausted and without an answer
    [null] (the two ways the loop is left early) has sent every PDF. *)
Theorem pdfs_are_sent_in_order {W} (json_loads : string -> option JsonValue)
    (h : Handler W) (pdf_folder : list (string * string)) (w w' : W)
    (result : Result (list Inv.row)) (calls : list Event) :
  run h (analyze_invoices json_loads pdf_folder) w = (result, w', calls) ->
  exists not_sent,
    pdf_prompts pdf_folder = asked calls ++ not_sent
    /\ posted calls = []
    /\ ((exists rows, result = Ok rows) ->
        none_exhausted calls -> no_null_answer json_loads calls -> not_sent = []).
Proof.
  unfold analyze_invoices. generalize (@nil Inv.row) as parsed_invoices.
  intro parsed_invoices. revert parsed_invoices w calls.
  induction pdf_folder as [| [f t] files IH]; intros parsed_invoices w calls;
    cbn [analyze_loop].
  - cbn [run]. intro H. injection H as _ _ <-. exists []. repeat split.
  - unfold pdf_prompts. cbn [filter fst].
    destruct (endswith f ".pdf"); [| apply IH].
    cbn [map snd]. rewrite run_bind, run_parse_cleaned.
    destruct (on_generate_content h (ExtractionPrompt t) w) as [[answer |] w1].
    + destruct (json_loads (clean_json_output answer))
        as [[invoice_data | | | | | |] |] eqn:J; cbn [run].
      * destruct (run h (analyze_loop json_loads files
                           (parsed_invoices ++ flatten f invoice_data)) w1)
          as [[res w2] calls2] eqn:L.
        intro H. injection H as <- <- <-.
        destruct (IH _ _ _ L) as (not_sent & Hsent & Hposted & Hall).
        exists not_sent. cbn [app asked posted flat_map].
        fold (asked calls2). fold (posted calls2).
        unfold pdf_prompts in Hsent. rewrite Hsent. split; [reflexivity |].
        split; [exact Hposted |].
        intros Hok Hnone Hnull. apply (Hall Hok).
        -- intros p Hp. apply (Hnone p). now right.
        -- intros p r Hp. apply (Hnull p r). now right.
      * intro H. injection H as _ _ <-.
        eexists. cbn [asked posted flat_map app]. split; [reflexivity |].
        split; [reflexivity |]. intros _ _ Hnull. exfalso.
        apply (Hnull (ExtractionPrompt t) answer); [now left | exact J].
      * intro H. injection H as <- _ <-.
        eexists. cbn [asked posted flat_map app]. split; [reflexivity |].
        split; [reflexivity |]. intros [rows Hrows]. discriminate.
      * intro H. injection H as <- _ <-.
        eexists. cbn [asked posted flat_map app]. split; [reflexivity |].
        split; [reflexivity |]. intros [rows Hrows]. discriminate.
      * intro H. injection H as <- _ <-.
        eexists. cbn [asked posted flat_map app]. split; [reflexivity |].
        split; [reflexivity |]. intros [rows Hrows]. discriminate.
      * intro H. injection H as <- _ <-.
        eexists. cbn [asked posted flat_map app]. split; [reflexivity |].
        split; [reflexivity |]. intros [rows Hrows]. discriminate.
      * intro H. injection H as <- _ <-.
        eexists. cbn [asked posted flat_map app]. split; [reflexivity |].
        split; [reflexivity |]. intros [rows Hrows]. discriminate.
      * intro H. injection H as <- _ <-.
        eexists. cbn [asked posted flat_map app]. split; [reflexivity |].
        split; [reflexivity |]. intros [rows Hrows]. discriminate.
    + cbn [run]. intro H. injection H as _ _ <-.
      eexists. cbn [asked posted flat_map app]. split; [reflexivity |].
      split; [reflexivity |]. intros _ Hnone. exfalso.
      apply (Hnone (ExtractionPrompt t)). now left.
Qed.

(** Where the rows of an extracted invoice end up. *)
Lemma analyze_loop_rows_of {W} (json_loads : string -> option JsonValue)
    (h : Handler W) (files : list (string * string)) (parsed_invoices rows : list Inv.row)
    (w w' : W) (calls : list Event) (prompt : Prompt) (response_text : string)
    (invoice_data : Parsed.invoice) :
  run h (analyze_loop json_loads files parsed_invoices) w = (Ok rows, w', calls) ->
  In (EvGenerateContent prompt (Some response_text)) calls ->
  json_loads (clean_json_output response_text) = Some (JObject invoice_data) ->
  exists before pdf_file after, rows = before ++ flatten pdf_file invoice_data ++ after.
Proof.
  revert parsed_invoices w calls.
  induction files as [| [f t] files IH]; intros parsed_invoices w calls; cbn [analyze_loop].
  - cbn [run]. intros H Hin. injection H as _ _ <-. contradiction.
  - destruct (endswith f ".pdf"); [| apply IH].
    rewrite run_bind, run_parse_cleaned.
    destruct (on_generate_content h (ExtractionPrompt t) w) as [[answer |] w1].
    + destruct (json_loads (clean_json_output answer))
        as [[parsed | | | | | |] |] eqn:J; cbn [run]; try discriminate.
      * destruct (run h (analyze_loop json_loads files
                           (parsed_invoices ++ flatten f parsed)) w1)
          as [[res w2] calls2] eqn:L.
        intros H Hin Hgood. injection H as -> -> <-.
        destruct Hin as [Hin | Hin].
        -- injection Hin as _ <-. rewrite J in Hgood. injection Hgood as <-.
           destruct (analyze_loop_extends _ _ _ _ _ _ _ _ L) as [more ->].
           exists parsed_invoices, f, more. now rewrite <- app_assoc.
        -- exact (IH _ _ _ L Hin Hgood).
      * intros H Hin Hgood. injection H as _ _ <-.
        destruct Hin as [Hin | []]. injection Hin as _ <-. congruence.
    + cbn [run]. intros H Hin. injection H as _ _ <-.
      destruct Hin as [Hin | []]. discriminate.
Qed.

(** X22.  An invoice with two line items or more cannot be validated: when a
    batch returns its rows and one of the answers it got was an invoice
    whose [item_details] has at least two elements, [validate_invoices]
    on a frame of these rows raises for every frame of purchase orders.
    The rows [analyze_invoices] builds for one invoice share the join key,
    and the merge is validated as one-to-one. *)
Theorem multi_item_invoice_cannot_be_validated {W}
    (json_loads : string -> option JsonValue) (h : Handler W)
    (pdf_folder : list (string * string)) (w w' : W) (rows_written : list Inv.row)
    (calls : list Event) (prompt : Prompt) (response_text : string)
    (invoice_data : Parsed.invoice) :
  run h (analyze_invoices json_loads pdf_folder) w = (Ok rows_written, w', calls) ->
  In (EvGenerateContent prompt (Some response_text)) calls ->
  json_loads (clean_json_output response_text) = Some (JObject invoice_data) ->
  2 <= List.length (get_default (Parsed.item_details invoice_data) []) ->
  forall (labels : list string) (po_df : DataFrame PO.row),
  exists e,
    returned (validate_invoices (mkDataFrame labels rows_written) po_df) = Raised e.
Proof.
  intros Hrun Hin Hgood Htwo labels po_df.
  destruct (analyze_loop_rows_of _ _ _ _ _ _ _ _ _ _ _ Hrun Hin Hgood)
    as (before & pdf_file & after & ->).
  pose proof (flatten_has_duplicate_key pdf_file invoice_data before after Htwo) as Hdup.
  destruct (validate_invoices_fails_or_merges
              (mkDataFrame labels (before ++ flatten pdf_file invoice_data ++ after)) po_df)
    as [He | (inv_rows & po_rows & Hreach)]; [exact He |].
  rewrite (validate_invoices_at_merge _ _ _ _ Hreach). cbn [returned].
  destruct Hreach as (_ & Hinv & _ & _). cbn [rows] in Hinv.
  apply astype_inv_column_Ok in Hinv.
  destruct (pd_merge_not_unique inv_rows po_rows) as [msg Hmsg].
  - left. exact (duplicate_left_keys _ _ Hinv Hdup).
  - exact (report_after_merge_Raised _ _ _ _ _ Hmsg).
Qed.

(** ** The region of an invoice *)

Lemma all_chars_lstrip (p : ascii -> bool) (s : string) :
  all_chars p s = true -> all_chars p (lstrip s) = true.
Proof.
  induction s as [| c s IH]; cbn [all_chars lstrip]; [reflexivity |].
  intro H. destruct (is_space c); [| exact H].
  apply andb_true_iff in H. tauto.
Qed.

Lemma all_chars_rstrip (p : ascii -> bool) (s : string) :
  all_chars p s = true -> all_chars p (rstrip s) = true.
Proof.
  induction s as [| c s IH]; cbn [all_chars rstrip]; [reflexivity |].
  intro H. apply andb_true_iff in H. destruct H as [Hc H]. specialize (IH H).
  destruct (rstrip s) as [| d t].
  - destruct (is_space c); cbn [all_chars]; [reflexivity | now rewrite Hc].
  - cbn [all_chars] in *. now rewrite Hc, IH.
Qed.

Lemma split_pieces (sep : ascii) (s : string) :
  split sep s <> []
  /\ Forall (fun t => all_chars (fun c => negb (Ascii.eqb c sep)) t = true) (split sep s).
Proof.
  induction s as [| c s [Hne IH]]; cbn [split].
  - split; [discriminate | repeat constructor].
  - destruct (Ascii.eqb c sep) eqn:E.
    + split; [discriminate | constructor; [reflexivity | exact IH]].
    + destruct (split sep s) as [| t ts]; [contradiction |].
      split; [discriminate |]. inversion IH as [| ? ? Ht Hts]; subst.
      constructor; [| exact Hts]. cbn [all_chars]. now rewrite E, Ht.
Qed.

Lemma lstrip_fixed (s : string) : lstrip (lstrip s) = lstrip s.
Proof.
  induction s as [| c s IH]; cbn [lstrip]; [reflexivity |].
  destruct (is_space c) eqn:E; [exact IH |]. cbn [lstrip]. now rewrite E.
Qed.

Lemma rstrip_fixed (s : string) : rstrip (rstrip s) = rstrip s.
Proof.
  induction s as [| c s IH]; cbn [rstrip]; [reflexivity |].
  destruct (rstrip s) as [| d t] eqn:R.
  - destruct (is_space c) eqn:E; cbn [rstrip]; [reflexivity | now rewrite E].
  - cbn [rstrip] in IH |- *. rewrite IH. reflexivity.
Qed.

Lemma lstrip_rstrip (s : string) : lstrip s = s -> lstrip (rstrip s) = rstrip s.
Proof.
  destruct s as [| c s]; [reflexivity |]. cbn [lstrip rstrip].
  destruct (is_space c) eqn:E.
  - intro H. exfalso.
    assert (L : String.length (lstrip s) <= String.length s).
    { clear. induction s as [| d s IH]; cbn [lstrip String.length]; [lia |].
      destruct (is_space d); cbn [String.length]; lia. }
    rewrite H in L. cbn [String.length] in L. lia.
  - intros _. destruct (rstrip s); cbn [lstrip]; now rewrite E.
Qed.

Lemma strip_fixed (s : string) : strip (strip s) = strip s.
Proof.
  unfold strip. rewrite (lstrip_rstrip (lstrip s) (lstrip_fixed s)).
  apply rstrip_fixed.
Qed.

(** X23.  The regions the third tab groups by are normalised: whatever the
    [ship_to] cell is, its region holds no comma and no white space at
    either end (stripping it again changes nothing), so two addresses
    that differ only by spaces around their last component fall into the
    same group; and an address without a comma is in the group
    "Unknown". *)
Theorem regions_are_normalised (ship_to : string) :
  all_chars not_comma (region_of ship_to) = true
  /\ strip (region_of ship_to) = region_of ship_to
  /\ (contains_char "," ship_to = false -> region_of ship_to = "Unknown").
Proof.
  unfold region_of. split; [| split].
  - destruct (contains_char "," (strip ship_to) && negb (String.eqb (strip ship_to) ""));
      [| reflexivity].
    unfold strip at 1. apply all_chars_rstrip, all_chars_lstrip.
    destruct (split_pieces "," (strip ship_to)) as [Hne HF].
    rewrite Forall_forall in HF. apply HF.
    destruct (split "," (strip ship_to)) as [| t ts]; [contradiction |].
    apply (@exists_last _ (t :: ts)) in Hne. destruct Hne as (l' & a & E).
    rewrite E, last_last. apply in_or_app. right. now left.
  - destruct (contains_char "," (strip ship_to) && negb (String.eqb (strip ship_to) ""));
      [apply strip_fixed | reflexivity].
  - intro H.
    assert (K : forall s, contains_char "," s = false ->
                          contains_char "," (lstrip s) = false
                          /\ contains_char "," (rstrip s) = false).
    { clear. induction s as [| c s IH]; cbn [contains_char lstrip rstrip]; [auto |].
      intro H. apply orb_false_iff in H. destruct H as [Hc H].
      destruct (IH H) as [IHl IHr]. split.
      - destruct (is_space c); [exact IHl |]. cbn [contains_char]. now rewrite Hc, H.
      - destruct (rstrip s) as [| d t].
        + destruct (is_space c); cbn [contains_char]; [reflexivity | now rewrite Hc].
        + cbn [contains_char] in *. now rewrite Hc, IHr. }
    unfold strip. destruct (K _ H) as [Hl _]. destruct (K _ Hl) as [_ Hr].
    now rewrite Hr.
Qed.

(** ** The API keys *)

Lemma load_numbered_keys_run (getenv : string -> option string) (vals : list string) :
  forall (fuel start : nat) (keys : list string),
  (forall i, i < List.length vals ->
     getenv (numbered_key (start + i)) = Some (nth i vals "") /\ nth i vals "" <> "") ->
  is_set (getenv (numbered_key (start + List.length vals))) = false ->
  List.length vals < fuel ->
  load_numbered_keys getenv fuel (Z.of_nat start + 1) keys = Some (keys ++ vals).
Proof.
  induction vals as [| v vals IH]; intros fuel start keys Hset Hgap Hfuel;
    (destruct fuel as [| fuel]; [cbn [List.length] in Hfuel; lia |]);
    cbn [load_numbered_keys].
  - cbn [List.length] in Hgap. rewrite Nat.add_0_r in Hgap. unfold numbered_key in Hgap.
    rewrite app_nil_r.
    destruct (getenv _) as [key |]; [| reflexivity].
    cbn [is_set] in Hgap. now rewrite Hgap.
  - destruct (Hset 0) as [H0 Hne]; [cbn [List.length]; lia |].
    rewrite Nat.add_0_r in H0. unfold numbered_key in H0. cbn [nth] in H0, Hne.
    rewrite H0. apply String.eqb_neq in Hne. rewrite Hne. cbn [negb].
    replace (Z.of_nat start + 1 + 1)%Z with (Z.of_nat (Datatypes.S start) + 1)%Z by lia.
    rewrite (IH fuel (Datatypes.S start) (keys ++ [v])).
    + now rewrite <- app_assoc.
    + intros i Hi. replace (Datatypes.S start + i) with (start + Datatypes.S i) by lia.
      apply (Hset (Datatypes.S i)). cbn [List.length]. lia.
    + replace (Datatypes.S start + List.length vals)
        with (start + List.length (v :: vals)) by (cbn [List.length]; lia).
      exact Hgap.
    + cbn [List.length] in Hfuel. lia.
Qed.

(** X24.  The numbered keys are read up to the first gap: when
    [GEMINI_API_KEY_1] to [GEMINI_API_KEY_n] are set and not empty and
    [GEMINI_API_KEY_(n+1)] is unset or empty, the loop ends after [n + 1]
    readings and the keys loaded are these [n], in order, whatever
    numbered variables are set beyond the gap; [GEMINI_API_KEY] is used
    only when there is no numbered key at all, and then only if it is set
    and not empty. *)
Theorem keys_are_read_up_to_first_gap (getenv : string -> option string)
    (vals : list string) (fuel : nat) :
  (forall i, i < List.length vals ->
     getenv (numbered_key i) = Some (nth i vals "") /\ nth i vals "" <> "") ->
  is_set (getenv (numbered_key (List.length vals))) = false ->
  List.length vals < fuel ->
  load_api_keys_from_env getenv fuel
  = Some (match vals with
          | _ :: _ => vals
          | [] => match getenv "GEMINI_API_KEY" with
                  | Some single_key => if is_set (Some single_key) then [single_key] else []
                  | None => []
                  end
          end).
Proof.
  intros Hset Hgap Hfuel. unfold load_api_keys_from_env.
  change 1%Z with (Z.of_nat 0 + 1)%Z.
  rewrite (load_numbered_keys_run getenv vals fuel 0 [] Hset Hgap Hfuel).
  cbn [app]. destruct vals as [| v vals]; cbn [empty is_set]; [| reflexivity].
  destruct (getenv "GEMINI_API_KEY") as [single_key |]; [| reflexivity].
  destruct (negb (String.eqb single_key "")); reflexivity.
Qed.

Lemma load_numbered_keys_extends (getenv : string -> option string) (fuel : nat) :
  forall (i : Z) (keys loaded : list string),
  load_numbered_keys getenv fuel i keys = Some loaded -> exists more, loaded = keys ++ more.
Proof.
  induction fuel as [| fuel IH]; intros i keys loaded; cbn [load_numbered_keys];
    [discriminate |].
  destruct (getenv _) as [key |].
  - destruct (negb (String.eqb key "")).
    + intro H. destruct (IH _ _ _ H) as [more ->]. rewrite <- app_assoc. eauto.
    + intro H. injection H as <-. exists []. now rewrite app_nil_r.
  - intro H. injection H as <-. exists []. now rewrite app_nil_r.
Qed.

(** X25.  No key is an error, and only that is: a first call of [get_model]
    raises its [ValueError] exactly when neither [GEMINI_API_KEY_1] nor
    [GEMINI_API_KEY] is set to a text that is not empty; numbered keys of
    a higher rank do not count when the first is missing, and a variable
    set to the empty text counts as missing.  No client is stored when it
    raises. *)
Theorem no_key_is_an_error (getenv : string -> option string) (fuel : nat) :
  0 < fuel ->
  (exists msg, get_model getenv fuel None = Some (Raised (ValueError msg), None))
  <-> is_set (getenv "GEMINI_API_KEY_1") = false
      /\ is_set (getenv "GEMINI_API_KEY") = false.
Proof.
  intro Hfuel. destruct fuel as [| fuel]; [lia |]. clear Hfuel.
  unfold get_model, load_api_keys_from_env. cbn [load_numbered_keys].
  change (String.append "GEMINI_API_KEY_" (str_of_int 1)) with "GEMINI_API_KEY_1".
  unfold is_set.
  destruct (getenv "GEMINI_API_KEY_1") as [key |].
  - destruct (negb (String.eqb key "")).
    + split; [| intros [H _]; discriminate]. intros [msg H]. exfalso.
      cbn [app] in H.
      destruct (load_numbered_keys getenv fuel (1 + 1) [key]) as [loaded |] eqn:L;
        [| discriminate].
      destruct (load_numbered_keys_extends _ _ _ _ _ L) as [more ->].
      cbn [app empty] in H. discriminate.
    + cbn [empty app].
      destruct (getenv "GEMINI_API_KEY") as [single_key |];
        [destruct (negb (String.eqb single_key "")) |]; cbn [empty];
        split; try (intros [msg H]; discriminate); try (intros [_ H]; discriminate);
        eauto.
  - cbn [empty app].
    destruct (getenv "GEMINI_API_KEY") as [single_key |];
      [destruct (negb (String.eqb single_key "")) |]; cbn [empty];
      split; try (intros [msg H]; discriminate); try (intros [_ H]; discriminate);
      eauto.
Qed.

(** ** The further statements at sample inputs *)

Lemma matched_rows_carry_purchase_order_witness :
  exists report,
    returned (validate_invoices sample_invoices sample_purchase_orders) = Ok report
    /\ Forall2 (fun i r => forall p, In p (rows sample_purchase_orders) ->
                             same_key i p -> po_side_of p r)
               (rows sample_invoices) report.
Proof.
  destruct (returned (validate_invoices sample_invoices sample_purchase_orders))
    as [report |] eqn:H.
  - exists report. split; [reflexivity |].
    exact (matched_rows_carry_purchase_order sample_invoices sample_purchase_orders
             report H).
  - vm_compute in H. discriminate.
Defined.

Lemma validate_invoices_not_rerunnable_witness :
  returned (validate_invoices
              (invoices_after (validate_invoices sample_invoices sample_purchase_orders))
              (po_after (validate_invoices sample_invoices sample_purchase_orders)))
  = Raised (KeyError "invoice_number").
Proof.
  assert (R : reaches_merge sample_invoices sample_purchase_orders
                (rows sample_invoices) (rows sample_purchase_orders)).
  { unfold reaches_merge. repeat split; vm_compute; reflexivity. }
  rewrite (validate_invoices_not_rerunnable sample_invoices sample_purchase_orders _ _ R).
  reflexivity.
Defined.

Lemma bad_invoice_number_leaves_frames_witness :
  exists e,
    validate_invoices invoices_with_bad_number sample_purchase_orders
    = mkOutcome invoices_with_bad_number sample_purchase_orders (Raised e).
Proof.
  apply (bad_invoice_number_leaves_frames invoices_with_bad_number sample_purchase_orders
           (Inv.set_invoice_number (CStr "INV-7")
              (sample_invoice 7 "O-7" "Gale" "Jan 10 2024" 1%float 10%float 10%float
                              10%float))
           (ValueError "invalid literal for int() with base 10")).
  - right. now left.
  - vm_compute. reflexivity.
Defined.

Lemma bad_po_number_leaves_invoices_converted_witness :
  exists e,
    validate_invoices sample_invoices purchase_orders_with_bad_number
    = mkOutcome (mkDataFrame (columns sample_invoices) (rows sample_invoices))
                purchase_orders_with_bad_number (Raised e).
Proof.
  apply (bad_po_number_leaves_invoices_converted sample_invoices
           purchase_orders_with_bad_number (rows sample_invoices)
           (PO.set_invoice_number CNaN
              (sample_po 7 "O-7" "Gale" 1%float 10%float 10%float))
           (ValueError "cannot convert float NaN to integer")).
  - vm_compute. reflexivity.
  - vm_compute. reflexivity.
  - right. now left.
  - reflexivity.
Defined.

Lemma report_status_matches_result_witness :
  exists report,
    returned (validate_invoices overbilled_invoices overbilled_purchase_orders) = Ok report
    /\ Forall (fun r =>
                 (Report.validation_status r = "VALID"
                  /\ Report.validation_result r = "Match")
                 \/ (Report.validation_status r = "INVALID"
                     /\ Report.validation_result r <> "Match"))
              report.
Proof.
  destruct (returned (validate_invoices overbilled_invoices overbilled_purchase_orders))
    as [report |] eqn:H.
  - exists report. split; [reflexivity |].
    exact (report_status_matches_result overbilled_invoices overbilled_purchase_orders
             report H).
  - vm_compute in H. discriminate.
Defined.

Lemma missing_purchase_order_is_invalid_witness :
  exists report,
    returned (validate_invoices sample_invoices sample_purchase_orders) = Ok report
    /\ Forall2 (fun i r =>
                  (forall p, In p (rows sample_purchase_orders) -> ~ same_key i p)
                  \/ (exists p, In p (rows sample_purchase_orders) /\ same_key i p
                                /\ isna (PO.quantity p) || isna (PO.rate p)
                                   || isna (PO.expected_amount p) = true) ->
                  Report.validation_result r = "Missing PO"
                  /\ Report.validation_status r = "INVALID")
               (rows sample_invoices) report.
Proof.
  destruct (returned (validate_invoices sample_invoices sample_purchase_orders))
    as [report |] eqn:H.
  - exists report. split; [reflexivity |].
    exact (missing_purchase_order_is_invalid sample_invoices sample_purchase_orders
             report H).
  - vm_compute in H. discriminate.
Defined.

Lemma emitted_entries_are_payable_witness :
  Forall (fun e =>
            exists r,
              In r sample_report /\ entry_of_row e r
              /\ is_valid r = true /\ already_paid [] r = false
              /\ ((Log.payment_mode e = "PreviouslyPaid"
                   /\ past_due sample_to_datetime sample_now r = true)
                  \/ (Log.payment_mode e = "Auto"
                      /\ due_today sample_to_datetime sample_now r = true)))
         sample_entries.
Proof.
  apply (emitted_entries_are_payable sample_to_datetime sample_now accepting_endpoint
           sample_report [] sample_entries tt tt sample_calls).
  vm_compute. reflexivity.
Defined.

Lemma payments_posted_once_per_row_witness :
  posted sample_calls = [payload_of_row row_due_today].
Proof.
  rewrite (payments_posted_once_per_row sample_to_datetime sample_now accepting_endpoint
             sample_report [] sample_entries tt tt sample_calls).
  - vm_compute. reflexivity.
  - vm_compute. reflexivity.
Defined.

Lemma successful_pass_covers_report_witness :
  already_paid sample_entries row_due_today = true.
Proof.
  apply (successful_pass_covers_report sample_to_datetime accepting_endpoint sample_now
           (mkNow (mkDate 2024 1 10) "2024-01-10T09:00:02")
           sample_report None sample_entries tt tt sample_calls).
  - vm_compute. reflexivity.
  - right. now left.
  - reflexivity.
  - right. vm_compute. reflexivity.
Defined.

Lemma unparseable_due_date_blocks_pass_witness :
  exists e,
    run_pass sample_to_datetime accepting_endpoint sample_now
             (sample_report ++ [row_bad_date]) None tt
    = (None, Some e, tt, []).
Proof.
  apply (unparseable_due_date_blocks_pass sample_to_datetime accepting_endpoint sample_now
           (sample_report ++ [row_bad_date]) None tt row_bad_date
           (ValueError "time data does not match format")).
  - apply in_or_app. right. now left.
  - vm_compute. reflexivity.
Defined.

Lemma exhausted_model_loses_made_payment_witness :
  Some (@nil Log.entry) = Some []
  /\ (exists msg,
        Some (RuntimeError
                "Failed to generate payment justification after multiple attempts.")
        = Some (RuntimeError msg))
  /\ exists before payload reply,
       [EvPost sample_payload (fst (on_post accepting_endpoint sample_payload tt));
        EvGenerateContent (JustificationPrompt "O-2" "Bolt" 250%float "Jan 10 2024") None]
       = before ++ [EvPost payload reply;
                    EvGenerateContent
                      (JustificationPrompt "O-2" "Bolt" 250%float "Jan 10 2024") None]
       /\ post_failed reply = false.
Proof.
  apply (exhausted_model_loses_made_payment sample_to_datetime exhausted_model sample_now
           sample_report (Some []) (Some []) _ tt tt _
           (JustificationPrompt "O-2" "Bolt" 250%float "Jan 10 2024")).
  - vm_compute. reflexivity.
  - right. now left.
Defined.

Lemma metrics_are_consistent_witness :
  (4 = 3 + 1 /\ 0 <= 3 /\ 0 <= 1 <= 1 /\ 0 <= 1 <= len sample_entries)%Z.
Proof.
  apply (metrics_are_consistent sample_to_datetime sample_now
           (sample_report ++ [row_flagged_overdue]) sample_entries 4 3 1 1 1).
  vm_compute. reflexivity.
Defined.

Lemma overdue_and_past_due_split_late_rows_witness :
  (1 + len (filter (past_due sample_to_datetime sample_now)
                   (sample_report ++ [row_flagged_overdue]))
   = len (filter (due_before_today sample_to_datetime sample_now)
                 (sample_report ++ [row_flagged_overdue])))%Z.
Proof.
  apply (overdue_and_past_due_split_late_rows sample_to_datetime sample_now
           (sample_report ++ [row_flagged_overdue]) sample_entries 4 3 1 1 1).
  - vm_compute. reflexivity.
  - repeat constructor; (now left) || (now right).
Defined.

Lemma metrics_return_after_pass_witness :
  exists paid_today overdue,
    calculate_invoice_metrics sample_to_datetime sample_now sample_report
      (load_existing_payment_log (Some sample_entries))
    = Ok (len sample_report, len (filter is_valid sample_report),
          (len sample_report - len (filter is_valid sample_report))%Z,
          paid_today, overdue).
Proof.
  apply (metrics_return_after_pass sample_to_datetime accepting_endpoint sample_now
           sample_report None (Some sample_entries) tt tt sample_calls []).
  - vm_compute. reflexivity.
  - reflexivity.
Defined.

Lemma escalation_table_lists_differences_witness :
  exists report,
    returned (validate_invoices overbilled_invoices overbilled_purchase_orders) = Ok report
    /\ Forall (fun r => build_field_comparison sample_format_float r
                        = table_of_differences sample_format_float r) report
    /\ map (build_field_comparison sample_format_float) report
       = [Some [Comparison.mk "Quantity" "3" "2";
                Comparison.mk "Rate" "$20.0" "$15.0";
                Comparison.mk "Total Amount" "$60.0" "$30.0"]].
Proof.
  destruct (returned (validate_invoices overbilled_invoices overbilled_purchase_orders))
    as [report |] eqn:H.
  - exists report. split; [reflexivity |]. split.
    + exact (escalation_table_lists_differences sample_format_float overbilled_invoices
               overbilled_purchase_orders report H).
    + vm_compute in H. injection H as <-. vm_compute. reflexivity.
  - vm_compute in H. discriminate.
Defined.

Lemma keys_tried_in_turn_witness :
  exists attempts,
    attempts <= 3
    /\ ["key-2"; "key-1"] = [] ++ round_robin ["key-1"; "key-2"] 1 attempts
    /\ api_keys (mkClient ["key-1"; "key-2"] 0) = ["key-1"; "key-2"]
    /\ 0 < 2
    /\ (0 < attempts /\ 0 = (1 + (attempts - 1)) mod 2).
Proof.
  apply (keys_tried_in_turn failing_once 3 (mkClient ["key-1"; "key-2"] 1)
           (mkClient ["key-1"; "key-2"] 0)
           (ExtractionPrompt "text of a.pdf") 0 2 [] ["key-2"; "key-1"] (Some "key-1")).
  - discriminate.
  - cbn. lia.
  - vm_compute. reflexivity.
Defined.

Lemma fenced_answer_is_unwrapped_witness :
  clean_json_output (" " ++ "```json" ++ " json of a.pdf " ++ "```" ++ " ")%string
  = strip " json of a.pdf ".
Proof.
  apply (fenced_answer_is_unwrapped " " " json of a.pdf " " "); reflexivity.
Defined.

Lemma malformed_answer_aborts_batch_witness :
  exists msg,
    fst (fst (run fenced_model (analyze_invoices sample_json_loads sample_folder) tt))
    = Raised (ValueError msg).
Proof.
  destruct (run fenced_model (analyze_invoices sample_json_loads sample_folder) tt)
    as [[result w'] calls] eqn:R.
  apply (malformed_answer_aborts_batch sample_json_loads fenced_model sample_folder tt w'
           result calls (ExtractionPrompt "text of b.pdf")
           "Sorry, I cannot read this invoice." R).
  - vm_compute in R. injection R as _ _ <-. right. now left.
  - vm_compute. reflexivity.
Defined.

Lemma pdfs_are_sent_in_order_witness :
  exists not_sent,
    pdf_prompts (("notes.txt", "text of notes.txt") :: sample_folder)
    = asked [EvGenerateContent (ExtractionPrompt "text of a.pdf")
                               (Some "```json json of a.pdf ```");
             EvGenerateContent (ExtractionPrompt "text of b.pdf")
                               (Some "Sorry, I cannot read this invoice.")]
      ++ not_sent.
Proof.
  destruct (pdfs_are_sent_in_order sample_json_loads fenced_model
              (("notes.txt", "text of notes.txt") :: sample_folder) tt tt
              (Raised (ValueError "Failed to parse JSON response from Gemini API"))
              [EvGenerateContent (ExtractionPrompt "text of a.pdf")
                                 (Some "```json json of a.pdf ```");
               EvGenerateContent (ExtractionPrompt "text of b.pdf")
                                 (Some "Sorry, I cannot read this invoice.")])
    as (not_sent & H & _).
  - vm_compute. reflexivity.
  - exists not_sent. exact H.
Defined.

Lemma multi_item_invoice_cannot_be_validated_witness :
  exists e,
    returned (validate_invoices
                (mkDataFrame Inv.labels
                   (flatten "a.pdf" two_item_parsed))
                sample_purchase_orders)
    = Raised e.
Proof.
  apply (multi_item_invoice_cannot_be_validated two_item_json_loads fenced_model
           [("a.pdf", "text of a.pdf")] tt tt (flatten "a.pdf" two_item_parsed)
           [EvGenerateContent (ExtractionPrompt "text of a.pdf")
                              (Some "```json json of a.pdf ```")]
           (ExtractionPrompt "text of a.pdf") "```json json of a.pdf ```"
           two_item_parsed).
  - vm_compute. reflexivity.
  - now left.
  - vm_compute. reflexivity.
  - cbn. lia.
Defined.

Lemma keys_are_read_up_to_first_gap_witness :
  load_api_keys_from_env sample_getenv 5 = Some ["key-1"; "key-2"].
Proof.
  apply (keys_are_read_up_to_first_gap sample_getenv ["key-1"; "key-2"] 5).
  - intros [| [| i]] Hi; cbn [List.length] in Hi; try lia;
      (split; [vm_compute; reflexivity | discriminate]).
  - vm_compute. reflexivity.
  - cbn. lia.
Defined.

Lemma no_key_is_an_error_witness :
  exists msg, get_model empty_key_getenv 1 None = Some (Raised (ValueError msg), None).
Proof.
  apply (proj2 (no_key_is_an_error empty_key_getenv 1 (Nat.lt_0_succ 0))).
  split; reflexivity.
Defined.
